(** * Netwatch: access provisioning and cleanup, embedded in Rocq

  A shallow embedding of the provisioning state machine
  ([internal/handlers/websocket_commands.go]), the cluster facade and
  permission oracle ([internal/k8s]), the cleanup reconciler
  ([internal/controller/cleanup_controller.go]) and the read-model
  aggregator ([internal/handlers/api_handlers.go]), followed by the
  properties of the specification stated over it and by further
  properties of the code. *)

From Stdlib Require Import ZArith String Ascii List Bool Lia.
From Stdlib Require Import DecimalString.
From Stdlib Require Import Sorted Permutation.
From stdpp Require Import base option gmap strings list fin_maps.

Open Scope string_scope.
Open Scope Z_scope.

(* ===================================================================== *)
(** ** Go standard-library helpers used by the program *)
(* ===================================================================== *)

Module GoStrings.

(** [len(s)] in bytes. *)
Definition len (s : string) : nat := String.length s.

(** [s[:n]]: [None] is the run-time panic of an out-of-range slice. *)
Definition slice_to (n : nat) (s : string) : option string :=
  if (n <=? len s)%nat then Some (substring 0 n s) else None.

(** [strings.HasPrefix(s, p)]. *)
Definition HasPrefix (s p : string) : bool := String.prefix p s.

(** [strings.Split(s, sep)] for a one-byte separator: always at least
    one field. *)
Fixpoint Split (s : string) (sep : ascii) : list string :=
  match s with
  | EmptyString => [EmptyString]
  | String c rest =>
      if Ascii.eqb c sep then EmptyString :: Split rest sep
      else match Split rest sep with
           | [] => [String c EmptyString]
           | f :: fs => String c f :: fs
           end
  end.

(** [strings.Join(l, sep)]. *)
Definition Join (l : list string) (sep : string) : string := String.concat sep l.

(** [strings.TrimSpace] cuts the leading and the trailing white space of
    Unicode.  A Go string is a sequence of bytes read as UTF-8; the white
    space code points and their encodings are
      U+0009..U+000D, U+0020               one byte,
      U+0085, U+00A0                       C2 85, C2 A0,
      U+1680                               E1 9A 80,
      U+2000..U+200A, U+2028, U+2029,
      U+202F                               E2 80 80..8A, E2 80 A8, A9, AF,
      U+205F                               E2 81 9F,
      U+3000                               E3 80 80.
    No other byte sequence decodes to one of them: an overlong or broken
    encoding is read as U+FFFD, one byte wide, and ends the trimming. *)
Definition asciiSpace (c : ascii) : bool :=
  match nat_of_ascii c with
  | 9%nat | 10%nat | 11%nat | 12%nat | 13%nat | 32%nat => true
  | _ => false
  end.

(** The bytes [c0 c1] encode U+0085 or U+00A0. *)
Definition isSpace2 (c0 c1 : ascii) : bool :=
  let b1 := nat_of_ascii c1 in
  Nat.eqb (nat_of_ascii c0) 194 && (Nat.eqb b1 133 || Nat.eqb b1 160).

(** The bytes [c0 c1 c2] encode a white space code point from U+1680 on. *)
Definition isSpace3 (c0 c1 c2 : ascii) : bool :=
  let b0 := nat_of_ascii c0 in
  let b1 := nat_of_ascii c1 in
  let b2 := nat_of_ascii c2 in
  (Nat.eqb b0 225 && Nat.eqb b1 154 && Nat.eqb b2 128)
  || (Nat.eqb b0 226 && Nat.eqb b1 128
      && ((Nat.leb 128 b2 && Nat.leb b2 138)
          || Nat.eqb b2 168 || Nat.eqb b2 169 || Nat.eqb b2 175))
  || (Nat.eqb b0 226 && Nat.eqb b1 129 && Nat.eqb b2 159)
  || (Nat.eqb b0 227 && Nat.eqb b1 128 && Nat.eqb b2 128).

(** [TrimLeftFunc(s, unicode.IsSpace)]: runes are decoded from the front. *)
Fixpoint trimLeft (s : string) : string :=
  match s with
  | EmptyString => EmptyString
  | String c0 r0 =>
      if asciiSpace c0 then trimLeft r0
      else match r0 with
           | EmptyString => s
           | String c1 r1 =>
               if isSpace2 c0 c1 then trimLeft r1
               else match r1 with
                    | EmptyString => s
                    | String c2 r2 => if isSpace3 c0 c1 c2 then trimLeft r2 else s
                    end
           end
  end.

(** [TrimRightFunc(s, unicode.IsSpace)] on the bytes in reverse order:
    [utf8.DecodeLastRuneInString] steps back to the nearest byte that
    starts a rune, so the last rune is a white space exactly when the
    string ends with one of the encodings above. *)
Fixpoint trimReversed (l : list ascii) : list ascii :=
  match l with
  | [] => []
  | c0 :: r0 =>
      if asciiSpace c0 then trimReversed r0
      else match r0 with
           | [] => l
           | c1 :: r1 =>
               if isSpace2 c1 c0 then trimReversed r1
               else match r1 with
                    | [] => l
                    | c2 :: r2 => if isSpace3 c2 c1 c0 then trimReversed r2 else l
                    end
           end
  end.

Definition trimRight (s : string) : string :=
  string_of_list_ascii (rev (trimReversed (rev (list_ascii_of_string s)))).

Definition TrimSpace (s : string) : string := trimRight (trimLeft s).

(** Index of the first occurrence of [old] in [s], as [strings.Index]. *)
Fixpoint Index (s old : string) : option nat :=
  if String.prefix old s then Some 0%nat
  else match s with
       | EmptyString => None
       | String _ rest => S <$> Index rest old
       end.

(** [strings.Replace(s, old, "", 1)]: cut the first occurrence of [old]. *)
Definition ReplaceFirstWithEmpty (s old : string) : string :=
  match Index s old with
  | None => s
  | Some i => substring 0 i s ++ substring (i + len old) (len s - (i + len old)) s
  end.

(** [strings.ReplaceAll(s, old, new)] for a one-byte [old] and [new]. *)
Fixpoint ReplaceAllByte (s : string) (old new : ascii) : string :=
  match s with
  | EmptyString => EmptyString
  | String c rest =>
      String (if Ascii.eqb c old then new else c) (ReplaceAllByte rest old new)
  end.

(** [fmt.Sprintf("%d", z)] and [strconv.Itoa]. *)
Definition Itoa (z : Z) : string := NilZero.string_of_int (Z.to_int z).

Definition digit (c : ascii) : option Z :=
  let n := Z.of_nat (nat_of_ascii c) in
  if (48 <=? n) && (n <=? 57) then Some (n - 48) else None.

Fixpoint digits (acc : Z) (s : string) : option Z :=
  match s with
  | EmptyString => Some acc
  | String c rest =>
      match digit c with
      | Some d => digits (10 * acc + d) rest
      | None => None
      end
  end.

(** [strconv.Atoi]: an optional sign, at least one decimal digit, and
    the value within the 64-bit [int]; [None] is the returned error. *)
Definition Atoi (s : string) : option Z :=
  let body sign rest :=
    match rest with
    | EmptyString => None
    | _ => match digits 0 rest with
           | Some v =>
               let r := sign * v in
               if (- 2 ^ 63 <=? r) && (r <? 2 ^ 63) then Some r else None
           | None => None
           end
    end in
  match s with
  | String "+" rest => body 1 rest
  | String "-" rest => body (-1) rest
  | _ => body 1 s
  end.

(** The conversion [int32(port)]. *)
Definition int32 (z : Z) : Z := (z + 2 ^ 31) mod 2 ^ 32 - 2 ^ 31.

Definition hexDigit (n : N) : ascii :=
  ascii_of_N (if (n <? 10)%N then 48 + n else 87 + n)%N.

(** [hex.EncodeToString([]byte(s))]: two lower-case digits per byte. *)
Fixpoint hexEncode (s : string) : string :=
  match s with
  | EmptyString => EmptyString
  | String c rest =>
      let n := N_of_ascii c in
      String (hexDigit (n / 16)%N) (String (hexDigit (n mod 16)%N) (hexEncode rest))
  end.

End GoStrings.

(** [crypto/sha1]: the digest of FIPS 180-4 on 32-bit words kept in [Z]. *)
Module Sha1.

Definition w32 (z : Z) : Z := z mod 2 ^ 32.
Definition add32 (a b : Z) : Z := w32 (a + b).
Definition rotl (n : Z) (x : Z) : Z :=
  w32 (Z.lor (Z.shiftl x n) (Z.shiftr x (32 - n))).
Definition not32 (x : Z) : Z := 2 ^ 32 - 1 - x.

Definition bytesOf (s : string) : list Z :=
  map (fun c => Z.of_nat (nat_of_ascii c)) (list_ascii_of_string s).

(** Big-endian bytes of [z], [n] of them. *)
Fixpoint bigEndian (n : nat) (z : Z) : list Z :=
  match n with
  | O => []
  | S k => bigEndian k (z / 256) ++ [z mod 256]
  end.

Definition pad (msg : list Z) : list Z :=
  let l := Z.of_nat (length msg) in
  let zeros := Z.to_nat ((55 - l) mod 64) in
  msg ++ 128 :: repeat 0 zeros ++ bigEndian 8 (8 * l).

Fixpoint words (fuel : nat) (bs : list Z) : list Z :=
  match fuel, bs with
  | S k, b0 :: b1 :: b2 :: b3 :: rest =>
      (((b0 * 256 + b1) * 256 + b2) * 256 + b3) :: words k rest
  | _, _ => []
  end.

(** The message schedule: [window] holds the last sixteen words. *)
Fixpoint schedule (n : nat) (window : list Z) : list Z :=
  match n with
  | O => []
  | S k =>
      let at_ i := nth i window 0 in
      let nxt := rotl 1 (Z.lxor (Z.lxor (at_ 13%nat) (at_ 8%nat))
                                (Z.lxor (at_ 2%nat) (at_ 0%nat))) in
      nxt :: schedule k (tl window ++ [nxt])
  end.

Record regs := Regs { ra : Z; rb : Z; rc : Z; rd : Z; re : Z }.

Definition round (t : nat) (r : regs) (w : Z) : regs :=
  let '(Regs a b c d e) := r in
  let '(f, k) :=
    if (t <? 20)%nat then (Z.lor (Z.land b c) (Z.land (not32 b) d), 0x5A827999)
    else if (t <? 40)%nat then (Z.lxor (Z.lxor b c) d, 0x6ED9EBA1)
    else if (t <? 60)%nat then
      (Z.lor (Z.lor (Z.land b c) (Z.land b d)) (Z.land c d), 0x8F1BBCDC)
    else (Z.lxor (Z.lxor b c) d, 0xCA62C1D6) in
  let temp := add32 (add32 (add32 (add32 (rotl 5 a) f) e) k) w in
  Regs temp a (rotl 30 b) c d.

Fixpoint rounds (t : nat) (r : regs) (ws : list Z) : regs :=
  match ws with
  | [] => r
  | w :: rest => rounds (S t) (round t r w) rest
  end.

Definition block (h : regs) (w16 : list Z) : regs :=
  let r := rounds 0 h (w16 ++ schedule 64 w16) in
  Regs (add32 (ra h) (ra r)) (add32 (rb h) (rb r)) (add32 (rc h) (rc r))
       (add32 (rd h) (rd r)) (add32 (re h) (re r)).

Fixpoint blocks (fuel : nat) (h : regs) (ws : list Z) : regs :=
  match fuel, ws with
  | S k, _ :: _ => blocks k (block h (firstn 16 ws)) (skipn 16 ws)
  | _, _ => h
  end.

Definition init : regs :=
  Regs 0x67452301 0xEFCDAB89 0x98BADCFE 0x10325476 0xC3D2E1F0.

(** The twenty digest bytes, [h.Sum(nil)]. *)
Definition sum (s : string) : list Z :=
  let bs := pad (bytesOf s) in
  let ws := words (length bs) bs in
  let r := blocks (length ws) init ws in
  bigEndian 4 (ra r) ++ bigEndian 4 (rb r) ++ bigEndian 4 (rc r)
    ++ bigEndian 4 (rd r) ++ bigEndian 4 (re r).

Definition sumString (s : string) : string :=
  string_of_list_ascii (map (fun b => ascii_of_nat (Z.to_nat b)) (sum s)).

End Sha1.

(* ===================================================================== *)
(** ** The cluster: objects, the API server and the environment *)
(* ===================================================================== *)

Module Cluster.

(** *** Errors *)

(** Failures the environment can inject into an API call (RBAC denial
    of the calling identity, unavailability, optimistic-concurrency
    conflict, server error).  Whether an object exists is decided by
    the store, never by the environment. *)
Inductive FaultKind := Forbidden | Unavailable | Conflict | ServerError.
Record Fault := MkFault { faultKind : FaultKind; faultText : string }.

Inductive Reason :=
| NotFound | AlreadyExists | Injected (k : FaultKind)
| Local. (* an error made by the program itself with [fmt.Errorf] *)

(** A Go [error]: the status reason found by unwrapping ([%w]) and the
    text given by [Error()]. *)
Record error := MkError { reason : Reason; text : string }.

Definition Errorf (prefix : string) (e : error) : error :=
  MkError (reason e) (prefix ++ text e).
Definition NewError (msg : string) : error := MkError Local msg.

(** [errors.IsNotFound] / [k8s.IsNotFound]. *)
Definition IsNotFound (e : error) : bool :=
  match reason e with NotFound => true | _ => false end.

Definition faultError (f : Fault) : error :=
  MkError (Injected (faultKind f)) (faultText f).

(** A Go result pair [(T, error)]. *)
Inductive Result (T : Type) := Ok (t : T) | Err (e : error).
Arguments Ok {T} t.
Arguments Err {T} e.

(** *** Objects *)

Record ObjectMeta := MkMeta {
  Name : string;
  Namespace : string;
  Labels : gmap string string;
  Annotations : gmap string string;
  Finalizers : list string;
  CreationTimestamp : Z;
  DeletionTimestamp : option Z }.

Definition newMeta (name ns : string) (labels annotations : gmap string string)
  : ObjectMeta := MkMeta name ns labels annotations [] 0 None.

Record ServicePort := MkPort { PortName : string; Protocol : string; Port : Z }.

Record Service := MkService {
  svcMeta : ObjectMeta;
  Ports : list ServicePort;
  Selector : gmap string string;
  ServiceType : string;
  ClusterIP : string;
  ClusterIPs : list string }.

Record AccessPoint := MkPoint { ServiceName : string; PointNamespace : string }.

(** maxtac's [Access]. *)
Record Access := MkAccess {
  accMeta : ObjectMeta;
  accDuration : string;
  accServiceSelector : gmap string string;
  accTargets : list AccessPoint;
  accDirection : string }.

(** maxtac's [ExternalAccess]. *)
Record ExternalAccess := MkExternalAccess {
  eaMeta : ObjectMeta;
  eaTargetCIDRs : list string;
  eaDirection : string;
  eaDuration : string;
  eaServiceSelector : gmap string string }.

(** [api/v1alpha1.AccessRequestSpec]. *)
Record AccessRequestSpec := MkRequestSpec {
  Requestor : string;
  RequestType : string;
  SourceService : string;
  TargetService : string;
  Cidr : string;
  Service_ : string;
  Direction : string;
  PortsSpec : string;
  Duration : Z;
  Description : string;
  Status : string;
  RequestID : string;
  SourceCloneName : string;
  TargetCloneName : string }.

Record AccessRequest := MkRequest { arMeta : ObjectMeta; arSpec : AccessRequestSpec }.

(** *** API calls and the environment *)

Record UserInfo := MkUser { Email : string; Groups : list string }.

Inductive Client :=
| AppClient                       (* the privileged [appKubeClient] *)
| Impersonating (u : UserInfo)    (* [GetImpersonatingKubeClient] *)
| ReconcilerClient.               (* the manager's client *)

Inductive Kind := KService | KAccess | KExternalAccess | KAccessRequest.

(** [authv1.ResourceAttributes] with the reviewed user. *)
Record Review := MkReview {
  rvUser : UserInfo;
  rvVerb : string; rvGroup : string; rvResource : string;
  rvNamespace : string; rvName : string }.

Inductive Op :=
| OpGet (k : Kind) (ns name : string)
| OpCreate (k : Kind) (ns name : string)
| OpUpdate (k : Kind) (ns name : string)
| OpDelete (k : Kind) (ns name : string)
| OpList (k : Kind) (label : option (string * string))
| OpReview (r : Review).

Record ApiCall := Call { caller : Client; op : Op }.

(** [k8s.PermissionRequest]. *)
Record PermissionRequest := MkPerm {
  Verb : string; Group : string; Resource : string; PermNamespace : string }.

(** What the program does not decide: injected failures (by time and
    call), the verdicts of the authorization subsystem, the order in
    which concurrent permission checks complete, token verification by
    the identity provider, and the random UUIDs. *)
Record Env := MkEnv {
  faults : nat -> ApiCall -> option Fault;
  allowed : Review -> bool;
  completion : list PermissionRequest -> list PermissionRequest;
  verifyToken : string -> Result UserInfo;
  uuids : nat -> string }.

Inductive Level := LInfo | LWarn | LError.

(** A line of the structured logger: level, message and the ["error"]
    attribute when one is given (other attributes are not kept). *)
Record LogLine := MkLine { level : Level; message : string; attached : option error }.

(** [handlers.LogEntry] (the timestamp is set by the transport). *)
Record LogEntry := MkEntry {
  Payload : string; ClassName : string; LogType : string; EntryType : string }.

Record World := MkWorld {
  env : Env;
  services : gmap (string * string) Service;
  accesses : gmap (string * string) Access;
  externalAccesses : gmap (string * string) ExternalAccess;
  accessRequests : gmap (string * string) AccessRequest;
  clock : nat;                 (* API calls issued so far *)
  uuidCount : nat;             (* UUIDs drawn so far *)
  trace : list (ApiCall * option error); (* calls and results, newest first *)
  broadcast : list LogEntry;   (* activity log, newest first *)
  slog : list LogLine }.       (* diagnostic log, newest first *)

Definition setServices m w :=
  MkWorld (env w) m (accesses w) (externalAccesses w) (accessRequests w)
          (clock w) (uuidCount w) (trace w) (broadcast w) (slog w).
Definition setAccesses m w :=
  MkWorld (env w) (services w) m (externalAccesses w) (accessRequests w)
          (clock w) (uuidCount w) (trace w) (broadcast w) (slog w).
Definition setExternalAccesses m w :=
  MkWorld (env w) (services w) (accesses w) m (accessRequests w)
          (clock w) (uuidCount w) (trace w) (broadcast w) (slog w).
Definition setAccessRequests m w :=
  MkWorld (env w) (services w) (accesses w) (externalAccesses w) m
          (clock w) (uuidCount w) (trace w) (broadcast w) (slog w).
Definition issued (c : ApiCall) (r : option error) w :=
  MkWorld (env w) (services w) (accesses w) (externalAccesses w) (accessRequests w)
          (S (clock w)) (uuidCount w) ((c, r) :: trace w) (broadcast w) (slog w).
Definition drewUUID w :=
  MkWorld (env w) (services w) (accesses w) (externalAccesses w) (accessRequests w)
          (clock w) (S (uuidCount w)) (trace w) (broadcast w) (slog w).
Definition broadcasted (e : LogEntry) w :=
  MkWorld (env w) (services w) (accesses w) (externalAccesses w) (accessRequests w)
          (clock w) (uuidCount w) (trace w) (e :: broadcast w) (slog w).
Definition logged (l : LogLine) w :=
  MkWorld (env w) (services w) (accesses w) (externalAccesses w) (accessRequests w)
          (clock w) (uuidCount w) (trace w) (broadcast w) (l :: slog w).

(** *** The monad of the program: state, and panics that abort *)

Inductive Outcome (A : Type) :=
| Ret (a : A) (w : World)
| Panic (why : string) (w : World).
Arguments Ret {A} a w.
Arguments Panic {A} why w.

Definition M (A : Type) : Type := World -> Outcome A.

Definition ret {A} (a : A) : M A := fun w => Ret a w.
Definition bind {A B} (m : M A) (f : A -> M B) : M B :=
  fun w => match m w with
           | Ret a w' => f a w'
           | Panic why w' => Panic why w'
           end.
Definition panic {A} (why : string) : M A := fun w => Panic why w.
Definition getWorld : M World := fun w => Ret w w.
Definition modify (f : World -> World) : M unit := fun w => Ret tt (f w).

(** The world an outcome ends in. *)
Definition final {A} (o : Outcome A) : World :=
  match o with Ret _ w => w | Panic _ w => w end.
Definition returned {A} (o : Outcome A) : option A :=
  match o with Ret a _ => Some a | Panic _ _ => None end.

End Cluster.

Export Cluster.

#[export] Instance M_ret : MRet M := @ret.
#[export] Instance M_bind : MBind M := fun A B f m => bind m f.

(** *** The API server, as seen through a controller-runtime client *)

Module Api.

(** [client.Object]: what the typed client needs of a resource kind. *)
Class Object (T : Type) := {
  kindOf : Kind;
  meta : T -> ObjectMeta;
  setMeta : ObjectMeta -> T -> T;
  store : World -> gmap (string * string) T;
  setStore : gmap (string * string) T -> World -> World }.
Arguments kindOf T {_}.

#[export] Instance ServiceObject : Object Service := {|
  kindOf := KService; meta := svcMeta;
  setMeta m s := MkService m (Ports s) (Selector s) (ServiceType s) (ClusterIP s) (ClusterIPs s);
  store := services; setStore := setServices |}.
#[export] Instance AccessObject : Object Access := {|
  kindOf := KAccess; meta := accMeta;
  setMeta m a := MkAccess m (accDuration a) (accServiceSelector a) (accTargets a) (accDirection a);
  store := accesses; setStore := setAccesses |}.
#[export] Instance ExternalAccessObject : Object ExternalAccess := {|
  kindOf := KExternalAccess; meta := eaMeta;
  setMeta m a := MkExternalAccess m (eaTargetCIDRs a) (eaDirection a) (eaDuration a) (eaServiceSelector a);
  store := externalAccesses; setStore := setExternalAccesses |}.
#[export] Instance AccessRequestObject : Object AccessRequest := {|
  kindOf := KAccessRequest; meta := arMeta;
  setMeta m r := MkRequest m (arSpec r);
  store := accessRequests; setStore := setAccessRequests |}.

Definition keyOf `{Object T} (o : T) : string * string :=
  (Namespace (meta o), Name (meta o)).

Definition notFound (name : string) : error :=
  MkError NotFound (name ++ " not found").
Definition alreadyExists (name : string) : error :=
  MkError AlreadyExists (name ++ " already exists").

Definition errorOf {A} (r : Result A) : option error :=
  match r with Ok _ => None | Err e => Some e end.

(** Every call is recorded with its result; the environment may fail it
    before it reaches the store, which is then left as it was. *)
Definition perform {A} (cl : Client) (o : Op) (serve : World -> Result A * World)
  : M (Result A) :=
  fun w =>
    match faults (env w) (clock w) (Call cl o) with
    | Some ft => Ret (Err (faultError ft)) (issued (Call cl o) (Some (faultError ft)) w)
    | None =>
        let '(r, w') := serve w in
        Ret r (issued (Call cl o) (errorOf r) w')
    end.

(** A call whose Go signature returns only [error]. *)
Definition performE (cl : Client) (o : Op) (serve : World -> Result unit * World)
  : M (option error) :=
  r ← perform cl o serve; mret (errorOf r).

Definition Get (T : Type) `{Object T} (cl : Client) (ns name : string) : M (Result T) :=
  perform cl (OpGet (kindOf T) ns name) (fun w =>
    match store w !! (ns, name) with
    | Some o => (Ok o, w)
    | None => (Err (notFound name), w)
    end).

(** The server stamps the creation time; the object is stored as sent. *)
Definition stamp `{Object T} (now : Z) (o : T) : T :=
  let m := meta o in
  setMeta (MkMeta (Name m) (Namespace m) (Labels m) (Annotations m) (Finalizers m) now None) o.

Definition Create `{Object T} (cl : Client) (o : T) : M (option error) :=
  performE cl (OpCreate (kindOf T) (Namespace (meta o)) (Name (meta o))) (fun w =>
    match store w !! keyOf o with
    | Some _ => (Err (alreadyExists (Name (meta o))), w)
    | None => (Ok tt, setStore (<[keyOf o := stamp (Z.of_nat (clock w)) o]> (store w)) w)
    end).

Definition markDeleted (now : Z) (m : ObjectMeta) : ObjectMeta :=
  MkMeta (Name m) (Namespace m) (Labels m) (Annotations m) (Finalizers m)
         (CreationTimestamp m)
         (match DeletionTimestamp m with Some t => Some t | None => Some now end).

(** Deletion removes an object without finalizers and only marks one
    that has them. *)
Definition afterDelete `{Object T} (now : Z) (k : string * string) (o : T)
    (m : gmap (string * string) T) : gmap (string * string) T :=
  match Finalizers (meta o) with
  | [] => delete k m
  | _ :: _ => <[k := setMeta (markDeleted now (meta o)) o]> m
  end.

Definition Delete (T : Type) `{Object T} (cl : Client) (ns name : string) : M (option error) :=
  performE cl (OpDelete (kindOf T) ns name) (fun w =>
    match store w !! (ns, name) with
    | None => (Err (notFound name), w)
    | Some o => (Ok tt, setStore (afterDelete (Z.of_nat (clock w)) (ns, name) o (store w)) w)
    end).

(** An update keeps the server-owned timestamps; an object marked for
    deletion goes away with its last finalizer. *)
Definition updated `{Object T} (old o : T) : T :=
  let m := meta o in
  setMeta (MkMeta (Name m) (Namespace m) (Labels m) (Annotations m) (Finalizers m)
                  (CreationTimestamp (meta old)) (DeletionTimestamp (meta old))) o.

Definition afterUpdate `{Object T} (old o : T)
    (m : gmap (string * string) T) : gmap (string * string) T :=
  match DeletionTimestamp (meta old), Finalizers (meta o) with
  | Some _, [] => delete (keyOf o) m
  | _, _ => <[keyOf o := updated old o]> m
  end.

Definition Update `{Object T} (cl : Client) (o : T) : M (option error) :=
  performE cl (OpUpdate (kindOf T) (Namespace (meta o)) (Name (meta o))) (fun w =>
    match store w !! keyOf o with
    | None => (Err (notFound (Name (meta o))), w)
    | Some old => (Ok tt, setStore (afterUpdate old o (store w)) w)
    end).

Definition matches (label : option (string * string)) (m : ObjectMeta) : bool :=
  match label with
  | None => true
  | Some (k, v) => bool_decide (Labels m !! k = Some v)
  end.

(** The items of a list call, in key order of the store. *)
Definition listed `{Object T} (label : option (string * string)) (w : World) : list T :=
  List.filter (fun o => matches label (meta o)) (map snd (map_to_list (store w))).

Definition List_ (T : Type) `{Object T} (cl : Client) (label : option (string * string))
  : M (Result (list T)) :=
  perform cl (OpList (kindOf T) label) (fun w => (Ok (listed label w), w)).

End Api.

Export Api.

(* ===================================================================== *)
(** ** [internal/utils/logger] and [internal/k8s]: the cluster facade *)
(* ===================================================================== *)

Module Logger.
Definition Info (msg : string) : M unit := modify (logged (MkLine LInfo msg None)).
Definition Warn (msg : string) : M unit := modify (logged (MkLine LWarn msg None)).
Definition Error (msg : string) (err : option error) : M unit :=
  modify (logged (MkLine LError msg err)).
End Logger.

Module K8s.
Import GoStrings.

Definition requestIDLabel : string := "netwatch.vtk.io/request-id".
Definition managedByLabel : string := "app.kubernetes.io/managed-by".
Definition userLabel : string := "netwatch.vtk.io/user".
Definition clonedFrom : string := "netwatch.vtk.io/cloned-from".
Definition portsAnnotation : string := "netwatch.vtk.io/ports".

(** [GetImpersonatingKubeClient]: the token is verified again and the
    client acts as the user it names. *)
Definition GetImpersonatingKubeClient (idTokenString : string) : M (Result Client) :=
  w ← getWorld;
  match verifyToken (env w) idTokenString with
  | Err e => mret (Err e)
  | Ok userInfo => mret (Ok (Impersonating userInfo))
  end.

(** [CanPerformAction]: one SubjectAccessReview through the
    application client. *)
Definition CanPerformAction (userInfo : UserInfo)
    (verb group resource namespace name : string) : M (bool * option error) :=
  let review := MkReview userInfo verb group resource namespace name in
  r ← perform AppClient (OpReview review) (fun w => (Ok (allowed (env w) review), w));
  match r with
  | Err err => mret (false, Some (Errorf "failed to create subjectaccessreview: " err))
  | Ok reviewAllowed => mret (reviewAllowed, None)
  end.

(** The body of one goroutine of [CanPerformAllActions]. *)
Definition checkOne (userInfo : UserInfo) (perm : PermissionRequest) : M (option error) :=
  '(allowed, err) ← CanPerformAction userInfo (Verb perm) (Group perm) (Resource perm)
                      (PermNamespace perm) "";
  match err with
  | Some e => mret (Some e)
  | None =>
      if negb allowed then
        mret (Some (NewError ("permission denied: cannot " ++ Verb perm ++ " " ++ Resource perm
                                ++ " in namespace " ++ PermNamespace perm)))
      else mret None
  end.

Fixpoint forEach {A B} (f : A -> M B) (l : list A) : M (list B) :=
  match l with
  | [] => mret []
  | x :: rest => y ← f x; ys ← forEach f rest; mret (y :: ys)
  end.

(** [errgroup.Group.Wait]: the first non-nil error, in the order the
    goroutines finished. *)
Fixpoint firstError (results : list (option error)) : option error :=
  match results with
  | [] => None
  | Some e :: _ => Some e
  | None :: rest => firstError rest
  end.

(** [CanPerformAllActions]: the checks run concurrently; they are taken
    here in the order in which they complete. *)
Definition CanPerformAllActions (userInfo : UserInfo) (perms : list PermissionRequest)
  : M (bool * option error) :=
  w ← getWorld;
  results ← forEach (checkOne userInfo) (completion (env w) perms);
  match firstError results with
  | Some err =>
      if HasPrefix (text err) "permission denied" then
        Logger.Info "User permission check failed";;
        mret (false, None)
      else mret (false, Some err)
  | None => mret (true, None)
  end.

(** [internal/k8s/service.go] *)

Definition ListAllServices : M (Result (list Service)) := List_ Service AppClient None.

(** The object [CloneService] builds from the original: its selector and
    type, the ports to use, the correlation label and the two
    annotations; a ClusterIP service gets no address of its own. *)
Definition clonedServiceOf (originalService : Service)
    (originalNamespace originalName newName : string)
    (uniqueLabel : gmap string string) (overridePorts : list ServicePort) : Service :=
  let portsToUse :=
    if (0 <? length overridePorts)%nat then overridePorts else Ports originalService in
  let portStrings := map (fun p => Itoa (Port p)) portsToUse in
  let portsAnnotationValue := Join portStrings ", " in
  let clonedService :=
    MkService
      (newMeta newName (Namespace (svcMeta originalService)) uniqueLabel
         (<[clonedFrom := originalNamespace ++ "/" ++ originalName]>
            (<[portsAnnotation := portsAnnotationValue]> ∅)))
      portsToUse (Selector originalService) (ServiceType originalService) "" [] in
  if String.eqb (ServiceType clonedService) "ClusterIP" then
    MkService (svcMeta clonedService) (Ports clonedService) (Selector clonedService)
              (ServiceType clonedService) "" []
  else clonedService.

Definition CloneService (k8sClient : Client)
    (originalNamespace originalName newName : string)
    (uniqueLabel : gmap string string) (overridePorts : list ServicePort)
  : M (Result Service) :=
  r ← Get Service AppClient originalNamespace originalName;
  match r with
  | Err err =>
      mret (Err (Errorf ("could not get original service " ++ originalNamespace ++ "/"
                           ++ originalName ++ ": ") err))
  | Ok originalService =>
      let clonedService :=
        clonedServiceOf originalService originalNamespace originalName newName
                        uniqueLabel overridePorts in
      e ← Create k8sClient clonedService;
      match e with
      | Some err =>
          mret (Err (Errorf ("could not create service clone "
                               ++ Namespace (svcMeta clonedService) ++ "/"
                               ++ Name (svcMeta clonedService) ++ ": ") err))
      | None => mret (Ok clonedService)
      end
  end.

Definition DeleteService (k8sClient : Client) (namespace name : string) : M (option error) :=
  Delete Service k8sClient namespace name.

(** [internal/k8s/access.go] *)

Definition CreateAccess (k8sClient : Client) (access : Access) : M (option error) :=
Create k8sClient access.

Definition DeleteAccess (k8sClient : Client) (namespace name : string) : M (option error) :=
  Delete Access k8sClient namespace name.

Definition GetAccessAsUser (k8sClient : Client) (namespace name : string) : M (Result Access) :=
  Get Access k8sClient namespace name.

Definition ListAllAccessesWithLabelAsApp (reqID : string) : M (Result (list Access)) :=
  r ← List_ Access AppClient (Some (requestIDLabel, reqID));
  match r with
  | Err err => mret (Err (Errorf "failed to list accesses with app client: " err))
  | Ok l => mret (Ok l)
  end.

Definition ListNetwatchAccesses : M (Result (list Access)) :=
  List_ Access AppClient (Some (managedByLabel, "netwatch")).

(** [internal/k8s/externalaccess.go] *)

Definition CreateExternalAccess (k8sClient : Client) (access : ExternalAccess)
  : M (option error) := Create k8sClient access.

Definition DeleteExternalAccess (k8sClient : Client) (namespace name : string)
  : M (option error) := Delete ExternalAccess k8sClient namespace name.

Definition ListNetwatchExternalAccesses : M (Result (list ExternalAccess)) :=
  List_ ExternalAccess AppClient (Some (managedByLabel, "netwatch")).

(** [internal/k8s/accessrequest.go]: AccessRequests are cluster-scoped. *)

Definition CreateAccessRequestAsApp (req : AccessRequest) : M (option error) :=
Create AppClient req.

Definition ListAccessRequestsAsApp : M (Result (list AccessRequest)) :=
  List_ AccessRequest AppClient None.

Definition GetAccessRequestAsApp (name : string) : M (Result AccessRequest) :=
  Get AccessRequest AppClient "" name.

Definition DeleteAccessRequestAsApp (name : string) : M (option error) :=
  Delete AccessRequest AppClient "" name.

End K8s.

(* ===================================================================== *)
(** ** [internal/handlers]: the provisioning state machine *)
(* ===================================================================== *)

Module Handlers.
Import GoStrings K8s.

(** [webSocketPayload] *)
Module Payload.
Record t := Mk {
    Command : string;
    RequestID : string;
    SourceService : string;
    TargetService : string;
    Direction : string;
    Ports : string;
    Cidr : string;
    Service : string;
    Duration : Z;
    Name : string;
    Namespace : string;
    Description : string }.
End Payload.

(** [webSocketCommandProcessor]; its two closures are the functions
    [logAndBroadcast] and [sendError] below. *)
Record webSocketCommandProcessor := MkProcessor {
  idToken : string;
  userInfo : UserInfo;
  sanitizedUsername : string }.

(** [HandleWebSocket] derives the label-safe user name. *)
Definition sanitize (email : string) : string :=
  ReplaceAllByte (ReplaceAllByte email "@" "-") "." "-".

Definition logAndBroadcast (entry : LogEntry) : M unit := modify (broadcasted entry).

Definition sendError (msg : string) (err : option error) (logType : string) : M unit :=
  fullMsg ← match err with
            | Some e =>
                Logger.Error msg (Some e);;
                mret ("REQUEST FAILED: " ++ msg ++ " - " ++ text e)
            | None =>
                Logger.Warn msg;;
                mret ("REQUEST FAILED: " ++ msg)
            end;
  logAndBroadcast (MkEntry fullMsg "log-error" logType "applyResult");;
  logAndBroadcast (MkEntry "--- Request failed ---" "log-error" logType "applyComplete").

(** [shortHash]: the first twelve hex digits of the SHA-1 digest. *)
Definition shortHash (s : string) : string :=
  substring 0 12 (hexEncode (Sha1.sumString s)).

(** [uuid.New().String()] *)
Definition uuidNew : M string :=
  w ← getWorld;
  modify drewUUID;;
  mret (uuids (env w) (uuidCount w)).

Definition orPanic {A} (why : string) (o : option A) : M A :=
  match o with Some a => mret a | None => panic why end.

(** [hex.EncodeToString([]byte(id))[:8]] *)
Definition randSuffixOf (id : string) : M string :=
  orPanic "slice bounds out of range" (slice_to 8 (hexEncode id)).

(** The port-override loop, written four times in the source (inline in
    three handlers and as [getOverridePorts]). *)
Fixpoint overridePortsLoop (fields : list string) (overridePorts : list ServicePort)
  : Result (list ServicePort) :=
  match fields with
  | [] => Ok overridePorts
  | pStr :: rest =>
      let pStr := TrimSpace pStr in
      if String.eqb pStr "" then overridePortsLoop rest overridePorts
      else match Atoi pStr with
           | None => Err (NewError ("'" ++ pStr ++ "' is not a valid port number"))
           | Some port =>
               overridePortsLoop rest
                 (overridePorts ++ [MkPort ("port-" ++ Itoa port) "TCP" (int32 port)])
           end
  end.

Definition getOverridePorts (ports : string) : Result (list ServicePort) :=
  if negb (String.eqb ports "") then overridePortsLoop (Split ports ",") []
  else Ok [].

(** The recurring compensation step
    [if cleanupErr := ...; cleanupErr != nil && !k8s.IsNotFound(cleanupErr) { log }]. *)
Definition cleanup (del : M (option error)) (msg : string) : M unit :=
  cleanupErr ← del;
  match cleanupErr with
  | Some e => if negb (IsNotFound e) then Logger.Error msg (Some e) else mret tt
  | None => mret tt
  end.

Definition durationString (duration : Z) : string :=
  if 0 <? duration then Itoa duration ++ "s" else "".

Definition requestLabel (id : string) : gmap string string :=
  <[requestIDLabel := id]> ∅.

Definition accessLabels (user id : string) : gmap string string :=
  <[managedByLabel := "netwatch"]> (<[userLabel := user]> (<[requestIDLabel := id]> ∅)).

(** The [switch payload.Direction] of a full grant: (source, target). *)
Definition fullDirections (direction : string) : string * string :=
  if String.eqb direction "ingress" then ("ingress", "egress")
  else if String.eqb direction "egress" then ("egress", "ingress")
  else ("all", "all").

Definition successMessage (duration : Z) (durationStr : string) : string :=
  if 0 <? duration then
    "SUCCESS: Temporary access policies created for " ++ durationStr ++ "."
  else "SUCCESS: Infinite access policies created.".

Definition createClusterAccess (p : webSocketCommandProcessor) (userKubeClient : Client)
    (payload : Payload.t) : M unit :=
  match getOverridePorts (Payload.Ports payload) with
  | Err err => sendError "Invalid port override" (Some err) "Service"
  | Ok overridePorts =>
  match Split (Payload.SourceService payload) "/", Split (Payload.TargetService payload) "/" with
  | [sourceNs; sourceName], [targetNs; targetName] =>
    cloneID ← uuidNew;
    randSuffix ← randSuffixOf cloneID;
    let sourceCloneName := "nc-" ++ shortHash sourceName ++ "-" ++ randSuffix in
    let targetCloneName := "nc-" ++ shortHash targetName ++ "-" ++ randSuffix in
    let commonRequestLabel := requestLabel cloneID in
    r ← CloneService userKubeClient sourceNs sourceName sourceCloneName
          commonRequestLabel overridePorts;
    match r with
    | Err err =>
        sendError "Could not clone source service (check your permissions)" (Some err) "Service"
    | Ok sourceClone =>
    r ← CloneService userKubeClient targetNs targetName targetCloneName
          commonRequestLabel overridePorts;
    match r with
    | Err err =>
        sendError "Could not clone target service (check your permissions)" (Some err) "Service";;
        cleanup (DeleteService userKubeClient (Namespace (svcMeta sourceClone))
                   (Name (svcMeta sourceClone)))
                "Failed to cleanup partial service clone on approval"
    | Ok targetClone =>
    let durationStr := durationString (Payload.Duration payload) in
    let commonAccessLabels := accessLabels (sanitizedUsername p) cloneID in
    let '(sourceDirection, targetDirection) := fullDirections (Payload.Direction payload) in
    let sourceAccess :=
      MkAccess (newMeta ("access-" ++ sourceCloneName) sourceNs commonAccessLabels ∅)
        durationStr commonRequestLabel
        [MkPoint (Name (svcMeta targetClone)) (Namespace (svcMeta targetClone))]
        sourceDirection in
    let targetAccess :=
      MkAccess (newMeta ("access-" ++ targetCloneName) targetNs commonAccessLabels ∅)
        durationStr commonRequestLabel
        [MkPoint (Name (svcMeta sourceClone)) (Namespace (svcMeta sourceClone))]
        targetDirection in
    e ← CreateAccess userKubeClient sourceAccess;
    match e with
    | Some err =>
        sendError "Could not create source Access policy (check your permissions)"
                  (Some err) "Service";;
        cleanup (DeleteService userKubeClient (Namespace (svcMeta sourceClone))
                   (Name (svcMeta sourceClone)))
                "Failed to cleanup partial service clone on approval";;
        cleanup (DeleteService userKubeClient (Namespace (svcMeta targetClone))
                   (Name (svcMeta targetClone)))
                "Failed to cleanup partial service clone on approval"
    | None =>
    e ← CreateAccess userKubeClient targetAccess;
    match e with
    | Some err =>
        sendError "Could not create target Access policy (check your permissions)"
                  (Some err) "Service";;
        cleanup (DeleteService userKubeClient (Namespace (svcMeta sourceClone))
                   (Name (svcMeta sourceClone)))
                "Failed to cleanup source service clone";;
        cleanup (DeleteService userKubeClient (Namespace (svcMeta targetClone))
                   (Name (svcMeta targetClone)))
                "Failed to cleanup target service clone";;
        cleanup (DeleteAccess userKubeClient (Namespace (accMeta sourceAccess))
                   (Name (accMeta sourceAccess)))
                "Failed to cleanup source access object"
    | None =>
        let msg := successMessage (Payload.Duration payload) durationStr in
        Logger.Info "Successfully created temporary access package";;
        logAndBroadcast (MkEntry msg "log-success" "Service" "applyResult");;
        logAndBroadcast (MkEntry "--- Request complete ---" "log-success" "Service"
                                 "applyComplete")
    end end end end
  | _, _ =>
      sendError "Invalid service format" (Some (NewError "expected 'namespace/name'")) "Service"
  end end.

Definition directGrantPermissions (sourceNs targetNs : string) : list PermissionRequest :=
  [ MkPerm "create" "" "services" sourceNs;
    MkPerm "create" "" "services" targetNs;
    MkPerm "create" "maxtac.vtk.io" "accesses" sourceNs;
    MkPerm "create" "maxtac.vtk.io" "accesses" targetNs ].

(** [handleRequestClusterAccess]: after the permission gate the handler
    calls [createClusterAccess] and then runs the same sequence once
    more inline, under a second UUID and the [netwatch-clone-] names. *)
Definition handleRequestClusterAccess (p : webSocketCommandProcessor)
    (payload : Payload.t) : M unit :=
  Logger.Info "WebSocket command received";;
  match Split (Payload.SourceService payload) "/", Split (Payload.TargetService payload) "/" with
  | [sourceNs; sourceName], [targetNs; targetName] =>
    let requiredPerms := directGrantPermissions sourceNs targetNs in
    '(canCreate, err) ← CanPerformAllActions (userInfo p) requiredPerms;
    match err with
    | Some e => sendError "Could not verify permissions for creating access" (Some e) "Service"
    | None =>
    if negb canCreate then
      sendError "Permission denied. You lack the necessary permissions to create this access directly. Please use 'Submit for Review' instead."
                None "Service"
    else
    c ← GetImpersonatingKubeClient (idToken p);
    match c with
    | Err e => sendError "Could not create user-impersonating client" (Some e) "Service"
    | Ok userKubeClient =>
    createClusterAccess p userKubeClient payload;;
    match getOverridePorts (Payload.Ports payload) with
    | Err err => sendError "Invalid port override" (Some err) "Service"
    | Ok overridePorts =>
    cloneID ← uuidNew;
    randSuffix ← randSuffixOf cloneID;
    let sourceCloneName := "netwatch-clone-" ++ sourceName ++ "-" ++ randSuffix in
    let targetCloneName := "netwatch-clone-" ++ targetName ++ "-" ++ randSuffix in
    let commonRequestLabel := requestLabel cloneID in
    r ← CloneService userKubeClient sourceNs sourceName sourceCloneName
          commonRequestLabel overridePorts;
    match r with
    | Err err =>
        sendError "Could not clone source service (check your permissions)" (Some err) "Service"
    | Ok sourceClone =>
    r ← CloneService userKubeClient targetNs targetName targetCloneName
          commonRequestLabel overridePorts;
    match r with
    | Err err =>
        sendError "Could not clone target service (check your permissions)" (Some err) "Service";;
        cleanup (DeleteService userKubeClient (Namespace (svcMeta sourceClone))
                   (Name (svcMeta sourceClone)))
                "Failed to cleanup source service clone after target clone failed"
    | Ok targetClone =>
    let durationStr := durationString (Payload.Duration payload) in
    let commonAccessLabels := accessLabels (sanitizedUsername p) cloneID in
    let '(sourceDirection, targetDirection) := fullDirections (Payload.Direction payload) in
    let sourceAccess :=
      MkAccess (newMeta ("access-" ++ sourceCloneName) sourceNs commonAccessLabels ∅)
        durationStr commonRequestLabel
        [MkPoint (Name (svcMeta targetClone)) (Namespace (svcMeta targetClone))]
        sourceDirection in
    let targetAccess :=
      MkAccess (newMeta ("access-" ++ targetCloneName) targetNs commonAccessLabels ∅)
        durationStr commonRequestLabel
        [MkPoint (Name (svcMeta sourceClone)) (Namespace (svcMeta sourceClone))]
        targetDirection in
    e ← CreateAccess userKubeClient sourceAccess;
    match e with
    | Some err =>
        sendError "Could not create source Access policy (check your permissions)"
                  (Some err) "Service";;
        cleanup (DeleteService userKubeClient (Namespace (svcMeta sourceClone))
                   (Name (svcMeta sourceClone)))
                "Failed to cleanup source service clone";;
        cleanup (DeleteService userKubeClient (Namespace (svcMeta targetClone))
                   (Name (svcMeta targetClone)))
                "Failed to cleanup target service clone"
    | None =>
    e ← CreateAccess userKubeClient targetAccess;
    match e with
    | Some err =>
        sendError "Could not create target Access policy (check your permissions)"
                  (Some err) "Service";;
        cleanup (DeleteService userKubeClient (Namespace (svcMeta sourceClone))
                   (Name (svcMeta sourceClone)))
                "Failed to cleanup source service clone";;
        cleanup (DeleteService userKubeClient (Namespace (svcMeta targetClone))
                   (Name (svcMeta targetClone)))
                "Failed to cleanup target service clone";;
        cleanup (DeleteAccess userKubeClient (Namespace (accMeta sourceAccess))
                   (Name (accMeta sourceAccess)))
                "Failed to cleanup source access object"
    | None =>
        let msg := successMessage (Payload.Duration payload) durationStr in
        Logger.Info "Successfully created temporary access package";;
        logAndBroadcast (MkEntry msg "log-success" "Service" "applyResult");;
        logAndBroadcast (MkEntry "--- Request complete ---" "log-success" "Service"
                                 "applyComplete")
    end end end end end end end
  | _, _ =>
      sendError "Invalid service format" (Some (NewError "expected 'namespace/name'")) "Service"
  end.

(** The direction of a single-sided declaration, as the [if] chain of
    [createPartialAccess] and [approvePartialRequest]. *)
Definition partialDirection (direction : string) (isSource : bool) : string :=
  if (String.eqb direction "egress" && isSource)
     || (String.eqb direction "ingress" && negb isSource) then "egress"
  else if (String.eqb direction "ingress" && isSource)
          || (String.eqb direction "egress" && negb isSource) then "ingress"
  else "all".

Definition createPartialAccess (p : webSocketCommandProcessor) (userClient : Client)
    (localNs localName remoteNs remoteName reqID : string)
    (payload : Payload.t) (isSource : bool) : M (Result string) :=
  match getOverridePorts (Payload.Ports payload) with
  | Err err => mret (Err err)
  | Ok overridePorts =>
  randSuffix ← randSuffixOf reqID;
  let localCloneName := "nc-" ++ localName ++ "-" ++ randSuffix in
  let commonRequestLabel := requestLabel reqID in
  r ← CloneService userClient localNs localName localCloneName commonRequestLabel overridePorts;
  match r with
  | Err err => mret (Err (Errorf "could not clone local service: " err))
  | Ok _ =>
  let durationStr := Itoa (Payload.Duration payload) ++ "s" in
  let commonAccessLabels := accessLabels (sanitizedUsername p) reqID in
  let access :=
    MkAccess (newMeta ("access-" ++ localCloneName) localNs commonAccessLabels ∅)
      durationStr commonRequestLabel
      [MkPoint ("netwatch-clone-" ++ remoteName ++ "-" ++ randSuffix) remoteNs]
      (partialDirection (Payload.Direction payload) isSource) in
  e ← CreateAccess userClient access;
  match e with
  | Some err =>
      cleanup (DeleteService userClient localNs localCloneName)
              "Failed to cleanup partial service clone";;
      mret (Err (Errorf "could not create partial access policy: " err))
  | None => mret (Ok localCloneName)
  end end end.

Definition sidePermissions (ns : string) : list PermissionRequest :=
  [ MkPerm "create" "" "services" ns;
    MkPerm "create" "maxtac.vtk.io" "accesses" ns ].

Definition handleSubmitAccessRequest (p : webSocketCommandProcessor)
    (payload : Payload.t) : M unit :=
  Logger.Info "WebSocket command received";;
  c ← GetImpersonatingKubeClient (idToken p);
  match c with
  | Err e => sendError "Could not create user-impersonating client" (Some e) "Request"
  | Ok userKubeClient =>
  requestID ← uuidNew;
  prefix ← orPanic "slice bounds out of range" (slice_to 8 requestID);
  let requestCR (requestType status sourceClone targetClone : string) :=
    MkRequest (newMeta ("ar-" ++ sanitizedUsername p ++ "-" ++ prefix) "" ∅ ∅)
      (MkRequestSpec (Email (userInfo p)) requestType
         (Payload.SourceService payload) (Payload.TargetService payload)
         (Payload.Cidr payload) (Payload.Service payload) (Payload.Direction payload)
         (Payload.Ports payload) (Payload.Duration payload) (Payload.Description payload)
         status requestID sourceClone targetClone) in
  let submit (cr : AccessRequest) : M unit :=
    e ← CreateAccessRequestAsApp cr;
    match e with
    | Some err => sendError "Failed to submit AccessRequest" (Some err) "Request"
    | None =>
        logAndBroadcast
          (MkEntry "SUCCESS: Your access request has been submitted for review."
                   "log-success" "Request" "applyResult")
    end in
  if negb (String.eqb (Payload.TargetService payload) "") then
    (* Service-to-Service request *)
    match Split (Payload.SourceService payload) "/",
          Split (Payload.TargetService payload) "/" with
    | [sourceNs; sourceName], [targetNs; targetName] =>
      '(canSource, _) ← CanPerformAllActions (userInfo p) (sidePermissions sourceNs);
      '(canTarget, _) ← CanPerformAllActions (userInfo p) (sidePermissions targetNs);
      if canSource && canTarget then
        Logger.Info "User has full permissions but chose to submit for review. Creating full pending request.";;
        submit (requestCR "Service" "PendingFull" "" "")
      else if canSource then
        Logger.Info "User has source permissions. Creating partial request.";;
        r ← createPartialAccess p userKubeClient sourceNs sourceName targetNs targetName
              requestID payload true;
        match r with
        | Err err =>
            sendError "Failed to create the source-side of the access policy" (Some err) "Request"
        | Ok cloneName => submit (requestCR "Service" "PendingTarget" cloneName "")
        end
      else if canTarget then
        Logger.Info "User has target permissions. Creating partial request.";;
        r ← createPartialAccess p userKubeClient targetNs targetName sourceNs sourceName
              requestID payload false;
        match r with
        | Err err =>
            sendError "Failed to create the target-side of the access policy" (Some err) "Request"
        | Ok cloneName => submit (requestCR "Service" "PendingSource" "" cloneName)
        end
      else
        Logger.Info "User has no permissions. Creating full pending request.";;
        submit (requestCR "Service" "PendingFull" "" "")
    | _, _ => sendError "Invalid service format" None "Request"
    end
  else
    (* External Access request *)
    submit (requestCR "External" "PendingFull" "" "")
  end.

(** [parts[i]]: an index out of range panics. *)
Definition index (parts : list string) (i : nat) : M string :=
  orPanic "index out of range" (nth_error parts i).

(** [approveFullRequest]: both request types. *)
Definition approveFullRequest (p : webSocketCommandProcessor) (approverClient : Client)
    (request : AccessRequest) : M (option error) :=
  let spec := arSpec request in
  if String.eqb (RequestType spec) "Service" then
    let sourceParts := Split (SourceService spec) "/" in
    let targetParts := Split (TargetService spec) "/" in
    sourceNs ← index sourceParts 0; sourceName ← index sourceParts 1;
    targetNs ← index targetParts 0; targetName ← index targetParts 1;
    let cloneID := RequestID spec in
    randSuffix ← randSuffixOf cloneID;
    let sourceCloneName := "nc-" ++ shortHash sourceName ++ "-" ++ randSuffix in
    let targetCloneName := "nc-" ++ shortHash targetName ++ "-" ++ randSuffix in
    let commonRequestLabel := requestLabel cloneID in
    match getOverridePorts (PortsSpec spec) with
    | Err err => mret (Some err)
    | Ok overridePorts =>
    r ← CloneService approverClient sourceNs sourceName sourceCloneName
          commonRequestLabel overridePorts;
    match r with
    | Err err => mret (Some (Errorf "could not clone source service: " err))
    | Ok sourceClone =>
    r ← CloneService approverClient targetNs targetName targetCloneName
          commonRequestLabel overridePorts;
    match r with
    | Err err =>
        cleanup (DeleteService approverClient (Namespace (svcMeta sourceClone))
                   (Name (svcMeta sourceClone)))
                "Failed to cleanup source service clone";;
        mret (Some (Errorf "could not clone target service: " err))
    | Ok targetClone =>
    let durationStr := durationString (Duration spec) in
    let commonAccessLabels := accessLabels (sanitizedUsername p) cloneID in
    let '(sourceDirection, targetDirection) := fullDirections (Direction spec) in
    let sourceAccess :=
      MkAccess (newMeta ("access-" ++ sourceCloneName) sourceNs commonAccessLabels ∅)
        durationStr commonRequestLabel
        [MkPoint (Name (svcMeta targetClone)) (Namespace (svcMeta targetClone))]
        sourceDirection in
    let targetAccess :=
      MkAccess (newMeta ("access-" ++ targetCloneName) targetNs commonAccessLabels ∅)
        durationStr commonRequestLabel
        [MkPoint (Name (svcMeta sourceClone)) (Namespace (svcMeta sourceClone))]
        targetDirection in
    e ← CreateAccess approverClient sourceAccess;
    match e with
    | Some err =>
        cleanup (DeleteService approverClient (Namespace (svcMeta sourceClone))
                   (Name (svcMeta sourceClone)))
                "Failed to cleanup source service clone";;
        cleanup (DeleteService approverClient (Namespace (svcMeta targetClone))
                   (Name (svcMeta targetClone)))
                "Failed to cleanup target service clone";;
        mret (Some (Errorf "could not create source Access policy: " err))
    | None =>
    e ← CreateAccess approverClient targetAccess;
    match e with
    | Some err =>
        cleanup (DeleteService approverClient (Namespace (svcMeta sourceClone))
                   (Name (svcMeta sourceClone)))
                "Failed to cleanup source service clone";;
        cleanup (DeleteService approverClient (Namespace (svcMeta targetClone))
                   (Name (svcMeta targetClone)))
                "Failed to cleanup target service clone";;
        cleanup (DeleteAccess approverClient (Namespace (accMeta sourceAccess))
                   (Name (accMeta sourceAccess)))
                "Failed to cleanup source access object";;
        mret (Some (Errorf "could not create target Access policy: " err))
    | None => mret None
    end end end end end
  else if String.eqb (RequestType spec) "External" then
    let serviceParts := Split (Service_ spec) "/" in
    serviceNs ← index serviceParts 0; serviceName ← index serviceParts 1;
    let cloneID := RequestID spec in
    randSuffix ← randSuffixOf cloneID;
    let cloneName := "nc-" ++ shortHash serviceName ++ "-" ++ randSuffix in
    let cloneLabel := requestLabel cloneID in
    match getOverridePorts (PortsSpec spec) with
    | Err err => mret (Some err)
    | Ok overridePorts =>
    r ← CloneService approverClient serviceNs serviceName cloneName cloneLabel overridePorts;
    match r with
    | Err err => mret (Some (Errorf "could not clone service: " err))
    | Ok _ =>
    let durationStr := durationString (Duration spec) in
    let commonAccessLabels := accessLabels (sanitizedUsername p) cloneID in
    let ea :=
      MkExternalAccess (newMeta ("ea-" ++ cloneName) serviceNs commonAccessLabels ∅)
        [Cidr spec] (Direction spec) durationStr cloneLabel in
    e ← CreateExternalAccess approverClient ea;
    match e with
    | Some err =>
        cleanup (DeleteService approverClient serviceNs cloneName)
                "Failed to cleanup service clone after ExternalAccess failed";;
        mret (Some (Errorf "could not create ExternalAccess policy: " err))
    | None => mret None
    end end end
  else mret None.

Definition approvePartialRequest (p : webSocketCommandProcessor) (approverClient : Client)
    (request : AccessRequest) (approvingSourceSide : bool) : M (option error) :=
  let spec := arSpec request in
  let sourceParts := Split (SourceService spec) "/" in
  let targetParts := Split (TargetService spec) "/" in
  '(localNs, localName, remoteNs, existingCloneName) ←
    (if approvingSourceSide then
       localNs ← index sourceParts 0; localName ← index sourceParts 1;
       remoteNs ← index targetParts 0;
       mret (localNs, localName, remoteNs, TargetCloneName spec)
     else
       localNs ← index targetParts 0; localName ← index targetParts 1;
       remoteNs ← index sourceParts 0;
       mret (localNs, localName, remoteNs, SourceCloneName spec));
  match getOverridePorts (PortsSpec spec) with
  | Err err => mret (Some err)
  | Ok overridePorts =>
  randSuffix ← randSuffixOf (RequestID spec);
  let localCloneName := "nc-" ++ localName ++ "-" ++ randSuffix in
  let commonRequestLabel := requestLabel (RequestID spec) in
  r ← CloneService approverClient localNs localName localCloneName
        commonRequestLabel overridePorts;
  match r with
  | Err err => mret (Some (Errorf "could not clone missing service: " err))
  | Ok _ =>
  let durationStr := Itoa (Duration spec) ++ "s" in
  let commonAccessLabels := accessLabels (sanitizedUsername p) (RequestID spec) in
  let isSource := String.eqb (Status spec) "PendingSource" in
  let access :=
    MkAccess (newMeta ("access-" ++ localCloneName) localNs commonAccessLabels ∅)
      durationStr commonRequestLabel
      [MkPoint existingCloneName remoteNs]
      (partialDirection (Direction spec) isSource) in
  e ← CreateAccess approverClient access;
  match e with
  | Some err =>
      cleanup (DeleteService approverClient localNs localCloneName)
              "Failed to cleanup partial service clone on approval";;
      mret (Some (Errorf "could not create missing access policy: " err))
  | None => mret None
  end end end.

Definition handleApproveAccessRequest (p : webSocketCommandProcessor)
    (payload : Payload.t) : M unit :=
  Logger.Info "WebSocket command received";;
  r ← GetAccessRequestAsApp (Payload.RequestID payload);
  match r with
  | Err err => sendError "Could not find pending request to approve" (Some err) "Request"
  | Ok request =>
  c ← GetImpersonatingKubeClient (idToken p);
  match c with
  | Err err => sendError "Could not create approver's impersonating client" (Some err) "Request"
  | Ok approverKubeClient =>
  let status := Status (arSpec request) in
  let finish : M unit :=
    e ← DeleteAccessRequestAsApp (Payload.RequestID payload);
    match e with
    | Some err => Logger.Error "Failed to delete approved AccessRequest CR" (Some err)
    | None => mret tt
    end;;
    logAndBroadcast
      (MkEntry ("SUCCESS: Request from " ++ Requestor (arSpec request) ++ " approved by "
                  ++ Email (userInfo p) ++ ".")
               "log-success" (RequestType (arSpec request)) "applyResult");;
    logAndBroadcast
      (MkEntry "--- Request complete ---" "log-success" (RequestType (arSpec request))
               "applyComplete") in
  if String.eqb status "PendingFull" then
    Logger.Info "Approving a full request";;
    e ← approveFullRequest p approverKubeClient request;
    match e with
    | Some err => sendError "Failed to approve full request" (Some err) "Request"
    | None => finish
    end
  else if String.eqb status "PendingTarget" then
    Logger.Info "Approving target half of a partial request";;
    e ← approvePartialRequest p approverKubeClient request false;
    match e with
    | Some err => sendError "Failed to approve target-side of the request" (Some err) "Request"
    | None => finish
    end
  else if String.eqb status "PendingSource" then
    Logger.Info "Approving source half of a partial request";;
    e ← approvePartialRequest p approverKubeClient request true;
    match e with
    | Some err => sendError "Failed to approve source-side of the request" (Some err) "Request"
    | None => finish
    end
  else
    sendError "Request is in an unknown or invalid state"
              (Some (NewError ("status: " ++ status))) "Request"
  end end.

Definition handleDenyAccessRequest (p : webSocketCommandProcessor)
    (payload : Payload.t) : M unit :=
  Logger.Info "WebSocket command received";;
  r ← GetAccessRequestAsApp (Payload.RequestID payload);
  match r with
  | Err err => sendError "Could not find pending request to deny/abort" (Some err) "Request"
  | Ok request =>
  let spec := arSpec request in
  let isOwner := String.eqb (Email (userInfo p)) (Requestor spec) in
  (* [None]: the handler has already returned. *)
  gate ← (if isOwner then
            mret (Some (true, "Request from " ++ Requestor spec
                                ++ " was aborted by the owner."))
          else
            '(canDeny, err) ← CanPerformAction (userInfo p) "delete" "netwatch.vtk.io"
                                "accessrequests" "" (Name (arMeta request));
            match err with
            | Some e =>
                sendError "Could not verify permissions for denying the request"
                          (Some e) "Request";;
                mret None
            | None =>
                if negb canDeny then
                  sendError "Permission denied. You are not the request owner and lack permissions to deny this request."
                            None "Request";;
                  mret None
                else
                  mret (Some (true, "Request from " ++ Requestor spec ++ " denied by "
                                      ++ Email (userInfo p) ++ "."))
            end);
  match gate with
  | None => mret tt
  | Some (canProceed, logMessage) =>
  if negb canProceed then sendError "Authorization check failed." None "Request"
  else
  c ← GetImpersonatingKubeClient (idToken p);
  match c with
  | Err err => sendError "Could not create impersonating client for cleanup" (Some err) "Request"
  | Ok userKubeClient =>
  (if String.eqb (Status spec) "PendingTarget" || String.eqb (Status spec) "PendingSource" then
     Logger.Info "Denying/aborting a partial request, cleaning up created resources";;
     let '(cloneNameToDelete, namespaceToDelete) :=
       if String.eqb (Status spec) "PendingTarget" then
         (SourceCloneName spec, hd "" (Split (SourceService spec) "/"))
       else (* PendingSource *)
         (TargetCloneName spec, hd "" (Split (TargetService spec) "/")) in
     let accessNameToDelete := "access-" ++ cloneNameToDelete in
     Logger.Info "Deleting orphaned Access object";;
     e ← DeleteAccess userKubeClient namespaceToDelete accessNameToDelete;
     match e with
     | Some err =>
         if negb (IsNotFound err) then
           sendError "Failed to clean up orphaned Access object. Manual cleanup may be required."
                     (Some err) "Request"
         else mret tt
     | None => mret tt
     end
   else mret tt);;
  e ← DeleteAccessRequestAsApp (Payload.RequestID payload);
  match e with
  | Some err => sendError "Failed to delete the AccessRequest resource" (Some err) "Request"
  | None => logAndBroadcast (MkEntry logMessage "log-warning" "Request" "applyResult")
  end
  end end end.

(** *** Direct creation of an external grant *)

Section ExternalGrant.

(** [net.ParseCIDR] and [net.ParseIP] are given: whether the one returns
    no error, and whether the other returns an address. *)
Variable ParseCIDR : string -> bool.
Variable ParseIP : string -> bool.

Definition externalGrantPermissions (serviceNs : string) : list PermissionRequest :=
  [ MkPerm "create" "" "services" serviceNs;
    MkPerm "create" "maxtac.vtk.io" "externalaccesses" serviceNs ].

Definition handleRequestExternalAccess (p : webSocketCommandProcessor)
    (payload : Payload.t) : M unit :=
  Logger.Info "WebSocket command received";;
  match Split (Payload.Service payload) "/" with
  | [serviceNs; serviceName] =>
    let requiredPerms := externalGrantPermissions serviceNs in
    '(canCreate, err) ← CanPerformAllActions (userInfo p) requiredPerms;
    match err with
    | Some e =>
        sendError "Could not verify permissions for creating external access" (Some e) "External"
    | None =>
    if negb canCreate then
      sendError "Permission denied. You lack the necessary permissions to create this external access directly. Please use 'Submit for Review' instead."
                None "External"
    else
    c ← GetImpersonatingKubeClient (idToken p);
    match c with
    | Err e => sendError "Could not create user-impersonating client" (Some e) "External"
    | Ok userKubeClient =>
    match getOverridePorts (Payload.Ports payload) with
    | Err err => sendError "Invalid port override" (Some err) "External"
    | Ok overridePorts =>
    let trimmedCIDR := TrimSpace (Payload.Cidr payload) in
    if negb (ParseCIDR trimmedCIDR) && negb (ParseIP trimmedCIDR) then
      sendError "Invalid Source IP / CIDR"
                (Some (NewError ("'" ++ Payload.Cidr payload
                                   ++ "' is not a valid IP address or CIDR block")))
                "External"
    else
    let durationStr := durationString (Payload.Duration payload) in
    cloneID ← uuidNew;
    randSuffix ← randSuffixOf cloneID;
    let cloneName := "nc-" ++ shortHash serviceName ++ "-" ++ randSuffix in
    let cloneLabel := requestLabel cloneID in
    r ← CloneService userKubeClient serviceNs serviceName cloneName cloneLabel overridePorts;
    match r with
    | Err err => sendError "Could not clone service for external access" (Some err) "External"
    | Ok _ =>
    let ea :=
      MkExternalAccess
        (newMeta ("ea-" ++ cloneName) serviceNs (accessLabels (sanitizedUsername p) cloneID) ∅)
        [Payload.Cidr payload] (Payload.Direction payload) durationStr cloneLabel in
    e ← CreateExternalAccess userKubeClient ea;
    match e with
    | Some err =>
        sendError "Could not create ExternalAccess policy" (Some err) "External";;
        cleanup (DeleteService userKubeClient serviceNs cloneName)
                "Failed to cleanup service clone"
    | None =>
        logAndBroadcast (MkEntry "SUCCESS: ExternalAccess policy request sent." "log-success"
                                 "External" "applyResult");;
        logAndBroadcast (MkEntry "--- Request complete ---" "log-success" "External"
                                 "applyComplete")
    end end end end end
  | _ => sendError "Invalid service format for External Access" None "External"
  end.

End ExternalGrant.

(** *** Revocation *)

(** The loop of [handleRevokeClusterAccess] over the listed objects;
    [%v] prints the error's text. *)
Fixpoint deleteListed (userKubeClient : Client) (items : list Access)
    (deletionErrors : list string) : M (list string) :=
  match items with
  | [] => mret deletionErrors
  | accessToDelete :: rest =>
      e ← DeleteAccess userKubeClient (Namespace (accMeta accessToDelete))
            (Name (accMeta accessToDelete));
      let deletionErrors :=
        match e with
        | Some err =>
            if negb (IsNotFound err) then
              (deletionErrors
                 ++ [("failed to delete " ++ Namespace (accMeta accessToDelete) ++ "/"
                        ++ Name (accMeta accessToDelete) ++ ": " ++ text err)%string])%list
            else deletionErrors
        | None => deletionErrors
        end in
      deleteListed userKubeClient rest deletionErrors
  end.

Definition handleRevokeClusterAccess (p : webSocketCommandProcessor)
    (payload : Payload.t) : M unit :=
  Logger.Info "WebSocket command received";;
  c ← GetImpersonatingKubeClient (idToken p);
  match c with
  | Err e =>
      sendError "Could not create user-impersonating client for revocation" (Some e) "Service"
  | Ok userKubeClient =>
  r ← GetAccessAsUser userKubeClient (Payload.Namespace payload) (Payload.Name payload);
  match r with
  | Err err =>
      sendError "Could not find the specified access policy. It may have already been revoked."
                (Some err) "Service"
  | Ok access =>
  match Labels (accMeta access) !! requestIDLabel with
  | None =>
      sendError "Could not revoke access pair: request-id label is missing." None "Service"
  | Some reqID =>
  r ← ListAllAccessesWithLabelAsApp reqID;
  match r with
  | Err err =>
      sendError "Failed to find the full access policy pair for deletion." (Some err) "Service"
  | Ok accessesToDelete =>
  (if (length accessesToDelete =? 0)%nat then
     Logger.Warn "Found request-id but no Access objects to delete, maybe already cleaned up?"
   else mret tt);;
  deletionErrors ← deleteListed userKubeClient accessesToDelete [];
  if (0 <? length deletionErrors)%nat then
    sendError "Encountered errors while deleting the access pair"
              (Some (NewError (Join deletionErrors "; "))) "Service"
  else
    logAndBroadcast
      (MkEntry ("SUCCESS: Revocation initiated for access policies with request-id '"
                  ++ reqID ++ "'.")
               "log-success" "Service" "applyResult")
  end end end end.

Definition handleRevokeExternalAccess (p : webSocketCommandProcessor)
    (payload : Payload.t) : M unit :=
  Logger.Info "WebSocket command received";;
  c ← GetImpersonatingKubeClient (idToken p);
  match c with
  | Err e =>
      sendError "Could not create user-impersonating client for revocation" (Some e) "External"
  | Ok userKubeClient =>
  e ← DeleteExternalAccess userKubeClient (Payload.Namespace payload) (Payload.Name payload);
  match e with
  | Some err =>
      sendError "Could not delete the specified external access policy." (Some err) "External"
  | None =>
      logAndBroadcast
        (MkEntry ("SUCCESS: ExternalAccess policy '" ++ Payload.Name payload
                    ++ "' has been marked for deletion. The controller will clean up its resources.")
                 "log-success" "External" "applyResult")
  end end.

End Handlers.

(* ===================================================================== *)
(** ** [internal/controller]: the cleanup reconciler *)
(* ===================================================================== *)

Module Controller.
Import GoStrings K8s.

Definition accessFinalizerName : string := "netwatch.vtk.io/access-cleanup-finalizer".
Definition accessRequestFinalizerName : string := "netwatch.vtk.io/request-cleanup-finalizer".

(** [controllerutil]: finalizer helpers on a local copy of the object. *)
Definition withFinalizers (fs : list string) (m : ObjectMeta) : ObjectMeta :=
  MkMeta (Name m) (Namespace m) (Labels m) (Annotations m) fs
         (CreationTimestamp m) (DeletionTimestamp m).

Definition ContainsFinalizer `{Object T} (o : T) (finalizer : string) : bool :=
  existsb (String.eqb finalizer) (Finalizers (meta o)).

Definition AddFinalizer `{Object T} (o : T) (finalizer : string) : T :=
  if ContainsFinalizer o finalizer then o
  else setMeta (withFinalizers (Finalizers (meta o) ++ [finalizer]) (meta o)) o.

Definition RemoveFinalizer `{Object T} (o : T) (finalizer : string) : T :=
  setMeta (withFinalizers
             (List.filter (fun f => negb (String.eqb f finalizer)) (Finalizers (meta o)))
             (meta o)) o.

(** [DeletionTimestamp.IsZero()] *)
Definition notBeingDeleted (m : ObjectMeta) : bool :=
  match DeletionTimestamp m with None => true | Some _ => false end.

Definition isPartial (status : string) : bool :=
  String.eqb status "PendingTarget" || String.eqb status "PendingSource".

(** The clone name and namespace of the side a partial request owns. *)
Definition ownedSide (spec : AccessRequestSpec) : string * string :=
  if String.eqb (Status spec) "PendingTarget" then
    (SourceCloneName spec, hd "" (Split (SourceService spec) "/"))
  else (* PendingSource *)
    (TargetCloneName spec, hd "" (Split (TargetService spec) "/")).

Definition cleanupPartialAccess (request : AccessRequest) : M (option error) :=
  let spec := arSpec request in
  if negb (isPartial (Status spec)) then mret None
  else
    Logger.Info "AccessRequest is being deleted, cleaning up associated partial access...";;
    let '(cloneName, namespace) := ownedSide spec in
    if String.eqb cloneName "" || String.eqb namespace "" then
      Logger.Warn "Partial AccessRequest is missing clone name or namespace, cannot clean up.";;
      mret None
    else
      let accessNameToDelete := "access-" ++ cloneName in
      Logger.Info "Deleting associated partial Access object";;
      e ← Delete Access ReconcilerClient namespace accessNameToDelete;
      match e with
      | Some err =>
          if negb (IsNotFound err) then
            mret (Some (Errorf "failed to delete partial access object: " err))
          else mret None
      | None => mret None
      end.

Definition reconcileAccessRequest (request : AccessRequest) : M (option error) :=
  let orphanCheck (request : AccessRequest) : M (option error) :=
    let spec := arSpec request in
    if negb (isPartial (Status spec)) then mret None
    else
      let '(cloneName, namespace) := ownedSide spec in
      let accessName := "access-" ++ cloneName in
      r ← Get Access ReconcilerClient namespace accessName;
      match r with
      | Err err =>
          if IsNotFound err then
            Logger.Info "Orphaned partial access request found (Access object missing), cleaning up...";;
            e ← Delete AccessRequest ReconcilerClient
                  (Namespace (arMeta request)) (Name (arMeta request));
            match e with
            | Some err =>
                Logger.Error "Failed to delete orphaned AccessRequest" (Some err);;
                mret (Some err)
            | None =>
                Logger.Info "Successfully deleted orphaned AccessRequest.";;
                mret None
            end
          else
            Logger.Error "Failed to check for orphaned access request" (Some err);;
            mret (Some err)
      | Ok _ => mret None
      end in
  if notBeingDeleted (arMeta request) then
    if negb (ContainsFinalizer request accessRequestFinalizerName) then
      let request := AddFinalizer request accessRequestFinalizerName in
      e ← Update ReconcilerClient request;
      match e with
      | Some err => mret (Some err)
      | None => orphanCheck request
      end
    else orphanCheck request
  else
    if ContainsFinalizer request accessRequestFinalizerName then
      e ← cleanupPartialAccess request;
      match e with
      | Some err =>
          Logger.Error "Failed during partial access cleanup, will retry" (Some err);;
          mret (Some err)
      | None =>
          let request := RemoveFinalizer request accessRequestFinalizerName in
          e ← Update ReconcilerClient request;
          match e with
          | Some err => mret (Some err)
          | None => mret None
          end
      end
    else mret None.

(** The loop of [deleteClonedServices] over the listed clones. *)
Fixpoint deleteEach (serviceClones : list Service) : M unit :=
  match serviceClones with
  | [] => mret tt
  | service :: rest =>
      Logger.Info "Deleting associated service clone";;
      e ← Delete Service ReconcilerClient (Namespace (svcMeta service))
            (Name (svcMeta service));
      match e with
      | Some err =>
          if negb (IsNotFound err) then Logger.Error "failed to delete service clone" (Some err)
          else mret tt
      | None => mret tt
      end;;
      deleteEach rest
  end.

Definition deleteClonedServices (reqID : string) : M (option error) :=
  r ← List_ Service ReconcilerClient (Some (requestIDLabel, reqID));
  match r with
  | Err err => mret (Some (Errorf "failed to list service clones for cleanup: " err))
  | Ok serviceClones => deleteEach serviceClones;; mret None
  end.

Definition reconcileAccessFinalizer `{Object T} (obj : T) : M (option error) :=
  if notBeingDeleted (meta obj) then
    if negb (ContainsFinalizer obj accessFinalizerName) then
      let obj := AddFinalizer obj accessFinalizerName in
      e ← Update ReconcilerClient obj;
      match e with
      | Some err => Logger.Error "failed to add finalizer" (Some err);; mret (Some err)
      | None => Logger.Info "Finalizer added to resource.";; mret None
      end
    else mret None
  else
    if ContainsFinalizer obj accessFinalizerName then
      Logger.Info "Resource is being deleted, running cleanup...";;
      failed ← match Labels (meta obj) !! requestIDLabel with
               | None =>
                   Logger.Warn "Resource is missing request-id label, cannot perform cleanup.";;
                   mret None
               | Some reqID =>
                   e ← deleteClonedServices reqID;
                   match e with
                   | Some err =>
                       Logger.Error "cleanup failed during service deletion" (Some err);;
                       mret (Some err)
                   | None => mret None
                   end
               end;
      match failed with
      | Some err => mret (Some err)
      | None =>
          let obj := RemoveFinalizer obj accessFinalizerName in
          e ← Update ReconcilerClient obj;
          match e with
          | Some err =>
              if IsNotFound err then
                Logger.Info "Resource not found after cleanup, assuming it was already deleted.";;
                mret None
              else
                Logger.Error "Failed to remove finalizer, will retry." (Some err);;
                mret (Some err)
          | None => Logger.Info "Cleanup successful, finalizer removed.";; mret None
          end
      end
    else mret None.

(** [Reconcile]: the request names an AccessRequest, an Access or an
    ExternalAccess, tried in this order.  The AccessRequest kind is
    cluster-scoped: the client leaves the namespace of the key out of the
    lookup, so the first read goes by the name alone. *)
Definition Reconcile (namespace name : string) : M (option error) :=
  r ← Get AccessRequest ReconcilerClient "" name;
  match r with
  | Ok accessRequest => reconcileAccessRequest accessRequest
  | Err err =>
    if negb (IsNotFound err) then
      Logger.Error "failed to get AccessRequest resource" (Some err);; mret (Some err)
    else
    r ← Get Access ReconcilerClient namespace name;
    match r with
    | Ok access => reconcileAccessFinalizer access
    | Err err =>
      if negb (IsNotFound err) then
        Logger.Error "failed to get Access resource" (Some err);; mret (Some err)
      else
      r ← Get ExternalAccess ReconcilerClient namespace name;
      match r with
      | Ok extAccess => reconcileAccessFinalizer extAccess
      | Err err =>
        if negb (IsNotFound err) then
          Logger.Error "failed to get ExternalAccess resource" (Some err);; mret (Some err)
        else mret None
      end
    end
  end.

End Controller.

(* ===================================================================== *)
(** ** [internal/handlers/api_handlers.go]: the read-model aggregator *)
(* ===================================================================== *)

Module ReadModel.
Import GoStrings K8s Handlers.

(** [ActiveAccessInfo] *)
Module Info.
Record t := Mk {
    Type_ : string;
    Name : string;
    Namespace : string;
    Source : string;
    Target : string;
    ExpiresAt : Z;
    Direction : string;
    Ports : string;
    Status : string }.
End Info.

Section Aggregator.

  (** [time.ParseDuration], in nanoseconds; [None] is its error. *)
Variable ParseDuration : string -> option Z.

  (** [expiresAt]: -1 unless the duration is set and parses. *)
Definition expiry (duration : string) (created : Z) : Z :=
    if negb (String.eqb duration "") then
      match ParseDuration duration with
      | Some d => (created * 10 ^ 9 + d) / 10 ^ 9
      | None => -1
      end
    else -1.

  (** The grouping loop: [clonesByReqID[reqID] = append(clonesByReqID[reqID], svc)]. *)
Definition groupClones (items : list Service) : gmap string (list Service) :=
    foldl (fun clonesByReqID svc =>
             match Labels (svcMeta svc) !! requestIDLabel with
             | Some reqID =>
                 <[reqID := (default [] (clonesByReqID !! reqID) ++ [svc])%list]> clonesByReqID
             | None => clonesByReqID
             end) ∅ items.

Definition annotation (svc : Service) (key : string) : string :=
    default "" (Annotations (svcMeta svc) !! key).

Definition firstTarget (access : Access) : M AccessPoint :=
    orPanic "index out of range" (nth_error (accTargets access) 0).

Definition sameClone (t : AccessPoint) (clone : Service) : bool :=
    String.eqb (ServiceName t) (Name (svcMeta clone))
    && String.eqb (PointNamespace t) (Namespace (svcMeta clone)).

  (** The body of the loop over the listed Access objects. *)
Definition processAccess (clonesByReqID : gmap string (list Service))
      (processedAccesses : gmap string Info.t) (access : Access)
    : M (gmap string Info.t) :=
    match Labels (accMeta access) !! requestIDLabel with
    | None => mret processedAccesses
    | Some reqID =>
      let clones := default [] (clonesByReqID !! reqID) in
      if (length clones =? 0)%nat then
        Logger.Warn "Found Access object with no corresponding Service clones, skipping display.";;
        mret processedAccesses
      else
      let expiresAt := expiry (accDuration access) (CreationTimestamp (accMeta access)) in
      let info status source target ports :=
        Info.Mk "Service" (Name (accMeta access)) (Namespace (accMeta access))
                source target expiresAt (accDirection access) ports status in
      match clones with
      | [clone1; clone2] =>
          (* This is a complete pair. *)
          t ← firstTarget access;
          let row :=
            if sameClone t clone1 then
              info "Active" (annotation clone2 clonedFrom) (annotation clone1 clonedFrom)
                   (annotation clone2 portsAnnotation)
            else if sameClone t clone2 then
              info "Active" (annotation clone1 clonedFrom) (annotation clone2 clonedFrom)
                   (annotation clone1 portsAnnotation)
            else info "Active" "" "" "" in
          mret (<[reqID := row]> processedAccesses)
      | [clone] =>
          (* This is a partial (pending) access. *)
          t ← firstTarget access;
          suffix ← randSuffixOf reqID;
          let targetSvcString :=
            PointNamespace t ++ "/"
              ++ ReplaceFirstWithEmpty
                   (ReplaceFirstWithEmpty (ServiceName t) "netwatch-clone-")
                   ("-" ++ suffix) in
          mret (<[reqID := info "Pending" (annotation clone clonedFrom)
                             (targetSvcString ++ " (Pending Approval)")
                             (annotation clone portsAnnotation)]> processedAccesses)
      | _ =>
          Logger.Warn "Found Access object with an inconsistent number of clones, skipping display.";;
          mret processedAccesses
      end
    end.

Fixpoint processAccesses (clonesByReqID : gmap string (list Service))
      (processedAccesses : gmap string Info.t) (items : list Access)
    : M (gmap string Info.t) :=
    match items with
    | [] => mret processedAccesses
    | access :: rest =>
        processed ← processAccess clonesByReqID processedAccesses access;
        processAccesses clonesByReqID processed rest
    end.

Definition externalRow (clonesByReqID : gmap string (list Service))
      (access : ExternalAccess) : Info.t :=
    let expiresAt := expiry (eaDuration access) (CreationTimestamp (eaMeta access)) in
    let '(targetInfo, portsInfo) :=
      match Labels (eaMeta access) !! requestIDLabel with
      | Some reqID =>
          match clonesByReqID !! reqID with
          | Some [clone] => (annotation clone clonedFrom, annotation clone portsAnnotation)
          | _ => (Namespace (eaMeta access) ++ "/* (label)", "All")
          end
      | None => (Namespace (eaMeta access) ++ "/* (label)", "All")
      end in
    Info.Mk "External" (Name (eaMeta access)) (Namespace (eaMeta access))
            (Join (eaTargetCIDRs access) ", ") targetInfo expiresAt
            (eaDirection access) portsInfo "Active".

  (** The comparison given to [sort.Slice]: rows without expiry last. *)
Definition less (a b : Info.t) : bool :=
    if Info.ExpiresAt a =? -1 then false
    else if Info.ExpiresAt b =? -1 then true
    else Info.ExpiresAt a <? Info.ExpiresAt b.

Fixpoint insertSorted (x : Info.t) (l : list Info.t) : list Info.t :=
    match l with
    | [] => [x]
    | y :: rest => if less y x then y :: insertSorted x rest else x :: l
    end.

  (** [sort.Slice] (the order among rows that compare equal is not
      fixed by Go; an insertion sort stands for it). *)
Definition sortInfos (l : list Info.t) : list Info.t := foldr insertSorted [] l.

  (** [GetActiveAccesses]: the rows of the JSON response. *)
Definition GetActiveAccesses : M (list Info.t) :=
    r ← ListAllServices;
    match r with
    | Err err =>
        Logger.Error "Failed to list services for active access list" (Some err);;
        mret []
    | Ok allServices =>
      let clonesByReqID := groupClones allServices in
      r ← ListNetwatchAccesses;
      infos ← match r with
              | Err err => Logger.Error "Failed to list active service accesses" (Some err);;
                           mret []
              | Ok accessList =>
                  processedAccesses ← processAccesses clonesByReqID ∅ accessList;
                  mret (map snd (map_to_list processedAccesses))
              end;
      r ← ListNetwatchExternalAccesses;
      infos ← match r with
              | Err err => Logger.Error "Failed to list active external accesses" (Some err);;
                           mret infos
              | Ok extList => mret (infos ++ map (externalRow clonesByReqID) extList)%list
              end;
      mret (sortInfos infos)
    end.

End Aggregator.

(** [ServiceInfo] *)
Module ServiceInfo.
Record t := Mk {
    Name : string;
    Namespace : string;
    Compound : string;
    Labels : gmap string string }.
End ServiceInfo.

(** The answers of the JSON handlers that can fail: 200 with the body,
    or 500 with the message of its error object. *)
Inductive Response (A : Type) :=
| StatusOK (body : A)
| StatusInternalServerError (message : string).
Arguments StatusOK {A} body.
Arguments StatusInternalServerError {A} message.

(** The filter loop of [GetServices]. *)
Definition usableServices (items : list Service) : list ServiceInfo.t :=
  foldl (fun serviceInfos svc =>
           if String.eqb (Namespace (svcMeta svc)) "kube-system"
              || HasPrefix (Name (svcMeta svc)) "netwatch-clone-"
           then serviceInfos
           else (serviceInfos
                   ++ [ServiceInfo.Mk (Name (svcMeta svc)) (Namespace (svcMeta svc))
                         (Namespace (svcMeta svc) ++ "/" ++ Name (svcMeta svc))%string
                         (Labels (svcMeta svc))])%list)
        [] items.

Fixpoint insertByCompound (x : ServiceInfo.t) (l : list ServiceInfo.t) : list ServiceInfo.t :=
  match l with
  | [] => [x]
  | y :: rest =>
      if String.ltb (ServiceInfo.Compound x) (ServiceInfo.Compound y) then x :: l
      else y :: insertByCompound x rest
  end.

(** [sort.Slice] by [Compound], Go's byte-wise [<] on strings (an
    insertion sort stands for it, as in [sortInfos]). *)
Definition sortByCompound (l : list ServiceInfo.t) : list ServiceInfo.t :=
  foldr insertByCompound [] l.

(** [GetServices]: the services offered for selection. *)
Definition GetServices : M (Response (list ServiceInfo.t)) :=
  r ← ListAllServices;
  match r with
  | Err err =>
      Logger.Error "Failed to list services" (Some err);;
      mret (StatusInternalServerError "Failed to retrieve services from cluster")
  | Ok serviceList => mret (StatusOK (sortByCompound (usableServices serviceList)))
  end.

End ReadModel.

(* ===================================================================== *)
(** ** Vocabulary of the properties *)
(* ===================================================================== *)

Module Spec.
Import GoStrings K8s Handlers Controller ReadModel.

(** Two worlds that differ at most in the clock and the trace. *)
Definition agree (w1 w2 : World) : Prop :=
  env w1 = env w2 /\ services w1 = services w2 /\ accesses w1 = accesses w2 /\
  externalAccesses w1 = externalAccesses w2 /\ accessRequests w1 = accessRequests w2 /\
  uuidCount w1 = uuidCount w2 /\ broadcast w1 = broadcast w2 /\ slog w1 = slog w2.

(** Agreement up to the diagnostic log as well. *)
Definition agreeButLog (w1 w2 : World) : Prop :=
  env w1 = env w2 /\ services w1 = services w2 /\ accesses w1 = accesses w2 /\
  externalAccesses w1 = externalAccesses w2 /\ accessRequests w1 = accessRequests w2 /\
  uuidCount w1 = uuidCount w2 /\ broadcast w1 = broadcast w2.

(** The laws of a resource kind's store accessors. *)
Class Lawful (T : Type) `{Object T} := {
  setStore_trace : forall m w, trace (setStore m w) = trace w;
  setStore_slog : forall m w, slog (setStore m w) = slog w;
  setStore_id : forall w, agree (setStore (store w) w) w;
  store_setStore : forall m w, store (setStore m w) = m;
  store_agree : forall w w', agreeButLog w w' -> store w = store w';
  meta_setMeta : forall m (o : T), meta (setMeta m o) = m }.

(** The store after a delete that reached it. *)
Definition deleted `{Object T} (now : Z) (k : string * string)
    (m : gmap (string * string) T) : gmap (string * string) T :=
  match m !! k with
  | Some o => afterDelete now k o m
  | None => m
  end.

(** Compensation failures are the error lines whose message starts with
    "Failed to cleanup". *)
Definition isCleanupFailure (l : LogLine) : bool :=
  match level l with LError => HasPrefix (message l) "Failed to cleanup" | _ => false end.
Definition cleanupFailures (w : World) : nat := length (List.filter isCleanupFailure (slog w)).

Definition isDelete (c : ApiCall) : bool :=
  match op c with OpDelete _ _ _ => true | _ => false end.

(** Among [calls], an object of kind [k] was created, resp. a delete was
    issued for it. *)
Definition created (calls : list (ApiCall * option error)) (k : Kind) (ns n : string) : Prop :=
  exists cl, In (Call cl (OpCreate k ns n), None) calls.
Definition deleteIssued (calls : list (ApiCall * option error)) (k : Kind) (ns n : string) : Prop :=
  exists cl r, In (Call cl (OpDelete k ns n), r) calls.

(** The error [err] handed on is the error [e0] of a call, possibly
    wrapped with [%w]: same reason, [e0]'s text at the end. *)
Definition wraps (err e0 : error) : Prop :=
  reason err = reason e0 /\ exists pre, text err = pre ++ text e0.

(** [c] is what [CloneService] builds from the service stored at [(ns, n)]. *)
Definition cloneOfStored (w : World) (ns n new : string) (lbl : gmap string string)
    (ports : list ServicePort) (c : Service) : Prop :=
  exists orig, services w !! (ns, n) = Some orig /\ c = clonedServiceOf orig ns n new lbl ports.

(** What [sendError] and a successful handler broadcast (newest first). *)
Definition failureReport (logType msg : string) (err : error) : list LogEntry :=
  [ MkEntry "--- Request failed ---" "log-error" logType "applyComplete";
    MkEntry ("REQUEST FAILED: " ++ msg ++ " - " ++ text err) "log-error" logType "applyResult" ].
Definition successReport (logType msg : string) : list LogEntry :=
  [ MkEntry "--- Request complete ---" "log-success" logType "applyComplete";
    MkEntry msg "log-success" logType "applyResult" ].

Definition succeededWith (logType : string) (w w' : World) : Prop :=
  exists msg, broadcast w' = (successReport logType msg ++ broadcast w)%list.

(** A failed creation from [w] to [w']: the calls it issued; a delete was
    issued for every object it created; what is reported is the error of
    the call that failed, never one of a compensating delete; and unless
    a compensation failure was logged the stores are as before. *)
Definition rolledBack (reported : error -> Prop) (w w' : World) : Prop :=
  exists calls, trace w' = (calls ++ trace w)%list /\
    (forall k ns n, created calls k ns n -> deleteIssued calls k ns n) /\
    (calls = [] \/
     exists err call e0,
       reported err /\ In (call, Some e0) calls /\ isDelete call = false /\ wraps err e0) /\
    (cleanupFailures w' = cleanupFailures w ->
     services w' = services w /\ accesses w' = accesses w).

(** *** Permission checks *)

(** The answer to one permission check. *)
Inductive Verdict := Allowed | Denied | Failed (e : error).

Definition reviewOf (u : UserInfo) (p : PermissionRequest) : Review :=
  MkReview u (Verb p) (Group p) (Resource p) (PermNamespace p) "".

(** The answer the check [p] gets when it is evaluated at time [t]. *)
Definition verdictAt (w : World) (u : UserInfo) (t : nat) (p : PermissionRequest) : Verdict :=
  match faults (env w) t (Call AppClient (OpReview (reviewOf u p))) with
  | Some ft => Failed (faultError ft)
  | None => if allowed (env w) (reviewOf u p) then Allowed else Denied
  end.

(** The answers to the checks [l], taken one after the other from [t]. *)
Fixpoint verdictsFrom (w : World) (u : UserInfo) (t : nat) (l : list PermissionRequest)
  : list Verdict :=
  match l with
  | [] => []
  | p :: rest => verdictAt w u t p :: verdictsFrom w u (S t) rest
  end.

Definition isAllowed (v : Verdict) : bool :=
  match v with Allowed => true | _ => false end.

(** The aggregate of a list of answers: allowed when every check is;
    otherwise the first check that is not allowed decides, a denial
    giving [(false, nil)] and a failed evaluation [(false, err)]. *)
Fixpoint decidedByFirst (vs : list Verdict) : bool * option error :=
  match vs with
  | [] => (true, None)
  | Allowed :: rest => decidedByFirst rest
  | Denied :: _ => (false, None)
  | Failed e :: _ => (false, Some (Errorf "failed to create subjectaccessreview: " e))
  end.

(** What [CanPerformAllActions] makes of the first error of the group. *)
Definition verdictOfWait (first : option error) : bool * option error :=
  match first with
  | Some err =>
      if HasPrefix (text err) "permission denied" then (false, None) else (false, Some err)
  | None => (true, None)
  end.

(** Every review is answered: no evaluation of a permission check fails. *)
Definition reviewsAnswered (w : World) : Prop :=
  forall t r, faults (env w) t (Call AppClient (OpReview r)) = None.

(** The scheduler runs every check of a list, and no other. *)
Definition completesAll (w : World) : Prop :=
  forall l p, In p (completion (env w) l) <-> In p l.

(** *** Single-sided declarations *)

(** The direction of a single-sided declaration in the words of the
    specification: [d] is the direction for the requested overall
    direction and the side that is local. *)
Definition directionAsSpecified (requested : string) (localIsSource : bool) (d : string) : Prop :=
  ((requested = "egress" /\ localIsSource = true)
   \/ (requested = "ingress" /\ localIsSource = false) -> d = "egress") /\
  ((requested = "ingress" /\ localIsSource = true)
   \/ (requested = "egress" /\ localIsSource = false) -> d = "ingress") /\
  (requested <> "egress" -> requested <> "ingress" -> d = "all").

(** From [w] to [w'] exactly one Access Declaration was added: [a],
    under the name [n] in the namespace [ns]. *)
Definition oneAccessAdded (w w' : World) (ns n : string) (a : Access) : Prop :=
  accesses w !! (ns, n) = None /\
  Namespace (accMeta a) = ns /\ Name (accMeta a) = n /\
  accesses w' = <[(ns, n) := a]> (accesses w).

(** From [w] to [w'] exactly one Service was added: the clone named
    [new] of the service stored at [(ns, n)]. *)
Definition oneCloneAdded (w w' : World) (ns n new : string) (id : string) : Prop :=
  exists orig c, services w !! (ns, n) = Some orig /\
    services w !! (Namespace (svcMeta orig), new) = None /\
    Name (svcMeta c) = new /\ Namespace (svcMeta c) = Namespace (svcMeta orig) /\
    Labels (svcMeta c) = <[K8s.requestIDLabel := id]> ∅ /\
    services w' = <[(Namespace (svcMeta orig), new) := c]> (services w).

(** From [w] to [w'] only Services and Access Declarations changed (and the
    clock, the trace and the diagnostic log). *)
Definition onlyGrants (w w' : World) : Prop :=
  env w' = env w /\ externalAccesses w' = externalAccesses w /\
  accessRequests w' = accessRequests w /\ uuidCount w' = uuidCount w /\
  broadcast w' = broadcast w.

(** *** Submission for review *)

(** The requester holds the create rights of a side. *)
Definition sideAllowed (w : World) (u : UserInfo) (ns : string) : bool :=
  forallb (fun p => allowed (env w) (reviewOf u p)) (sidePermissions ns).

(** From [w] to [w'] exactly one Access-Request was added: [r]. *)
Definition oneRequestAdded (w w' : World) (r : AccessRequest) : Prop :=
  accessRequests w !! ("", Name (arMeta r)) = None /\
  Namespace (arMeta r) = "" /\
  accessRequests w' = <[("", Name (arMeta r)) := r]> (accessRequests w).

Definition nothingGranted (w w' : World) : Prop :=
  services w' = services w /\ accesses w' = accesses w.

(** What the handler takes a side for: the yes or no that
    [CanPerformAllActions] returns for the create rights of the side
    [ns] when its checks start at time [t].  The error returned with it
    is dropped by the handler. *)
Definition sideTaken (w : World) (u : UserInfo) (t : nat) (ns : string) : bool :=
  (decidedByFirst (verdictsFrom w u t (completion (env w) (sidePermissions ns)))).1.

(** The number of checks run for the side [ns]: the checks of the target
    side start that much later than those of the source side. *)
Definition checksRun (w : World) (ns : string) : nat :=
  length (completion (env w) (sidePermissions ns)).

(** The submitted record [r] and what was created with it, by what the
    two calls of [CanPerformAllActions] answered. *)
Definition submittedAsDecided (u : UserInfo) (payload : Payload.t) (w w' : World)
    (r : AccessRequest) : Prop :=
  let spec := arSpec r in
  if decide (Payload.TargetService payload = "") then
    RequestType spec = "External" /\ Status spec = "PendingFull" /\ nothingGranted w w'
  else
    RequestType spec = "Service" /\
    exists sourceNs sourceName targetNs targetName,
      Split (Payload.SourceService payload) "/" = [sourceNs; sourceName] /\
      Split (Payload.TargetService payload) "/" = [targetNs; targetName] /\
      match sideTaken w u (clock w) sourceNs,
            sideTaken w u (clock w + checksRun w sourceNs)%nat targetNs with
      | true, true | false, false =>
          Status spec = "PendingFull" /\ nothingGranted w w'
      | true, false =>
          Status spec = "PendingTarget" /\
          exists a,
            oneCloneAdded w w' sourceNs sourceName (SourceCloneName spec) (RequestID spec) /\
            oneAccessAdded w w' sourceNs ("access-" ++ SourceCloneName spec) a
      | false, true =>
          Status spec = "PendingSource" /\
          exists a,
            oneCloneAdded w w' targetNs targetName (TargetCloneName spec) (RequestID spec) /\
            oneAccessAdded w w' targetNs ("access-" ++ TargetCloneName spec) a
      end.

(** *** Orphan detection *)

(** The two calls of the orphan check of [request]: the lookup of the
    Access Declaration of the side it owns, and its own deletion. *)
Definition orphanLookup (request : AccessRequest) : ApiCall :=
  let '(cloneName, namespace) := ownedSide (arSpec request) in
  Call ReconcilerClient (OpGet KAccess namespace ("access-" ++ cloneName)).

Definition orphanRemoval (request : AccessRequest) : ApiCall :=
  Call ReconcilerClient
    (OpDelete KAccessRequest (Namespace (arMeta request)) (Name (arMeta request))).

Definition finalizerUpdate (request : AccessRequest) : ApiCall :=
  Call ReconcilerClient
    (OpUpdate KAccessRequest (Namespace (arMeta request)) (Name (arMeta request))).

(** The Access Declaration the request's owned side expects. *)
Definition expectedAccess (request : AccessRequest) (w : World) : option Access :=
  let '(cloneName, namespace) := ownedSide (arSpec request) in
  accesses w !! (namespace, "access-" ++ cloneName).

Definition isOrphanCheckCall (c : ApiCall) : bool :=
  match op c with
  | OpGet KAccess _ _ | OpDelete KAccessRequest _ _ => true
  | _ => false
  end.

(** The orphan check was made among [calls], with the outcome [result]
    of the pass: the lookup was issued; when it answered that the
    declaration is missing, the request's deletion was issued and its
    result is the result of the pass; when it found the declaration
    nothing was deleted; when it failed the failure is the result. *)
Definition orphanChecked (request : AccessRequest) (w : World)
    (calls : list (ApiCall * option error)) (result : option error) : Prop :=
  exists r, In (orphanLookup request, r) calls /\
    match r with
    | None =>
        expectedAccess request w <> None /\ result = None /\
        forall r', ~ In (orphanRemoval request, r') calls
    | Some e =>
        if IsNotFound e then
          expectedAccess request w = None /\ In (orphanRemoval request, result) calls
        else
          result = Some e /\ forall r', ~ In (orphanRemoval request, r') calls
    end.

(** The pass ended where the finalizer could not be recorded. *)
Definition finalizerRefused (request : AccessRequest)
    (calls : list (ApiCall * option error)) (result : option error) : Prop :=
  exists e, ContainsFinalizer request accessRequestFinalizerName = false /\
    calls = [(finalizerUpdate request, Some e)] /\ result = Some e.

(** *** Finalizer cleanup *)

(** From [w] to [w'] only Services changed (and the clock, the trace and
    the diagnostic log). *)
Definition onlyServices (w w' : World) : Prop :=
  env w' = env w /\ accesses w' = accesses w /\ externalAccesses w' = externalAccesses w /\
  accessRequests w' = accessRequests w /\ uuidCount w' = uuidCount w /\
  broadcast w' = broadcast w.

(** The list call of [deleteClonedServices]. *)
Definition cloneListing (reqID : string) : ApiCall :=
  Call ReconcilerClient (OpList KService (Some (K8s.requestIDLabel, reqID))).

(** The update by which the reconciler records the finalizers of [obj]. *)
Definition finalizerWrite `{Object T} (obj : T) : ApiCall :=
  Call ReconcilerClient (OpUpdate (kindOf T) (Namespace (meta obj)) (Name (meta obj))).


(** *** The read model *)




(** The Service, resp. the declaration, carries the correlation id [reqID]. *)
Definition labelledWith (reqID : string) (svc : Service) : bool :=
  bool_decide (Labels (svcMeta svc) !! K8s.requestIDLabel = Some reqID).


(** The three listings of the read model. *)
Definition listServices : ApiCall := Call AppClient (OpList KService None).
Definition listAccesses : ApiCall :=
  Call AppClient (OpList KAccess (Some (K8s.managedByLabel, "netwatch"))).
Definition listExternalAccesses : ApiCall :=
  Call AppClient (OpList KExternalAccess (Some (K8s.managedByLabel, "netwatch"))).






(** *** Full grants *)

(** The directions of the two declarations of a full grant, in the words
    of the specification. *)
Definition reciprocal (requested sourceSide targetSide : string) : Prop :=
  (requested = "ingress" -> sourceSide = "ingress" /\ targetSide = "egress") /\
  (requested = "egress" -> sourceSide = "egress" /\ targetSide = "ingress") /\
  (requested <> "ingress" -> requested <> "egress" -> sourceSide = "all" /\ targetSide = "all").

(** From [w] to [w'] exactly the four objects of one full grant were
    added, all under the correlation id [id]. *)
Definition oneGrantAdded (requested : string) (w w' : World) (id : string) : Prop :=
  exists c1 c2 a1 a2,
    keyOf c1 <> keyOf c2 /\ services w !! keyOf c1 = None /\ services w !! keyOf c2 = None /\
    services w' = <[keyOf c2 := c2]> (<[keyOf c1 := c1]> (services w)) /\
    Labels (svcMeta c1) !! K8s.requestIDLabel = Some id /\
    Labels (svcMeta c2) !! K8s.requestIDLabel = Some id /\
    keyOf a1 <> keyOf a2 /\ accesses w !! keyOf a1 = None /\ accesses w !! keyOf a2 = None /\
    accesses w' = <[keyOf a2 := a2]> (<[keyOf a1 := a1]> (accesses w)) /\
    Labels (accMeta a1) !! K8s.requestIDLabel = Some id /\
    Labels (accMeta a2) !! K8s.requestIDLabel = Some id /\
    accTargets a1 = [MkPoint (Name (svcMeta c2)) (Namespace (svcMeta c2))] /\
    accTargets a2 = [MkPoint (Name (svcMeta c1)) (Namespace (svcMeta c1))] /\
    reciprocal requested (accDirection a1) (accDirection a2).

(** *** Further vocabulary: the properties of the code beyond the specification *)

(** The fields of a port list that count: trimmed, blank ones left out. *)
Definition portFields (ports : string) : list string :=
  List.filter (fun f => negb (String.eqb f "")) (map TrimSpace (Split ports ",")).

(** The port an accepted field yields. *)
Definition portOf (n : Z) : ServicePort := MkPort ("port-" ++ Itoa n) "TCP" (int32 n).

(** What [sanitize] does to one byte. *)
Definition dashed (c : ascii) : ascii :=
  if Ascii.eqb c "@" || Ascii.eqb c "." then "-"%char else c.

Definition isLowerHex (c : ascii) : bool :=
  let n := nat_of_ascii c in
  ((48 <=? n) && (n <=? 57) || (97 <=? n) && (n <=? 102))%nat.

(** The request names the side it owns: it is partial, and both the
    clone name and the namespace of that side are there. *)
Definition hasOwnedSide (request : AccessRequest) : bool :=
  let '(cloneName, namespace) := ownedSide (arSpec request) in
  isPartial (Status (arSpec request))
  && negb (String.eqb cloneName "" || String.eqb namespace "").

(** The delete of the Access Declaration of the owned side. *)
Definition ownedAccessDelete (request : AccessRequest) : ApiCall :=
  let '(cloneName, namespace) := ownedSide (arSpec request) in
  Call ReconcilerClient (OpDelete KAccess namespace ("access-" ++ cloneName)).

(** What [cleanupPartialAccess] returns for the result [e] of its delete. *)
Definition cleanupResult (e : option error) : option error :=
  match e with
  | Some err =>
      if IsNotFound err then None
      else Some (Errorf "failed to delete partial access object: " err)
  | None => None
  end.

(** The result of the pass for the result [r] of the last update. *)
Definition writeOffResult (r : option error) : option error :=
  match r with
  | Some err => if IsNotFound err then None else Some err
  | None => None
  end.

(** Every Service is stored under its own namespace and name. *)
Definition wellKeyed (w : World) : Prop :=
  map_Forall (fun k (s : Service) => keyOf s = k) (services w).

(** The clones of [reqID] have no finalizer of their own. *)
Definition clonesUnprotected (reqID : string) (w : World) : Prop :=
  map_Forall (fun _ (s : Service) =>
                Labels (svcMeta s) !! K8s.requestIDLabel = Some reqID ->
                Finalizers (svcMeta s) = []) (services w).

(** The reconciler's deletes of Services are not failed by the environment. *)
Definition serviceDeletesServed (w : World) : Prop :=
  forall t ns n, faults (env w) t (Call ReconcilerClient (OpDelete KService ns n)) = None.

(** The Services that are not clones of [reqID]. *)
Definition withoutClones (reqID : string) (m : gmap (string * string) Service)
  : gmap (string * string) Service :=
  filter (fun kv => Labels (svcMeta kv.2) !! K8s.requestIDLabel <> Some reqID) m.


(** Every check of the list is answered, and answered with a yes, when
    the checks are evaluated from the world [w] on. *)
Definition allAllowed (w : World) (u : UserInfo) (perms : list PermissionRequest) : Prop :=
  Forall (eq Allowed) (verdictsFrom w u (clock w) (completion (env w) perms)).

(** A direct grant between two Services passes the gate: both
    references have two fields and every check of the four is answered
    with a yes. *)
Definition directGrantPasses (p : webSocketCommandProcessor) (payload : Payload.t)
    (w : World) : bool :=
  match Split (Payload.SourceService payload) "/",
        Split (Payload.TargetService payload) "/" with
  | [sourceNs; _], [targetNs; _] =>
      forallb isAllowed
        (verdictsFrom w (userInfo p) (clock w)
           (completion (env w) (directGrantPermissions sourceNs targetNs)))
  | _, _ => false
  end.

(** What a refused command leaves: the stores and the UUID counter as
    they were, and the two entries of a failure report broadcast. *)
Definition refused (logType : string) (w w' : World) : Prop :=
  env w' = env w /\ services w' = services w /\ accesses w' = accesses w /\
  externalAccesses w' = externalAccesses w /\ accessRequests w' = accessRequests w /\
  uuidCount w' = uuidCount w /\
  exists report,
    broadcast w' =
      MkEntry "--- Request failed ---" "log-error" logType "applyComplete"
      :: MkEntry report "log-error" logType "applyResult" :: broadcast w.

(** From [w] to [w'] one external grant was added for the command of
    [p]: the clone of the named Service and one ExternalAccess that
    selects it, both under the identifier drawn at [w]. *)
Definition externalGrantAdded (p : webSocketCommandProcessor) (payload : Payload.t)
    (w w' : World) : Prop :=
  exists serviceNs serviceName suffix ea,
    let id := uuids (env w) (uuidCount w) in
    let cloneName := "nc-" ++ shortHash serviceName ++ "-" ++ suffix in
    Split (Payload.Service payload) "/" = [serviceNs; serviceName] /\
    allAllowed w (userInfo p) (externalGrantPermissions serviceNs) /\
    slice_to 8 (hexEncode id) = Some suffix /\
    oneCloneAdded w w' serviceNs serviceName cloneName id /\
    externalAccesses w !! (serviceNs, "ea-" ++ cloneName) = None /\
    externalAccesses w' = <[(serviceNs, "ea-" ++ cloneName) := ea]> (externalAccesses w) /\
    Labels (eaMeta ea) = accessLabels (sanitizedUsername p) id /\
    eaServiceSelector ea = requestLabel id /\
    eaTargetCIDRs ea = [Payload.Cidr payload] /\
    eaDirection ea = Payload.Direction payload /\
    eaDuration ea = durationString (Payload.Duration payload).

(** The two entries of a failure report were broadcast. *)
Definition failureReported (logType : string) (w w' : World) : Prop :=
  exists report,
    broadcast w' =
      MkEntry "--- Request failed ---" "log-error" logType "applyComplete"
      :: MkEntry report "log-error" logType "applyResult" :: broadcast w.

(** The review [handleDenyAccessRequest] asks for a user who is not the
    owner of the request. *)
Definition denyReview (p : webSocketCommandProcessor) (request : AccessRequest) : Review :=
  MkReview (userInfo p) "delete" "netwatch.vtk.io" "accessrequests" ""
           (Name (arMeta request)).

Definition isReview (c : ApiCall) : bool :=
  match op c with OpReview _ => true | _ => false end.

(** The handler's delete of the request record is not failed. *)
Definition requestDeleteServed (id : string) (w : World) : Prop :=
  forall t, faults (env w) t (Call AppClient (OpDelete KAccessRequest "" id)) = None.

(** The approval was reported as a success. *)
Definition approvalReported (w w' : World) : Prop :=
  exists msg logType,
    broadcast w' =
      MkEntry "--- Request complete ---" "log-success" logType "applyComplete"
      :: MkEntry msg "log-success" logType "applyResult" :: broadcast w.

(** The Access Declaration stored under [k] is gone or marked for deletion. *)
Definition goneOrMarked (m : gmap (string * string) Access) (k : string * string) : Prop :=
  match m !! k with
  | None => True
  | Some a => notBeingDeleted (accMeta a) = false
  end.

(** The delete of the Access Declaration [a] by the client [cl]. *)
Definition accessDelete (cl : Client) (a : Access) : ApiCall :=
  Call cl (OpDelete KAccess (Namespace (accMeta a)) (Name (accMeta a))).

(** From [w] to [w'] nothing but Access Declarations changed (and the
    clock, the trace and the logs). *)
Definition onlyAccesses (w w' : World) : Prop :=
  env w' = env w /\ services w' = services w /\ externalAccesses w' = externalAccesses w /\
  accessRequests w' = accessRequests w /\ uuidCount w' = uuidCount w.

(** The Access Declarations of a grant, as the revocation lists them. *)
Definition pairOf (reqID : string) (w : World) : list Access :=
  @listed Access _ (Some (K8s.requestIDLabel, reqID)) w.

(** The ExternalAccess stored under [k] is gone or marked for deletion. *)
Definition externalGoneOrMarked (m : gmap (string * string) ExternalAccess)
    (k : string * string) : Prop :=
  match m !! k with
  | None => True
  | Some a => notBeingDeleted (eaMeta a) = false
  end.

(** The entry [GetServices] makes of a Service. *)
Definition infoOf (svc : Service) : ServiceInfo.t :=
  ServiceInfo.Mk (Name (svcMeta svc)) (Namespace (svcMeta svc))
                 (Namespace (svcMeta svc) ++ "/" ++ Name (svcMeta svc))
                 (Labels (svcMeta svc)).

(** The Services [GetServices] offers: outside [kube-system], the name
    not starting with [netwatch-clone-]. *)
Definition offered (svc : Service) : bool :=
  negb (String.eqb (Namespace (svcMeta svc)) "kube-system"
        || HasPrefix (Name (svcMeta svc)) "netwatch-clone-").

(** From [w] to [w'] the Access-Requests, the UUID counter and the
    activity log are as before. *)
Definition recordsKept (w w' : World) : Prop :=
  env w' = env w /\ accessRequests w' = accessRequests w /\
  uuidCount w' = uuidCount w /\ broadcast w' = broadcast w.

End Spec.

(* ===================================================================== *)
(** ** A concrete cluster, for the scenarios of the specification *)
(* ===================================================================== *)

Module Scenario.
Import GoStrings K8s Handlers Controller.

Definition svc (ns name : string) : Service :=
  MkService (newMeta name ns ∅ ∅) [MkPort "http" "TCP" 80] (<["app" := name]> ∅)
            "ClusterIP" "10.0.0.1" ["10.0.0.1"].

Definition originals : gmap (string * string) Service :=
  <[("team-a", "svc1") := svc "team-a" "svc1"]>
    (<[("team-b", "svc2") := svc "team-b" "svc2"]> ∅).

Definition alice : UserInfo := MkUser "alice@example.com" [].
Definition bob : UserInfo := MkUser "bob@example.com" [].
Definition aliceSession : webSocketCommandProcessor :=
  MkProcessor "token-alice" alice (sanitize (Email alice)).
Definition bobSession : webSocketCommandProcessor :=
  MkProcessor "token-bob" bob (sanitize (Email bob)).

Definition tokens (t : string) : Result UserInfo :=
  if String.eqb t "token-alice" then Ok alice
  else if String.eqb t "token-bob" then Ok bob
  else Err (NewError "token verification failed").

Definition uuid0 : string := "0b1e4f6a-58cc-4372-a567-0e02b2c3d479".
Definition uuid1 : string := "7c9e6679-7425-40de-944b-e07fc1f90ae7".
Definition uuidOf (n : nat) : string := match n with O => uuid0 | _ => uuid1 end.

(** No injected failure; every review allowed. *)
Definition calm : nat -> ApiCall -> option Fault := fun _ _ => None.
Definition allowAll : Review -> bool := fun _ => true.

(** Alice holds rights in [team-a] only; Bob everywhere. *)
Definition aliceInTeamA (r : Review) : bool :=
  String.eqb (Email (rvUser r)) (Email bob) || String.eqb (rvNamespace r) "team-a".

Definition cluster (f : nat -> ApiCall -> option Fault) (a : Review -> bool) : World :=
  MkWorld (MkEnv f a (fun l => l) tokens uuidOf) originals ∅ ∅ ∅ 0 0 [] [] [].

(** source=team-a/svc1, target=team-b/svc2, direction=ingress, duration=600 *)
Definition request (command : string) : Payload.t :=
  Payload.Mk command "" "team-a/svc1" "team-b/svc2" "ingress" "" "" "" 600 "" "" "".

Definition byRequestName (command name : string) : Payload.t :=
  Payload.Mk command name "" "" "" "" "" "" 0 "" "" "".

Definition forbidden (what : string) : Fault := MkFault Forbidden (what ++ " is forbidden").

(** The target namespace refuses new Services, and Services cannot be
    deleted by the user. *)
Definition noCloneInTeamBNoDelete (t : nat) (c : ApiCall) : option Fault :=
  match op c with
  | OpCreate KService ns _ => if String.eqb ns "team-b" then Some (forbidden "services") else None
  | OpDelete KService _ _ => Some (forbidden "services")
  | _ => None
  end.

(** Access Declarations cannot be deleted by the user. *)
Definition noAccessDelete (t : nat) (c : ApiCall) : option Fault :=
  match op c with
  | OpDelete KAccess _ _ => Some (forbidden "accesses.maxtac.vtk.io")
  | _ => None
  end.

(** The authorization subsystem is unavailable for reviews in [team-a]. *)
Definition reviewsDownInTeamA (t : nat) (c : ApiCall) : option Fault :=
  match op c with
  | OpReview r =>
      if String.eqb (rvNamespace r) "team-a" then
        Some (MkFault Unavailable "the server is currently unable to handle the request")
      else None
  | _ => None
  end.

Definition denyTeamB (r : Review) : bool := negb (String.eqb (rvNamespace r) "team-b").

(** The names and ids of the objects of a kind that carry the label. *)
Definition labelled `{Object T} (label : string * string) (w : World) : list (string * string) :=
  map (fun o => (Namespace (meta o), Name (meta o))) (@listed T _ (Some label) w).

Definition withFaults (f : nat -> ApiCall -> option Fault) (w : World) : World :=
  MkWorld (MkEnv f (allowed (env w)) (completion (env w)) (verifyToken (env w)) (uuids (env w)))
          (services w) (accesses w) (externalAccesses w) (accessRequests w)
          (clock w) (uuidCount w) (trace w) (broadcast w) (slog w).

(** A request left in [PendingTarget] by Alice, whose source-side Access
    Declaration no longer exists. *)
Definition orphan : AccessRequest :=
  MkRequest (newMeta "ar-alice-example-com-0b1e4f6a" "" ∅ ∅)
    (MkRequestSpec (Email alice) "Service" "team-a/svc1" "team-b/svc2" "" "" "ingress" "" 600
       "" "PendingTarget" uuid0 "nc-svc1-30623165" "").

Definition withRequest (r : AccessRequest) (w : World) : World :=
  setAccessRequests (<[(Namespace (arMeta r), Name (arMeta r)) := r]> (accessRequests w)) w.

(** Every update of an Access-Request meets a conflict. *)
Definition updatesConflict (t : nat) (c : ApiCall) : option Fault :=
  match op c with
  | OpUpdate KAccessRequest _ _ =>
      Some (MkFault Conflict
              "the object has been modified; please apply your changes to the latest version and try again")
  | _ => None
  end.

(** An Access Declaration of Alice's grant that is being deleted and
    still carries the cleanup finalizer, and the clone it selects. *)
Definition doomed : Access :=
  MkAccess (MkMeta "access-nc-svc1-30623165" "team-a" (accessLabels "alice-example-com" uuid0) ∅
              [accessFinalizerName] 1 (Some 5))
    "600s" (requestLabel uuid0) [MkPoint "nc-svc2-30623165" "team-b"] "ingress".

Definition doomedClone : Service :=
  clonedServiceOf (svc "team-a" "svc1") "team-a" "svc1" "nc-svc1-30623165" (requestLabel uuid0) [].

(** Services cannot be deleted by the reconciler. *)
Definition noServiceDelete (t : nat) (c : ApiCall) : option Fault :=
  match op c with
  | OpDelete KService _ _ => Some (forbidden "services")
  | _ => None
  end.

Definition deleting : World :=
  setAccesses (<[("team-a", "access-nc-svc1-30623165") := doomed]> ∅)
    (setServices (<[("team-a", "nc-svc1-30623165") := doomedClone]> originals)
       (cluster noServiceDelete allowAll)).


(** The cluster after Alice, who holds rights in [team-a] only, has
    submitted the request for review. *)
Definition submitted : World :=
  final (handleSubmitAccessRequest aliceSession (request "submitAccessRequest")
           (cluster calm aliceInTeamA)).

(** An Access Declaration added to the cluster as it is. *)
Definition withAccess (a : Access) (w : World) : World :=
  setAccesses (<[(Namespace (accMeta a), Name (accMeta a)) := a]> (accesses w)) w.



(** Alice's request, withdrawn: the record is being deleted and still
    carries the reconciler's finalizer. *)
Definition withdrawn : AccessRequest :=
  MkRequest (MkMeta "ar-alice-example-com-0b1e4f6a" "" ∅ ∅ [accessRequestFinalizerName]
               1 (Some 7))
            (arSpec orphan).

(** An Access Declaration as first seen by the reconciler: not being
    deleted, no finalizer yet. *)
Definition young : Access :=
  MkAccess (MkMeta "access-nc-svc1-30623165" "team-a" (accessLabels "alice-example-com" uuid0) ∅
              [] 1 None)
    "600s" (requestLabel uuid0) [MkPoint "nc-svc2-30623165" "team-b"] "ingress".

(** An Access Declaration that is being deleted, carries the cleanup
    finalizer and has lost its labels. *)
Definition unlabelled : Access :=
  MkAccess (MkMeta "access-nc-svc1-30623165" "team-a" ∅ ∅ [accessFinalizerName] 1 (Some 5))
    "600s" (requestLabel uuid0) [MkPoint "nc-svc2-30623165" "team-b"] "ingress".

(** Every address is taken for valid. *)
Definition anyAddress (s : string) : bool := true.

(** service=team-a/svc1, cidr=10.0.0.0/8 with blanks around it. *)
Definition externalRequest : Payload.t :=
  Payload.Mk "requestExternalAccess" "" "" "" "egress" "" " 10.0.0.0/8 " "team-a/svc1" 600
             "" "" "".

(** The request record cannot be created. *)
Definition noFiling (t : nat) (c : ApiCall) : option Fault :=
  match op c with
  | OpCreate KAccessRequest _ _ => Some (forbidden "accessrequests.netwatch.vtk.io")
  | _ => None
  end.

(** The cluster after Alice's submission and one pass of the reconciler
    over the record, and the record as stored then. *)
Definition reconciled : World :=
  final (Reconcile "" "ar-alice-example-com-0b1e4f6a" submitted).

Definition filed : AccessRequest :=
  default orphan (accessRequests reconciled !! ("", "ar-alice-example-com-0b1e4f6a")).

End Scenario.

(* ===================================================================== *)
(** ** Reasoning about runs *)
(* ===================================================================== *)

Import GoStrings K8s Handlers Controller ReadModel Spec.
Open Scope nat_scope.

#[export] Instance ServiceLawful : Lawful Service.
Proof.
  split; try reflexivity; intros; try (repeat split; fail);
    match goal with Ha : agreeButLog _ _ |- _ => apply Ha end.
Qed.
#[export] Instance AccessLawful : Lawful Access.
Proof.
  split; try reflexivity; intros; try (repeat split; fail);
    match goal with Ha : agreeButLog _ _ |- _ => apply Ha end.
Qed.
#[export] Instance ExternalAccessLawful : Lawful ExternalAccess.
Proof.
  split; try reflexivity; intros; try (repeat split; fail);
    match goal with Ha : agreeButLog _ _ |- _ => apply Ha end.
Qed.
#[export] Instance AccessRequestLawful : Lawful AccessRequest.
Proof.
  split; try reflexivity; intros; try (repeat split; fail);
    match goal with Ha : agreeButLog _ _ |- _ => apply Ha end.
Qed.

(** Reduction of the world's projections and of nothing else. *)
Ltac wcbn :=
  cbn [env services accesses externalAccesses accessRequests clock uuidCount trace broadcast slog
       setServices setAccesses setExternalAccesses setAccessRequests issued drewUUID
       broadcasted logged store setStore meta setMeta kindOf
       ServiceObject AccessObject ExternalAccessObject AccessRequestObject
       final returned fst snd errorOf
       svcMeta accMeta eaMeta arMeta arSpec Name Namespace Labels Annotations Finalizers
       CreationTimestamp DeletionTimestamp newMeta
       accDuration accServiceSelector accTargets accDirection
       reason text Errorf faultError notFound alreadyExists IsNotFound negb
       level message attached app] in *.

Ltac munfold :=
  unfold mbind, M_bind, bind, mret, M_ret, ret, getWorld, modify, panic in *.

Ltac split_agree :=
  repeat match goal with
         | H : agree _ _ |- _ => destruct H as (? & ? & ? & ? & ? & ? & ? & ?)
         | H : agreeButLog _ _ |- _ => destruct H as (? & ? & ? & ? & ? & ? & ?)
         end; wcbn.

Ltac agree_tac := split_agree; unfold agree, agreeButLog; wcbn; repeat split; congruence.

Ltac open_facts :=
  repeat match goal with
         | H : _ /\ _ |- _ => destruct H
         | H : exists _, _ |- _ => destruct H
         end.

Ltac isField f :=
  lazymatch f with
  | services => idtac | accesses => idtac | externalAccesses => idtac
  | accessRequests => idtac | env => idtac | uuidCount => idtac
  | broadcast => idtac | slog => idtac | trace => idtac
  end.

(** Express every field of every intermediate world through the first one. *)
Ltac chase :=
  repeat match goal with
         | H : ?f ?x = _ |- _ =>
             is_var x; isField f; try rewrite !H in *; clear H
         end.

Lemma agree_refl w : agree w w.
Proof. repeat split. Qed.

Lemma cleanupFailures_logged l w :
  cleanupFailures (logged l w) =
  if isCleanupFailure l then S (cleanupFailures w) else cleanupFailures w.
Proof.
  unfold cleanupFailures. cbn [slog logged List.filter].
  destruct (isCleanupFailure l); reflexivity.
Qed.

Lemma wraps_refl e : wraps e e.
Proof. split; [reflexivity|]. exists "". reflexivity. Qed.

Lemma wraps_Errorf pre err e0 : wraps err e0 -> wraps (Errorf pre err) e0.
Proof.
  intros [Hr (q & Hq)]. split; [exact Hr|]. exists (pre ++ q). cbn. rewrite Hq.
  clear. induction pre as [|a pre IH]; [reflexivity|].
  change (String a (pre ++ q ++ text e0) = String a ((pre ++ q) ++ text e0)). by rewrite IH.
Qed.

(** *** The API calls, step by step *)

Section Primitives.
Context {T : Type} `{Object T} `{!Lawful T}.

Lemma Get_step cl ns n w :
  exists r w1, Api.Get T cl ns n w = Ret r w1 /\ agree w1 w /\
    trace w1 = (Call cl (OpGet (kindOf T) ns n), errorOf r) :: trace w /\
    match r with
    | Ok o => store w !! (ns, n) = Some o
    | Err e => (exists ft, e = faultError ft) \/ (store w !! (ns, n) = None /\ e = notFound n)
    end.
Proof.
  unfold Api.Get, perform.
  destruct (faults _ _ _) as [ft|].
  - eexists _, _. repeat split. eauto.
  - destruct (store w !! (ns, n)) as [o|] eqn:E; eexists _, _; repeat split; eauto.
Qed.

Lemma Create_step cl (o : T) w :
  exists e w1, Api.Create cl o w = Ret e w1 /\
    trace w1 = (Call cl (OpCreate (kindOf T) (Namespace (meta o)) (Name (meta o))), e) :: trace w /\
    match e with
    | None => store w !! keyOf o = None /\
              agree w1 (setStore (<[keyOf o := stamp (Z.of_nat (clock w)) o]> (store w)) w)
    | Some err => agree w1 w /\
                  ((exists ft, err = faultError ft) \/ err = alreadyExists (Name (meta o)))
    end.
Proof.
  unfold Api.Create, performE, perform. munfold.
  destruct (faults _ _ _) as [ft|].
  - eexists _, _. repeat split. eauto.
  - destruct (store w !! keyOf o) as [x|] eqn:E; eexists _, _; split; try reflexivity; cbn;
      rewrite ?setStore_trace; repeat split; eauto.
Qed.

Lemma Delete_step cl ns n w :
  exists e w1, Api.Delete T cl ns n w = Ret e w1 /\
    trace w1 = (Call cl (OpDelete (kindOf T) ns n), e) :: trace w /\
    ((exists ft, e = Some (faultError ft) /\ agree w1 w)
     \/ (e = Some (notFound n) /\ store w !! (ns, n) = None /\ agree w1 w)
     \/ (exists o, e = None /\ store w !! (ns, n) = Some o /\
           agree w1 (setStore (afterDelete (Z.of_nat (clock w)) (ns, n) o (store w)) w))).
Proof.
  unfold Api.Delete, performE, perform. munfold.
  destruct (faults _ _ _) as [ft|].
  - eexists _, _. repeat split. left. eexists. repeat split.
  - destruct (store w !! (ns, n)) as [x|] eqn:E; eexists _, _; split; try reflexivity; cbn;
      rewrite ?setStore_trace; (split; [reflexivity|]).
    + right. right. eexists. repeat split.
    + right. left. repeat split.
Qed.

Lemma Update_step cl (o : T) w :
  exists e w1, Api.Update cl o w = Ret e w1 /\
    trace w1 = (Call cl (OpUpdate (kindOf T) (Namespace (meta o)) (Name (meta o))), e) :: trace w /\
    ((exists ft, faults (env w) (clock w)
                   (Call cl (OpUpdate (kindOf T) (Namespace (meta o)) (Name (meta o)))) = Some ft /\
                 e = Some (faultError ft) /\ agree w1 w)
     \/ (e = Some (notFound (Name (meta o))) /\ store w !! keyOf o = None /\ agree w1 w)
     \/ (exists old, e = None /\ store w !! keyOf o = Some old /\
           agree w1 (setStore (afterUpdate old o (store w)) w))).
Proof.
  unfold Api.Update, performE, perform. munfold.
  destruct (faults _ _ _) as [ft|].
  - eexists _, _. repeat split. left. eexists. repeat split.
  - destruct (store w !! keyOf o) as [x|] eqn:E; eexists _, _; split; try reflexivity; cbn;
      rewrite ?setStore_trace; (split; [reflexivity|]).
    + right. right. eexists. repeat split.
    + right. left. repeat split.
Qed.

Lemma List_step cl label w :
  exists r w1, Api.List_ T cl label w = Ret r w1 /\ agree w1 w /\
    trace w1 = (Call cl (OpList (kindOf T) label), errorOf r) :: trace w /\
    match r with
    | Ok l => l = listed label w /\
              faults (env w) (clock w) (Call cl (OpList (kindOf T) label)) = None
    | Err e => exists ft, faults (env w) (clock w) (Call cl (OpList (kindOf T) label)) = Some ft
                          /\ e = faultError ft
    end.
Proof.
  unfold Api.List_, perform.
  destruct (faults _ _ _) as [ft|]; eexists _, _; repeat split; eauto.
Qed.

(** The compensation step around a delete: what it did to the store can
    be read off the count of logged cleanup failures. *)
Lemma cleanup_step cl ns n msg w :
  HasPrefix msg "Failed to cleanup" = true ->
  exists e w1 m, cleanup (Api.Delete T cl ns n) msg w = Ret tt w1 /\
    trace w1 = (Call cl (OpDelete (kindOf T) ns n), e) :: trace w /\
    agreeButLog w1 (setStore m w) /\
    cleanupFailures w <= cleanupFailures w1 /\
    (cleanupFailures w1 = cleanupFailures w ->
     m = deleted (Z.of_nat (clock w)) (ns, n) (store w)).
Proof.
  intros Hmsg. unfold cleanup. munfold.
  destruct (Delete_step cl ns n w) as (e & w1 & E & Ht & Hc). rewrite E.
  destruct Hc as [(ft & -> & Ha)|[(-> & Hn & Ha)|(o & -> & Ho & Ha)]]; cbn.
  - exists (Some (faultError ft)), (logged (MkLine LError msg (Some (faultError ft))) w1), (store w).
    split; [reflexivity|]. split; [exact Ht|].
    assert (Hl : cleanupFailures (logged (MkLine LError msg (Some (faultError ft))) w1)
                 = S (cleanupFailures w)).
    { rewrite cleanupFailures_logged. unfold isCleanupFailure. cbn [level message].
      rewrite Hmsg. unfold cleanupFailures.
      destruct Ha as (_ & _ & _ & _ & _ & _ & _ & ->). reflexivity. }
    split; [|split; [lia|intros; lia]].
    pose proof (setStore_id w). unfold agreeButLog. split_agree. repeat split; congruence.
  - exists (Some (notFound n)), w1, (store w). split; [reflexivity|]. split; [exact Ht|].
    assert (Hl : cleanupFailures w1 = cleanupFailures w).
    { unfold cleanupFailures. destruct Ha as (_ & _ & _ & _ & _ & _ & _ & ->). reflexivity. }
    split; [|split; [lia|intros _; unfold deleted; by rewrite Hn]].
    pose proof (setStore_id w). unfold agreeButLog. split_agree. repeat split; congruence.
  - exists None, w1, (afterDelete (Z.of_nat (clock w)) (ns, n) o (store w)).
    split; [reflexivity|]. split; [exact Ht|].
    assert (Hl : cleanupFailures w1 = cleanupFailures w).
    { unfold cleanupFailures. destruct Ha as (_ & _ & _ & _ & _ & _ & _ & ->).
      by rewrite setStore_slog. }
    split; [|split; [lia|intros _; unfold deleted; by rewrite Ho]].
    unfold agreeButLog. split_agree. repeat split; congruence.
Qed.

End Primitives.

Lemma clonedServiceOf_meta o ns n new l ports :
  Name (svcMeta (clonedServiceOf o ns n new l ports)) = new /\
  Namespace (svcMeta (clonedServiceOf o ns n new l ports)) = Namespace (svcMeta o) /\
  Labels (svcMeta (clonedServiceOf o ns n new l ports)) = l /\
  Finalizers (svcMeta (clonedServiceOf o ns n new l ports)) = [].
Proof. unfold clonedServiceOf. cbn. destruct (String.eqb _ _); repeat split. Qed.

Lemma CloneService_step cl ns n new lbl ports w :
  exists r w1, CloneService cl ns n new lbl ports w = Ret r w1 /\
    match r with
    | Ok c =>
        cloneOfStored w ns n new lbl ports c /\
        Finalizers (svcMeta c) = [] /\
        services w !! keyOf c = None /\
        (exists t, agree w1 (setServices (<[keyOf c := stamp t c]> (services w)) w)) /\
        trace w1 = (Call cl (OpCreate KService (Namespace (svcMeta c)) (Name (svcMeta c))), None)
                     :: (Call AppClient (OpGet KService ns n), None) :: trace w
    | Err err =>
        agree w1 w /\
        exists call e0 done, trace w1 = ((call, Some e0) :: done ++ trace w)%list /\
          isDelete call = false /\ (forall k ns' n', ~ created done k ns' n') /\
          wraps err e0
    end.
Proof.
  unfold CloneService. munfold.
  destruct (Get_step (T:=Service) AppClient ns n w) as (r & w1 & E & Ha & Ht & Hr). rewrite E.
  destruct r as [orig|e]; cbv beta iota.
  - set (c := clonedServiceOf orig ns n new lbl ports).
    destruct (Create_step cl c w1) as (e & w2 & E2 & Ht2 & Hc). rewrite E2.
    destruct e as [err|]; cbv beta iota.
    + eexists _, _. split; [reflexivity|]. destruct Hc as [Ha2 Hw].
      split. { agree_tac. }
      eexists _, err, [_]. rewrite Ht2, Ht. split; [reflexivity|]. split; [reflexivity|].
      split. { intros k ns' n' (c0 & [Hin|[]]). discriminate. } apply wraps_Errorf, wraps_refl.
    + eexists _, _. split; [reflexivity|]. destruct Hc as [Hn Ha2].
      split. { exists orig. split; [exact Hr|reflexivity]. }
      split. { apply clonedServiceOf_meta. }
      split. { split_agree. congruence. }
      split. { exists (Z.of_nat (clock w1)). agree_tac. }
      rewrite Ht2, Ht. reflexivity.
  - eexists _, _. split; [reflexivity|]. split; [exact Ha|].
    eexists _, e, []. rewrite Ht. split; [reflexivity|]. split; [reflexivity|].
    split; [intros k ns' n' (c0 & [])|]. apply wraps_Errorf, wraps_refl.
Qed.

Lemma sendError_Some msg e lt w :
  sendError msg (Some e) lt w =
  Ret tt (broadcasted (MkEntry "--- Request failed ---" "log-error" lt "applyComplete")
         (broadcasted (MkEntry ("REQUEST FAILED: " ++ msg ++ " - " ++ text e) "log-error" lt
                               "applyResult")
         (logged (MkLine LError msg (Some e)) w))).
Proof. reflexivity. Qed.

Lemma stamp_finalizers_service t (c : Service) :
  Finalizers (svcMeta (stamp t c)) = Finalizers (svcMeta c).
Proof. reflexivity. Qed.

Lemma stamp_finalizers_access t (a : Access) :
  Finalizers (accMeta (stamp t a)) = Finalizers (accMeta a).
Proof. reflexivity. Qed.

(** *** Stepping through a handler *)

Ltac step_clone :=
  match goal with
  | |- context [CloneService ?a ?b ?c ?d ?e ?f ?w] =>
      let r := fresh "r" in let w1 := fresh "w" in let Hr := fresh "Hr" in
      destruct (CloneService_step a b c d e f w) as (r & w1 & -> & Hr);
      destruct r as [?c|?err]; cbv beta iota
  end.

Ltac step_create :=
  unfold CreateAccess, CreateExternalAccess, CreateAccessRequestAsApp;
  match goal with
  | |- context [@Api.Create ?T ?I ?cl ?a ?w] =>
      let e := fresh "e" in let w1 := fresh "w" in let Ht := fresh "Ht" in let Hc := fresh "Hc" in
      destruct (@Create_step T I _ cl a w) as (e & w1 & -> & Ht & Hc);
      destruct e as [?err|]; cbv beta iota
  end.

Ltac step_cleanup :=
  unfold DeleteService, DeleteAccess;
  match goal with
  | |- context [cleanup (@Api.Delete ?T ?I ?cl ?ns ?n) ?msg ?w] =>
      let e := fresh "e" in let w1 := fresh "w" in let m := fresh "m" in
      let Ht := fresh "Ht" in let Ha := fresh "Ha" in
      let Hle := fresh "Hle" in let Hm := fresh "Hm" in
      destruct (@cleanup_step T I _ cl ns n msg w eq_refl) as (e & w1 & m & -> & Ht & Ha & Hle & Hm);
      cbv beta iota
  end.

Ltac prefix_of t base :=
  lazymatch t with
  | base => constr:(@nil (ApiCall * option error))
  | ?x :: ?r => let p := prefix_of r base in constr:(x :: p)
  | (?l ++ ?r)%list =>
      lazymatch r with
      | base => constr:(l)
      | _ => let p := prefix_of r base in constr:((l ++ p)%list)
      end
  end.

Ltac solve_created :=
  let Hin := fresh "Hin" in
  intros ? ? ? (? & Hin);
  cbn [In app] in Hin; rewrite ?List.in_app_iff in Hin; cbn [In] in Hin;
  repeat match type of Hin with _ \/ _ => destruct Hin as [Hin|Hin] end;
  first [ discriminate Hin
        | contradiction
        | exfalso;
          match goal with
          | H : forall k ns n, ~ created _ k ns n |- _ => eapply H; eexists; exact Hin
          end
        | inversion Hin; subst; eexists _, _; cbn [In app]; rewrite ?List.in_app_iff;
          cbn [In]; eauto 20 ].

Ltac eval_failures :=
  repeat match goal with
         | H : context [isCleanupFailure ?l] |- _ =>
             lazymatch l with
             | MkLine _ _ _ =>
                 let b := eval vm_compute in (isCleanupFailure l) in
                 change (isCleanupFailure l) with b in H; cbv iota in H
             end
         | |- context [isCleanupFailure ?l] =>
             lazymatch l with
             | MkLine _ _ _ =>
                 let b := eval vm_compute in (isCleanupFailure l) in
                 change (isCleanupFailure l) with b; cbv iota
             end
         end.

Ltac map_norm :=
  repeat first [ rewrite lookup_insert_eq
               | rewrite lookup_delete_eq
               | rewrite lookup_insert_ne by congruence
               | rewrite lookup_delete_ne by congruence ].

Ltac map_restore :=
  apply map_eq; intro;
  repeat (rewrite lookup_delete || rewrite lookup_insert);
  repeat case_decide; subst; congruence.

Ltac norm_lookups :=
  repeat match goal with
         | H : <[_:=_]> _ !! _ = None |- _ => apply lookup_insert_None in H as [? ?]
         end.

(** A failing branch of a full-grant sequence: the calls, the deletes
    issued, the report, and the stores when no compensation failed. *)
Ltac rollback_leaf w report :=
  open_facts; split_agree;
  unfold rolledBack, cleanupFailures in *; wcbn; chase;
  cbn [List.filter] in *; eval_failures; cbn [length] in *;
  match goal with
  | |- exists calls, ?t = _ /\ _ => let L := prefix_of t (trace w) in exists L
  end;
  split; [cbn [app]; rewrite <- ?List.app_assoc; reflexivity|];
  split; [solve_created|];
  split; [right; eexists _, _, _; split; [report|];
          split; [cbn [In app]; rewrite ?List.in_app_iff; cbn [In]; eauto 20|];
          split; [first [assumption|reflexivity]
                 |first [assumption|apply wraps_refl|apply wraps_Errorf; assumption
                        |apply wraps_Errorf, wraps_refl]]|];
  let Hcf := fresh "Hcf" in
  intros Hcf;
  repeat match goal with
         | H : _ = _ -> _ = deleted _ _ _ |- _ => specialize (H ltac:(lia))
         end;
  subst; unfold keyOf in *; wcbn; norm_lookups;
  unfold deleted, afterDelete; map_norm;
  repeat (rewrite ?stamp_finalizers_service, ?stamp_finalizers_access; wcbn;
          repeat match goal with H : Finalizers _ = [] |- _ => rewrite !H end;
          cbv iota; map_norm);
  split; try reflexivity; map_restore.

Lemma rolledBack_early reported w w0 :
  trace w0 = trace w -> services w0 = services w -> accesses w0 = accesses w ->
  rolledBack reported w w0.
Proof.
  intros Ht Hs Ha. exists []. split; [exact Ht|]. split; [intros k ns n (c & [])|].
  split; [by left|]. auto.
Qed.

(** *** Direct creation: compensating rollback *)

(** C1 (as amended).  A run of [createClusterAccess] either succeeds or
    is rolled back: a delete is issued for every object the run created,
    the failure broadcast to the caller is that of the creation step that
    failed (wrapped), never that of a compensating delete, which is only
    logged, and whenever no compensation failure was logged the Services
    and Access Declarations are exactly those from before the run, so
    none remains under the run's correlation id. *)
Theorem createClusterAccess_rollback p cl payload w :
  let w' := final (createClusterAccess p cl payload w) in
  succeededWith "Service" w w'
  \/ rolledBack (fun err => exists msg,
                   broadcast w' = (failureReport "Service" msg err ++ broadcast w)%list) w w'.
Proof.
  unfold createClusterAccess.
  destruct (getOverridePorts _) as [ports|e]; [|right; apply rolledBack_early; reflexivity].
  destruct (Split (Payload.SourceService payload) "/") as [|sNs [|sName [|]]];
    try (right; apply rolledBack_early; reflexivity).
  destruct (Split (Payload.TargetService payload) "/") as [|tNs [|tName [|]]];
    try (right; apply rolledBack_early; reflexivity).
  unfold uuidNew, randSuffixOf, orPanic. munfold. cbv beta iota.
  destruct (slice_to _ _) as [suffix|]; [|right; apply rolledBack_early; reflexivity].
  cbv beta iota.
  step_clone.
  2: { rewrite sendError_Some. right.
       rollback_leaf w ltac:(eexists; reflexivity). }
  step_clone.
  2: { rewrite sendError_Some. cbv beta iota. step_cleanup. right.
       rollback_leaf w ltac:(eexists; reflexivity). }
  destruct (fullDirections _) as [sourceDirection targetDirection].
  step_create.
  { rewrite sendError_Some. cbv beta iota. do 2 step_cleanup. right.
    rollback_leaf w ltac:(eexists; reflexivity). }
  step_create.
  { rewrite sendError_Some. cbv beta iota. do 3 step_cleanup. right.
    rollback_leaf w ltac:(eexists; reflexivity). }
  left. unfold Logger.Info, logAndBroadcast. munfold. cbv beta iota.
  open_facts. split_agree. unfold succeededWith. wcbn. chase.
  eexists. reflexivity.
Qed.

(** The same holds where an approver creates the full grant: there the
    failure is returned, wrapped, to [handleApproveAccessRequest]. *)
Lemma approveFullRequest_rollback p cl request w :
  RequestType (arSpec request) = "Service" ->
  let o := approveFullRequest p cl request w in
  returned o = Some None
  \/ rolledBack (fun err => returned o = Some (Some err)) w (final o).
Proof.
  intros Hty. unfold approveFullRequest. rewrite Hty.
  change (String.eqb "Service" "Service") with true. cbv iota.
  unfold index, randSuffixOf, orPanic. munfold.
  destruct (nth_error (Split (SourceService (arSpec request)) "/") 0) as [sNs|];
    [|right; apply rolledBack_early; reflexivity].
  destruct (nth_error (Split (SourceService (arSpec request)) "/") 1) as [sName|];
    [|right; apply rolledBack_early; reflexivity].
  destruct (nth_error (Split (TargetService (arSpec request)) "/") 0) as [tNs|];
    [|right; apply rolledBack_early; reflexivity].
  destruct (nth_error (Split (TargetService (arSpec request)) "/") 1) as [tName|];
    [|right; apply rolledBack_early; reflexivity].
  cbv beta iota.
  destruct (slice_to _ _) as [suffix|]; [|right; apply rolledBack_early; reflexivity].
  cbv beta iota.
  destruct (getOverridePorts _) as [ports|e]; [|right; apply rolledBack_early; reflexivity].
  step_clone.
  2: { right. rollback_leaf w ltac:(reflexivity). }
  step_clone.
  2: { step_cleanup. right. rollback_leaf w ltac:(reflexivity). }
  destruct (fullDirections _) as [sourceDirection targetDirection].
  step_create.
  { do 2 step_cleanup. right. rollback_leaf w ltac:(reflexivity). }
  step_create.
  { do 3 step_cleanup. right. rollback_leaf w ltac:(reflexivity). }
  left. reflexivity.
Qed.

(** C1, as stated, fails where a compensating delete is refused: the
    target namespace rejects the clone, the user may not delete Services,
    and the source clone is left behind under the correlation id. *)
Lemma rollback_leaves_clone_when_delete_refused :
  let w := Scenario.cluster Scenario.noCloneInTeamBNoDelete Scenario.allowAll in
  let w' := final (createClusterAccess Scenario.aliceSession (Impersonating Scenario.alice)
                     (Scenario.request "requestClusterAccess") w) in
  map Payload (broadcast w') =
    [ "--- Request failed ---";
      "REQUEST FAILED: Could not clone target service (check your permissions) - could not create service clone team-b/nc-7be363aa9b71-30623165: services is forbidden" ]
  /\ map message (slog w') =
       [ "Failed to cleanup partial service clone on approval";
         "Could not clone target service (check your permissions)" ]
  /\ Scenario.labelled (T:=Service) (requestIDLabel, Scenario.uuid0) w = []
  /\ Scenario.labelled (T:=Service) (requestIDLabel, Scenario.uuid0) w' =
       [("team-a", "nc-650e999d890d-30623165")].
Proof. vm_compute. repeat split. Qed.

(** *** Direct creation through the handler *)

Lemma fullDirections_reciprocal requested :
  reciprocal requested (fullDirections requested).1 (fullDirections requested).2.
Proof.
  unfold reciprocal, fullDirections.
  destruct (String.eqb_spec requested "ingress") as [->|Hi]; cbn.
  { repeat split; intros; congruence. }
  destruct (String.eqb_spec requested "egress") as [->|He]; cbn;
    repeat split; intros; congruence.
Qed.

Lemma accessLabels_id user id : accessLabels user id !! requestIDLabel = Some id.
Proof.
  unfold accessLabels, managedByLabel, userLabel, requestIDLabel.
  rewrite !lookup_insert_ne by discriminate. apply lookup_insert_eq.
Qed.

Lemma requestLabel_id id : requestLabel id !! requestIDLabel = Some id.
Proof. apply lookup_insert_eq. Qed.

Ltac not_success :=
  let Hb := fresh "Hb" in
  intros (? & Hb); wcbn;
  first [ apply (f_equal (@length LogEntry)) in Hb; cbn [length app] in Hb; lia
        | open_facts; split_agree; wcbn; revert Hb; chase; intros Hb;
          apply (f_equal (fun l => ClassName <$> head l)) in Hb; discriminate Hb ].

(** A run of [createClusterAccess] that reports success has added
    exactly two clones and two Access Declarations, all under the one
    correlation id it drew, each declaration targeting the other side's
    clone, with reciprocal directions. *)
Lemma createClusterAccess_success p cl payload w :
  let w' := final (createClusterAccess p cl payload w) in
  succeededWith "Service" w w' ->
  oneGrantAdded (Payload.Direction payload) w w' (uuids (env w) (uuidCount w)).
Proof.
  unfold createClusterAccess, succeededWith, successReport.
  destruct (getOverridePorts _) as [ports|e]; [|rewrite sendError_Some; not_success].
  destruct (Split (Payload.SourceService payload) "/") as [|sNs [|sName [|]]];
    try (rewrite sendError_Some; not_success).
  destruct (Split (Payload.TargetService payload) "/") as [|tNs [|tName [|]]];
    try (rewrite sendError_Some; not_success).
  unfold uuidNew, randSuffixOf, orPanic. munfold. cbv beta iota.
  destruct (slice_to _ _) as [suffix|]; [|not_success].
  cbv beta iota.
  match goal with
  | |- context [CloneService ?a ?b ?c ?d ?e ?f ?w0] =>
      destruct (CloneService_step a b c d e f w0) as (r1 & w1 & -> & Hr1);
      destruct r1 as [c1|err]; cbv beta iota; [|rewrite sendError_Some; not_success];
      destruct Hr1 as ((orig1 & Ho1 & Hc1) & _ & Hn1 & (t1 & Ha1) & _);
      destruct (clonedServiceOf_meta orig1 b c d e f) as (Hname1 & _ & Hl1 & _);
      rewrite <- Hc1 in Hname1, Hl1; clear Hc1 Ho1
  end.
  match goal with
  | |- context [CloneService ?a ?b ?c ?d ?e ?f ?w0] =>
      destruct (CloneService_step a b c d e f w0) as (r2 & w2 & -> & Hr2);
      destruct r2 as [c2|err]; cbv beta iota;
      [|rewrite sendError_Some; cbv beta iota; step_cleanup; not_success];
      destruct Hr2 as ((orig2 & Ho2 & Hc2) & _ & Hn2 & (t2 & Ha2) & _);
      destruct (clonedServiceOf_meta orig2 b c d e f) as (Hname2 & _ & Hl2 & _);
      rewrite <- Hc2 in Hname2, Hl2; clear Hc2 Ho2
  end.
  pose proof (fullDirections_reciprocal (Payload.Direction payload)) as Hrec.
  destruct (fullDirections _) as [sourceDirection targetDirection].
  step_create; [rewrite sendError_Some; cbv beta iota; do 2 step_cleanup; not_success|].
  step_create; [rewrite sendError_Some; cbv beta iota; do 3 step_cleanup; not_success|].
  intros _. unfold Logger.Info, logAndBroadcast. munfold. cbv beta iota.
  destruct Hc as [Hna1 Haa1]. destruct Hc0 as [Hna2 Haa2].
  split_agree. unfold oneGrantAdded.
  match goal with
  | H1 : accesses ?wa = <[_ := ?a1]> _, H2 : accesses _ = <[_ := ?a2]> (accesses ?wa) |- _ =>
      exists (stamp t1 c1), (stamp t2 c2), a1, a2
  end.
  unfold keyOf in *. wcbn. cbn [stamp meta setMeta ServiceObject AccessObject] in *. wcbn.
  chase. norm_lookups.
  repeat match goal with |- _ /\ _ => split end;
    first [ assumption | exact Hrec | reflexivity | apply accessLabels_id
          | rewrite Hl1; apply requestLabel_id | rewrite Hl2; apply requestLabel_id
          | congruence ].
Qed.

(** C2 fails on the code: one [requestClusterAccess] of a fully
    authorised user leaves two grants, four clones and four Access
    Declarations under two correlation ids, and reports success twice. *)
Theorem requestClusterAccess_grants_twice :
  let w' := final (handleRequestClusterAccess Scenario.aliceSession
                     (Scenario.request "requestClusterAccess")
                     (Scenario.cluster Scenario.calm Scenario.allowAll)) in
  Scenario.labelled (T:=Service) (requestIDLabel, Scenario.uuid0) w' =
    [("team-b", "nc-7be363aa9b71-30623165"); ("team-a", "nc-650e999d890d-30623165")]
  /\ Scenario.labelled (T:=Service) (requestIDLabel, Scenario.uuid1) w' =
       [("team-a", "netwatch-clone-svc1-37633965"); ("team-b", "netwatch-clone-svc2-37633965")]
  /\ Scenario.labelled (T:=Access) (managedByLabel, "netwatch") w' =
       [ ("team-a", "access-nc-650e999d890d-30623165");
         ("team-a", "access-netwatch-clone-svc1-37633965");
         ("team-b", "access-nc-7be363aa9b71-30623165");
         ("team-b", "access-netwatch-clone-svc2-37633965") ]
  /\ map Payload (broadcast w') =
       [ "--- Request complete ---";
         "SUCCESS: Temporary access policies created for 600s.";
         "--- Request complete ---";
         "SUCCESS: Temporary access policies created for 600s." ].
Proof. vm_compute. repeat split. Qed.

(** *** Partial submission, approval and denial *)

(** C3 fails on the code: the remote clone name recorded at submission
    is [netwatch-clone-svc2-30623165], the clone the approval creates is
    [nc-svc2-30623165]; after approval the source-side declaration still
    names a Service that does not exist. *)
Theorem approval_clone_is_not_the_forward_reference :
  let w1 := final (handleSubmitAccessRequest Scenario.aliceSession
                     (Scenario.request "submitAccessRequest")
                     (Scenario.cluster Scenario.calm Scenario.aliceInTeamA)) in
  let w2 := final (handleApproveAccessRequest Scenario.bobSession
                     (Scenario.byRequestName "approveAccessRequest"
                        "ar-alice-example-com-0b1e4f6a") w1) in
  (Status ∘ arSpec) <$> accessRequests w1 !! ("", "ar-alice-example-com-0b1e4f6a")
    = Some "PendingTarget"
  /\ accTargets <$> accesses w1 !! ("team-a", "access-nc-svc1-30623165")
     = Some [MkPoint "netwatch-clone-svc2-30623165" "team-b"]
  /\ Scenario.labelled (T:=Service) (requestIDLabel, Scenario.uuid0) w2 =
       [("team-a", "nc-svc1-30623165"); ("team-b", "nc-svc2-30623165")]
  /\ accTargets <$> accesses w2 !! ("team-a", "access-nc-svc1-30623165")
     = Some [MkPoint "netwatch-clone-svc2-30623165" "team-b"]
  /\ services w2 !! ("team-b", "netwatch-clone-svc2-30623165") = None
  /\ accessRequests w2 !! ("", "ar-alice-example-com-0b1e4f6a") = None.
Proof. vm_compute. repeat split. Qed.

Ltac deny_leaf w :=
  unfold sendError, Logger.Error, Logger.Warn, logAndBroadcast; munfold; wcbn; chase;
  match goal with
  | |- exists calls, ?t = _ /\ _ => let L := prefix_of t (trace w) in exists L
  end;
  split; [reflexivity|];
  let Hin := fresh "Hin" in
  intros ? ? ? ? Hin; cbn [In] in Hin;
  repeat match type of Hin with _ \/ _ => destruct Hin as [Hin|Hin] end;
  first [ discriminate Hin | contradiction | eexists; cbn [In]; eauto 10 ].

Ltac deny_request_delete w :=
  match goal with
  | |- context [Api.Delete AccessRequest ?cl ?ns ?n ?w0] =>
      let e := fresh "e" in let w1 := fresh "w" in let Ht := fresh "Ht" in
      destruct (Delete_step (T:=AccessRequest) cl ns n w0) as (e & w1 & -> & Ht & _);
      destruct e; cbv beta iota; deny_leaf w
  end.

Ltac deny_tail w :=
  unfold GetImpersonatingKubeClient; munfold;
  destruct (verifyToken _ _); cbv beta iota; [|deny_leaf w];
  destruct (_ || _); cbv beta iota;
  [ destruct (if String.eqb _ _ then _ else _) as [? ?]; cbv beta iota;
    match goal with
    | |- context [Api.Delete Access ?cl ?ns ?n ?w0] =>
        let e := fresh "e" in let w1 := fresh "w" in let Ht := fresh "Ht" in
        destruct (Delete_step (T:=Access) cl ns n w0) as (e & w1 & -> & Ht & _);
        destruct e as [?err|]; [destruct (negb (IsNotFound _))|]; cbv beta iota;
        rewrite ?sendError_Some; deny_request_delete w
    end
  | deny_request_delete w ].

(** Whenever [handleDenyAccessRequest] has a delete of an Access
    Declaration fail, it goes on to delete the request record. *)
Lemma deny_attempts_request_delete p payload w :
  let w' := final (handleDenyAccessRequest p payload w) in
  exists calls, trace w' = (calls ++ trace w)%list /\
    forall cl ns n e, In (Call cl (OpDelete KAccess ns n), Some e) calls ->
      exists r, In (Call AppClient (OpDelete KAccessRequest "" (Payload.RequestID payload)), r)
                   calls.
Proof.
  unfold handleDenyAccessRequest, GetAccessRequestAsApp, DeleteAccessRequestAsApp, DeleteAccess,
    Logger.Info.
  munfold.
  match goal with
  | |- context [Api.Get AccessRequest ?cl ?ns ?n ?w0] =>
      destruct (Get_step (T:=AccessRequest) cl ns n w0) as (r & w1 & -> & _ & Ht1 & _)
  end.
  destruct r as [request|e]; cbv beta iota; [|deny_leaf w].
  destruct (String.eqb _ _); cbv beta iota.
  2: { unfold CanPerformAction, perform. munfold.
       destruct (faults _ _ _) as [ft|]; cbv beta iota; [deny_leaf w|].
       cbn [fst snd]. destruct (allowed _ _); cbn [negb]; cbv beta iota; [|deny_leaf w].
       deny_tail w. }
  cbn [negb]. cbv iota. deny_tail w.
Qed.

(** C4 fails on the code: the owner aborts a [PendingTarget] request,
    the delete of its Access Declaration is refused, the failure is
    reported, and the request record is deleted all the same; the
    declaration survives without its request. *)
Theorem deny_deletes_request_after_failed_cleanup :
  let w1 := final (handleSubmitAccessRequest Scenario.aliceSession
                     (Scenario.request "submitAccessRequest")
                     (Scenario.cluster Scenario.calm Scenario.aliceInTeamA)) in
  let w2 := final (handleDenyAccessRequest Scenario.aliceSession
                     (Scenario.byRequestName "denyAccessRequest"
                        "ar-alice-example-com-0b1e4f6a")
                     (Scenario.withFaults Scenario.noAccessDelete w1)) in
  (Status ∘ arSpec) <$> accessRequests w1 !! ("", "ar-alice-example-com-0b1e4f6a")
    = Some "PendingTarget"
  /\ map (fun c => (op c.1, reason <$> c.2)) (firstn 2 (trace w2)) =
       [ (OpDelete KAccessRequest "" "ar-alice-example-com-0b1e4f6a", None);
         (OpDelete KAccess "team-a" "access-nc-svc1-30623165", Some (Injected Forbidden)) ]
  /\ accessRequests w2 !! ("", "ar-alice-example-com-0b1e4f6a") = None
  /\ is_Some (accesses w2 !! ("team-a", "access-nc-svc1-30623165"))
  /\ map Payload (firstn 3 (broadcast w2)) =
       [ "Request from alice@example.com was aborted by the owner.";
         "--- Request failed ---";
         "REQUEST FAILED: Failed to clean up orphaned Access object. Manual cleanup may be required. - accesses.maxtac.vtk.io is forbidden" ].
Proof. vm_compute. repeat split. eexists. reflexivity. Qed.

(** *** The permission oracle *)

Lemma verdictsFrom_env w w1 u t l :
  env w1 = env w -> verdictsFrom w1 u t l = verdictsFrom w u t l.
Proof.
  intros He. revert t. induction l as [|p l IH]; intros t; [reflexivity|].
  cbn. unfold verdictAt. rewrite He. by rewrite IH.
Qed.

Lemma checkOne_step u p w :
  exists r w1, checkOne u p w = Ret r w1 /\ agree w1 w /\ clock w1 = S (clock w) /\
    forall rest,
      verdictOfWait (firstError (r :: rest)) =
      match verdictAt w u (clock w) p with
      | Allowed => verdictOfWait (firstError rest)
      | Denied => (false, None)
      | Failed e => (false, Some (Errorf "failed to create subjectaccessreview: " e))
      end.
Proof.
  unfold checkOne, CanPerformAction, perform, verdictAt, reviewOf. munfold.
  destruct (faults _ _ _) as [ft|]; cbv beta iota.
  - eexists _, _. split; [reflexivity|]. repeat split.
  - cbn [fst snd]. destruct (allowed _ _); cbn [negb]; cbv iota.
    + eexists _, _. split; [reflexivity|]. repeat split.
    + eexists _, _. split; [reflexivity|]. repeat split.
Qed.

Lemma forEach_checkOne u l w :
  exists rs w1, forEach (checkOne u) l w = Ret rs w1 /\ agree w1 w /\
    verdictOfWait (firstError rs) = decidedByFirst (verdictsFrom w u (clock w) l).
Proof.
  revert w. induction l as [|p l IH]; intros w.
  - eexists _, _. split; [reflexivity|]. split; [apply agree_refl|reflexivity].
  - cbn [forEach]. munfold.
    destruct (checkOne_step u p w) as (r & w1 & -> & Ha & Hc & Hr).
    destruct (IH w1) as (rs & w2 & -> & Ha2 & Hrs).
    eexists _, _. split; [reflexivity|]. split; [agree_tac|].
    rewrite Hr. cbn [verdictsFrom decidedByFirst].
    rewrite Hrs, Hc. rewrite (verdictsFrom_env w w1) by apply Ha.
    destruct (verdictAt w u (clock w) p); reflexivity.
Qed.

Lemma CanPerformAllActions_step u perms w :
  exists w1, CanPerformAllActions u perms w =
             Ret (decidedByFirst (verdictsFrom w u (clock w) (completion (env w) perms))) w1
             /\ agreeButLog w1 w.
Proof.
  unfold CanPerformAllActions. munfold.
  destruct (forEach_checkOne u (completion (env w) perms) w) as (rs & w1 & -> & Ha & Hrs).
  rewrite <- Hrs. unfold verdictOfWait, Logger.Info. munfold.
  destruct (firstError rs) as [err|]; [destruct (HasPrefix _ _)|];
    eexists; (split; [reflexivity|]); agree_tac.
Qed.

Lemma forEach_checkOne_clock u l : forall w,
  clock (final (forEach (checkOne u) l w)) = (clock w + length l)%nat.
Proof.
  induction l as [|p l IH]; intros w; [cbn; lia|].
  cbn [forEach]. munfold.
  destruct (checkOne_step u p w) as (r & w1 & -> & _ & Hc & _).
  specialize (IH w1). destruct (forEach (checkOne u) l w1) as [rs w2|why w2]; cbn [final] in *;
    rewrite IH, Hc; cbn [length]; lia.
Qed.

(** The checks of a list take one tick of the clock each. *)
Lemma CanPerformAllActions_timed u perms w :
  exists w1, CanPerformAllActions u perms w =
             Ret (decidedByFirst (verdictsFrom w u (clock w) (completion (env w) perms))) w1
             /\ agreeButLog w1 w
             /\ clock w1 = (clock w + length (completion (env w) perms))%nat.
Proof.
  destruct (CanPerformAllActions_step u perms w) as (w1 & E & Ha).
  exists w1. split; [exact E|]. split; [exact Ha|].
  revert E. unfold CanPerformAllActions. munfold.
  pose proof (forEach_checkOne_clock u (completion (env w) perms) w) as Hc.
  destruct (forEach (checkOne u) (completion (env w) perms) w) as [rs w2|why w2];
    cbn [final] in Hc; [|discriminate].
  unfold Logger.Info. munfold.
  destruct (firstError rs) as [err|]; [destruct (HasPrefix _ _)|];
    intros [= _ <-]; exact Hc.
Qed.

Lemma verdicts_answered w u t l :
  reviewsAnswered w ->
  decidedByFirst (verdictsFrom w u t l) =
  (forallb (fun p => allowed (env w) (reviewOf u p)) l, None).
Proof.
  intros Hans. revert t. induction l as [|p l IH]; intros t; [reflexivity|].
  cbn [verdictsFrom forallb]. unfold verdictAt at 1. rewrite Hans.
  destruct (allowed _ _); cbn [decidedByFirst andb]; [apply IH|reflexivity].
Qed.

Lemma forallb_same_elements {A} (f : A -> bool) l l' :
  (forall x, In x l <-> In x l') -> forallb f l = forallb f l'.
Proof.
  intros Hin. apply eq_true_iff_eq. rewrite !forallb_forall.
  split; intros Hf x Hx; apply Hf, Hin, Hx.
Qed.

(** Where every review is answered the aggregate is the conjunction of
    the verdicts of the authorization subsystem, and no error. *)
Lemma CanPerformAllActions_answered u perms w0 w :
  env w0 = env w -> reviewsAnswered w -> completesAll w ->
  exists w1, CanPerformAllActions u perms w0 =
             Ret (forallb (fun p => allowed (env w) (reviewOf u p)) perms, None) w1
             /\ agreeButLog w1 w0.
Proof.
  intros He Hans Hall.
  destruct (CanPerformAllActions_step u perms w0) as (w1 & E & Ha).
  exists w1. split; [|exact Ha]. rewrite E. f_equal.
  rewrite (verdictsFrom_env w w0) by exact He. rewrite verdicts_answered by exact Hans.
  rewrite He. f_equal. apply forallb_same_elements, Hall.
Qed.

Lemma decidedByFirst_true vs :
  (decidedByFirst vs).1 = true <-> Forall (eq Allowed) vs.
Proof.
  induction vs as [|v vs IH]; cbn.
  - split; [constructor|reflexivity].
  - destruct v; cbn.
    + rewrite IH. split; [by constructor|by inversion 1].
    + split; [discriminate|]. inversion 1. discriminate.
    + split; [discriminate|]. inversion 1. discriminate.
Qed.

(** C7 (as amended).  [CanPerformAllActions] returns what the first
    check that is not allowed, in completion order, decides: [(true, nil)]
    exactly when every check is allowed; a denial first gives
    [(false, nil)]; a failed evaluation first gives [(false, err)] with a
    non-nil error.  Hence it is the logical AND of the verdicts whenever
    no evaluation fails, and without a denial an error is returned
    exactly when an evaluation fails; where every review is answered
    the result is the conjunction of the verdicts of the authorization
    subsystem over the list, with a nil error. *)
Theorem CanPerformAllActions_first_failure u perms w :
  let vs := verdictsFrom w u (clock w) (completion (env w) perms) in
  returned (CanPerformAllActions u perms w) = Some (decidedByFirst vs)
  /\ ((decidedByFirst vs).1 = true <-> Forall (eq Allowed) vs)
  /\ ((decidedByFirst vs).1 = true -> (decidedByFirst vs).2 = None)
  /\ ((forall e, ~ In (Failed e) vs) -> decidedByFirst vs = (forallb isAllowed vs, None))
  /\ (~ In Denied vs -> ((decidedByFirst vs).2 <> None <-> exists e, In (Failed e) vs))
  /\ (reviewsAnswered w -> completesAll w ->
      returned (CanPerformAllActions u perms w) =
      Some (forallb (fun p => allowed (env w) (reviewOf u p)) perms, None)).
Proof.
  intros vs.
  assert (Hand : reviewsAnswered w -> completesAll w ->
                 returned (CanPerformAllActions u perms w) =
                 Some (forallb (fun p => allowed (env w) (reviewOf u p)) perms, None)).
  { intros Hans Hall.
    destruct (CanPerformAllActions_answered u perms w w eq_refl Hans Hall) as (w1 & -> & _).
    reflexivity. }
  destruct (CanPerformAllActions_step u perms w) as (w1 & E & _).
  split; [rewrite E; reflexivity|]. split; [apply decidedByFirst_true|].
  clear E. clearbody vs.
  split; [|split; [|split; [|exact Hand]]].
  - induction vs as [|[] vs IH]; cbn; auto. discriminate.
  - intros Hno. induction vs as [|[] vs IH]; cbn; auto.
    + apply IH. intros e He. apply (Hno e). by right.
    + exfalso. apply (Hno e). by left.
  - intros Hno. induction vs as [|[] vs IH]; cbn.
    + split; [congruence|]. intros (e & []).
    + rewrite IH by (intros Hd; apply Hno; by right).
      split; intros (e & He); exists e; [by right|]. destruct He as [He|He]; [discriminate|done].
    + exfalso. apply Hno. by left.
    + split; [|discriminate]. intros _. exists e. by left.
Qed.

(** C7, as stated, fails when the evaluation of one check fails before
    a denied one completes: the checks in [team-b] are denied, the review
    in [team-a] is unavailable, and an error is returned. *)
Lemma denied_check_but_error_returned :
  let w := Scenario.cluster Scenario.reviewsDownInTeamA Scenario.denyTeamB in
  let perms := directGrantPermissions "team-a" "team-b" in
  verdictsFrom w Scenario.alice (clock w) (completion (env w) perms) =
    [ Failed (MkError (Injected Unavailable) "the server is currently unable to handle the request");
      Denied;
      Failed (MkError (Injected Unavailable) "the server is currently unable to handle the request");
      Denied ]
  /\ returned (CanPerformAllActions Scenario.alice perms w) =
       Some (false,
             Some (MkError (Injected Unavailable)
                     "failed to create subjectaccessreview: the server is currently unable to handle the request")).
Proof. vm_compute. split; reflexivity. Qed.

(** *** Single-sided declarations *)

Lemma partialDirection_spec requested isSource :
  directionAsSpecified requested isSource (partialDirection requested isSource).
Proof.
  unfold directionAsSpecified, partialDirection.
  destruct (String.eqb_spec requested "egress") as [He|He];
    destruct (String.eqb_spec requested "ingress") as [Hi|Hi];
    destruct isSource; cbn; repeat split; intros; subst;
    try reflexivity; try discriminate; intuition congruence.
Qed.

Lemma createPartialAccess_step p cl localNs localName remoteNs remoteName reqID payload isSource w :
  let o := createPartialAccess p cl localNs localName remoteNs remoteName reqID payload isSource w in
  onlyGrants w (final o) /\
  match o with
  | Ret (Ok cloneName) w' =>
      exists suffix a,
        slice_to 8 (hexEncode reqID) = Some suffix /\
        cloneName = "nc-" ++ localName ++ "-" ++ suffix /\
        oneCloneAdded w w' localNs localName cloneName reqID /\
        oneAccessAdded w w' localNs ("access-" ++ cloneName) a /\
        accDirection a = partialDirection (Payload.Direction payload) isSource /\
        accTargets a = [MkPoint ("netwatch-clone-" ++ remoteName ++ "-" ++ suffix) remoteNs] /\
        Labels (accMeta a) = accessLabels (sanitizedUsername p) reqID
  | Ret (Err _) w' => accesses w' = accesses w
  | Panic _ w' => agree w' w
  end.
Proof.
  unfold createPartialAccess, onlyGrants.
  destruct (getOverridePorts _) as [ports|e]; [|repeat split].
  unfold randSuffixOf, orPanic. munfold.
  destruct (slice_to _ _) as [suffix|]; [|repeat split].
  cbv beta iota.
  destruct (CloneService_step cl localNs localName ("nc-" ++ localName ++ "-" ++ suffix)
              (requestLabel reqID) ports w) as (r & w1 & -> & Hr).
  destruct r as [c|err]; cbv beta iota.
  2: { open_facts. split_agree. repeat split; congruence. }
  destruct Hr as ((orig & Horig & Hc) & _ & Hnone & (t & Ha) & _).
  destruct (clonedServiceOf_meta orig localNs localName ("nc-" ++ localName ++ "-" ++ suffix)
              (requestLabel reqID) ports) as (Hn & Hns & Hl & _).
  rewrite <- Hc in Hn, Hns, Hl. unfold keyOf in *. cbn [meta ServiceObject] in *.
  rewrite Hn, Hns in *. clear Hc.
  step_create.
  - step_cleanup. open_facts. split_agree. repeat split; congruence.
  - destruct Hc as [Hnone' Ha']. unfold keyOf in *. wcbn.
    split_agree. split; [repeat split; etransitivity; eassumption|].
    match goal with Hacc : accesses _ = <[_ := ?a]> _ |- _ => exists suffix, a end.
    split; [reflexivity|]. split; [reflexivity|].
    split.
    + exists orig, (stamp t c).
      split; [exact Horig|]. split; [exact Hnone|]. split; [exact Hn|]. split; [exact Hns|].
      split; [exact Hl|]. congruence.
    + split; [|repeat split].
      split; [congruence|]. split; [reflexivity|]. split; [reflexivity|]. congruence.
Qed.

Lemma approvePartialRequest_step p cl request (approvingSourceSide : bool) w :
  let spec := arSpec request in
  let localService := if approvingSourceSide then SourceService spec else TargetService spec in
  let remoteService := if approvingSourceSide then TargetService spec else SourceService spec in
  let o := approvePartialRequest p cl request approvingSourceSide w in
  onlyGrants w (final o) /\
  match o with
  | Ret None w' =>
      exists localNs localName remoteNs suffix a,
        nth_error (Split localService "/") 0 = Some localNs /\
        nth_error (Split localService "/") 1 = Some localName /\
        nth_error (Split remoteService "/") 0 = Some remoteNs /\
        slice_to 8 (hexEncode (RequestID spec)) = Some suffix /\
        oneCloneAdded w w' localNs localName ("nc-" ++ localName ++ "-" ++ suffix)
          (RequestID spec) /\
        oneAccessAdded w w' localNs ("access-" ++ "nc-" ++ localName ++ "-" ++ suffix) a /\
        accDirection a =
          partialDirection (Direction spec) (String.eqb (Status spec) "PendingSource") /\
        accTargets a =
          [MkPoint (if approvingSourceSide then TargetCloneName spec else SourceCloneName spec)
                   remoteNs] /\
        Labels (accMeta a) = accessLabels (sanitizedUsername p) (RequestID spec)
  | Ret (Some _) w' => accesses w' = accesses w
  | Panic _ w' => agree w' w
  end.
Proof.
  unfold approvePartialRequest, onlyGrants, index, orPanic. munfold.
  destruct approvingSourceSide.
  all: match goal with
       | |- context [nth_error (Split ?l "/") 0] =>
           destruct (nth_error (Split l "/") 0) as [localNs|]; [|repeat split];
           destruct (nth_error (Split l "/") 1) as [localName|]; [|repeat split]
       end; cbv beta iota.
  all: match goal with
       | |- context [nth_error (Split ?l "/") 0] =>
           destruct (nth_error (Split l "/") 0) as [remoteNs|]; [|repeat split]
       end; cbv beta iota.
  all: destruct (getOverridePorts _) as [ports|e]; [|repeat split].
  all: unfold randSuffixOf, orPanic; munfold.
  all: destruct (slice_to _ _) as [suffix|]; [|repeat split]; cbv beta iota.
  all: destruct (CloneService_step cl localNs localName ("nc-" ++ localName ++ "-" ++ suffix)
              (requestLabel (RequestID (arSpec request))) ports w) as (r & w1 & -> & Hr);
    destruct r as [c|err]; cbv beta iota;
    [|open_facts; split_agree; repeat split; congruence].
  all: destruct Hr as ((orig & Horig & Hc) & _ & Hnone & (t & Ha) & _);
    destruct (clonedServiceOf_meta orig localNs localName ("nc-" ++ localName ++ "-" ++ suffix)
              (requestLabel (RequestID (arSpec request))) ports) as (Hn & Hns & Hl & _);
    rewrite <- Hc in Hn, Hns, Hl; unfold keyOf in *; cbn [meta ServiceObject] in *;
    rewrite Hn, Hns in *; clear Hc.
  all: step_create;
    [step_cleanup; open_facts; split_agree; repeat split; congruence|].
  all: destruct Hc as [Hnone' Ha']; unfold keyOf in *; wcbn;
    split_agree; (split; [repeat split; etransitivity; eassumption|]);
    match goal with
    | Hacc : accesses _ = <[_ := ?a]> _ |- _ => exists localNs, localName, remoteNs, suffix, a
    end;
    do 4 (split; [reflexivity|]);
    (split;
     [exists orig, (stamp t c);
      split; [exact Horig|]; split; [exact Hnone|]; split; [exact Hn|]; split; [exact Hns|];
      split; [exact Hl|]; congruence
     |split; [|repeat split];
      split; [congruence|]; split; [reflexivity|]; split; [reflexivity|]; congruence]).
Qed.

(** The name recorded at submission as the remote clone is never the
    name of the clone an approval creates: the one starts with
    [netwatch-clone-], the other with [nc-]. *)
Lemma forward_reference_is_never_created
    p cl localNs localName remoteNs remoteName reqID payload isSource w cloneName w' :
  createPartialAccess p cl localNs localName remoteNs remoteName reqID payload isSource w
    = Ret (Ok cloneName) w' ->
  exists a t,
    accesses w' !! (localNs, "access-" ++ cloneName) = Some a /\ accTargets a = [t] /\
    forall p' cl' request side w2 w3,
      approvePartialRequest p' cl' request side w2 = Ret None w3 ->
      forall k c, services w2 !! k = None -> services w3 !! k = Some c ->
        Name (svcMeta c) <> ServiceName t.
Proof.
  intros E.
  pose proof (createPartialAccess_step p cl localNs localName remoteNs remoteName reqID
                payload isSource w) as [_ Hs].
  rewrite E in Hs. destruct Hs as (suffix & a & _ & _ & _ & (_ & _ & _ & Hacc) & _ & Ht & _).
  exists a, (MkPoint ("netwatch-clone-" ++ remoteName ++ "-" ++ suffix) remoteNs).
  split; [rewrite Hacc; apply lookup_insert_eq|]. split; [exact Ht|].
  intros p' cl' request side w2 w3 E2 k c Hnone Hsome.
  pose proof (approvePartialRequest_step p' cl' request side w2) as [_ Hs].
  rewrite E2 in Hs.
  destruct Hs as (lNs & lName & rNs & suffix' & a' & _ & _ & _ & _ & Hclone & _).
  destruct Hclone as (orig & c' & _ & _ & Hname & _ & _ & Hsvc).
  rewrite Hsvc in Hsome.
  destruct (decide ((Namespace (svcMeta orig), "nc-" ++ lName ++ "-" ++ suffix') = k)) as [<-|Hne].
  - rewrite lookup_insert_eq in Hsome. injection Hsome as <-. rewrite Hname.
    cbn [ServiceName]. cbv [String.append]. discriminate.
  - rewrite lookup_insert_ne in Hsome by exact Hne. congruence.
Qed.

(** C8.  The one Access Declaration that [createPartialAccess] adds when
    it succeeds, and the one that [approvePartialRequest] adds (with
    [isSource] taken as [Status == "PendingSource"]), has the direction
    the specification's table gives for the requested direction and the
    local side; when either fails no Access Declaration is added. *)
Theorem single_sided_direction :
  (forall p cl localNs localName remoteNs remoteName reqID payload isSource w,
     match createPartialAccess p cl localNs localName remoteNs remoteName reqID payload
             isSource w with
     | Ret (Ok cloneName) w' =>
         exists a, oneAccessAdded w w' localNs ("access-" ++ cloneName) a /\
           directionAsSpecified (Payload.Direction payload) isSource (accDirection a)
     | Ret (Err _) w' | Panic _ w' => accesses w' = accesses w
     end)
  /\ (forall p cl request approvingSourceSide w,
     match approvePartialRequest p cl request approvingSourceSide w with
     | Ret None w' =>
         exists ns n a, oneAccessAdded w w' ns n a /\
           directionAsSpecified (Direction (arSpec request))
             (String.eqb (Status (arSpec request)) "PendingSource") (accDirection a)
     | Ret (Some _) w' | Panic _ w' => accesses w' = accesses w
     end).
Proof.
  split.
  - intros.
    pose proof (createPartialAccess_step p cl localNs localName remoteNs remoteName reqID
                  payload isSource w) as [_ Hs].
    destruct (createPartialAccess _ _ _ _ _ _ _ _ _ _) as [[cloneName|e] w'|why w'].
    + destruct Hs as (suffix & a & _ & _ & _ & Hadd & Hd & _).
      exists a. split; [exact Hadd|]. rewrite Hd. apply partialDirection_spec.
    + exact Hs.
    + apply Hs.
  - intros.
    pose proof (approvePartialRequest_step p cl request approvingSourceSide w) as [_ Hs].
    destruct (approvePartialRequest _ _ _ _ _) as [[e|] w'|why w'].
    + exact Hs.
    + destruct Hs as (localNs & localName & remoteNs & suffix & a & _ & _ & _ & _ & _ & Hadd & Hd & _).
      eexists localNs, _, a. split; [exact Hadd|]. rewrite Hd. apply partialDirection_spec.
    + apply Hs.
Qed.

(** An ingress request created on the source side gives an [ingress]
    declaration. *)
Lemma single_sided_direction_example :
  let w := Scenario.cluster Scenario.calm Scenario.allowAll in
  let run := createPartialAccess Scenario.aliceSession (Impersonating Scenario.alice)
               "team-a" "svc1" "team-b" "svc2" Scenario.uuid0
               (Scenario.request "submitAccessRequest") true in
  returned (run w) = Some (Ok "nc-svc1-30623165") /\
  exists a, accesses (final (run w)) !! ("team-a", "access-nc-svc1-30623165") = Some a /\
            accDirection a = "ingress".
Proof.
  intros w run.
  pose proof (proj1 single_sided_direction Scenario.aliceSession (Impersonating Scenario.alice)
                "team-a" "svc1" "team-b" "svc2" Scenario.uuid0
                (Scenario.request "submitAccessRequest") true w) as Hs.
  change (createPartialAccess _ _ _ _ _ _ _ _ _) with run in Hs.
  assert (Hrun : run w = Ret (Ok "nc-svc1-30623165") (final (run w))) by (vm_compute; reflexivity).
  rewrite Hrun in Hs. split; [rewrite Hrun; reflexivity|].
  destruct Hs as (a & (_ & _ & _ & Hacc) & _ & Hd & _).
  exists a. split.
  - rewrite Hacc. apply lookup_insert_eq.
  - apply Hd. left. split; reflexivity.
Defined.

(** *** Submission for review *)

Lemma oneCloneAdded_ext w1 w1' w w' ns n new id :
  services w1 = services w -> services w1' = services w' ->
  oneCloneAdded w1 w1' ns n new id -> oneCloneAdded w w' ns n new id.
Proof. unfold oneCloneAdded. intros <- <-. auto. Qed.

Lemma oneAccessAdded_ext w1 w1' w w' ns n a :
  accesses w1 = accesses w -> accesses w1' = accesses w' ->
  oneAccessAdded w1 w1' ns n a -> oneAccessAdded w w' ns n a.
Proof. unfold oneAccessAdded. intros <- <-. auto. Qed.

Lemma submit_step (cr : AccessRequest) w0 :
  Namespace (arMeta cr) = "" ->
  let submit :=
    e ← CreateAccessRequestAsApp cr;
    match e with
    | Some err => sendError "Failed to submit AccessRequest" (Some err) "Request"
    | None =>
        logAndBroadcast
          (MkEntry "SUCCESS: Your access request has been submitted for review."
                   "log-success" "Request" "applyResult")
    end in
  services (final (submit w0)) = services w0 /\ accesses (final (submit w0)) = accesses w0 /\
  (accessRequests (final (submit w0)) = accessRequests w0
   \/ exists t, oneRequestAdded w0 (final (submit w0)) (stamp t cr)).
Proof.
  intros Hns submit. subst submit. munfold. step_create.
  - rewrite sendError_Some. destruct Hc as [Ha _]. split_agree. auto.
  - unfold logAndBroadcast. munfold. destruct Hc as [Hnone Ha]. split_agree.
    unfold keyOf in *. wcbn. rewrite Hns in *.
    split; [assumption|]. split; [assumption|]. right.
    match goal with
    | Hreq : accessRequests _ = <[_ := stamp ?t _]> _ |- _ =>
        exists t; split; [exact Hnone|]; split; [exact Hns|]; exact Hreq
    end.
Qed.

Lemma oneRequestAdded_ext w1 w w' r :
  accessRequests w1 = accessRequests w ->
  oneRequestAdded w1 w' r -> oneRequestAdded w w' r.
Proof. unfold oneRequestAdded. intros <-. auto. Qed.

Ltac submit_leaf E :=
  match type of E with
  | _ = final (match CreateAccessRequestAsApp ?cr ?w0 with _ => _ end) =>
      let Hs := fresh "Hs" in
      pose proof (submit_step cr w0 eq_refl) as Hs; cbv zeta in Hs; munfold;
      rewrite <- E in Hs; destruct Hs as (Hsv & Hac & [Hreq|(t & Hadd)]);
      [left; split_agree; congruence|right; exists (stamp t cr)]
  end.

(** Where every review is answered and every check is run, what
    [CanPerformAllActions] answers for a side is whether the requester
    holds the create rights of the side. *)
Lemma sideTaken_answered w u t ns :
  reviewsAnswered w -> completesAll w -> sideTaken w u t ns = sideAllowed w u ns.
Proof.
  intros Hans Hall. unfold sideTaken, sideAllowed.
  rewrite verdicts_answered by exact Hans. cbn [fst].
  apply forallb_same_elements, Hall.
Qed.

(** C5 (as amended).  A submission for review either adds no
    Access-Request or adds exactly one, whose status follows what the
    two calls of [CanPerformAllActions] answer for the source side and
    for the target side, the errors they return being dropped:
    [PendingFull] with no Service and no Access Declaration created
    when both sides or neither are taken for authorized, and for every
    external request; [PendingTarget] with the source clone and one
    Access Declaration created and the clone's name stored when only
    the source side is; [PendingSource], mirrored, when only the target
    side is.  A side is taken for authorized exactly when every one of
    its checks is evaluated and allowed, so a side with a check whose
    evaluation fails is taken for unauthorized; where every review is
    answered and the checks run are those of the side, a side is taken
    for authorized exactly when the requester holds its create rights. *)
Theorem submit_status_by_side_results p payload w :
  let u := userInfo p in
  let w' := final (handleSubmitAccessRequest p payload w) in
  (accessRequests w' = accessRequests w
   \/ exists r, oneRequestAdded w w' r /\ submittedAsDecided u payload w w' r)
  /\ (forall w0 ns,
        fst <$> returned (CanPerformAllActions u (sidePermissions ns) w0)
        = Some (sideTaken w0 u (clock w0) ns))
  /\ (forall t ns,
        sideTaken w u t ns = true <->
        Forall (eq Allowed) (verdictsFrom w u t (completion (env w) (sidePermissions ns))))
  /\ (reviewsAnswered w -> completesAll w ->
      forall t ns, sideTaken w u t ns = sideAllowed w u ns).
Proof.
  intros u w'.
  split; [|split; [|split]].
  2: { intros w0 ns.
       destruct (CanPerformAllActions_step u (sidePermissions ns) w0) as (w1 & -> & _).
       reflexivity. }
  2: { intros t ns. apply decidedByFirst_true. }
  2: { intros Hans Hall t ns. by apply sideTaken_answered. }
  subst u.
  assert (E : w' = final (handleSubmitAccessRequest p payload w)) by reflexivity.
  clearbody w'.
  unfold handleSubmitAccessRequest, Logger.Info, GetImpersonatingKubeClient in E.
  munfold. wcbn.
  destruct (verifyToken (env w) (idToken p)) as [u|e]; [|left; subst w'; reflexivity].
  unfold uuidNew, orPanic in E. munfold. wcbn.
  destruct (slice_to 8 _) as [prefix|]; [|left; subst w'; reflexivity].
  cbv beta iota in E.
  set (w0 := drewUUID _) in E.
  assert (A0 : env w0 = env w /\ services w0 = services w /\ accesses w0 = accesses w /\
               accessRequests w0 = accessRequests w /\ clock w0 = clock w) by (repeat split).
  clearbody w0. destruct A0 as (He0 & Hs0 & Ha0 & Hr0 & Hc0).
  unfold submittedAsDecided.
  destruct (String.eqb_spec (Payload.TargetService payload) "") as [Ht|Ht]; cbn [negb] in E;
    cbv iota in E.
  - submit_leaf E. split; [eapply oneRequestAdded_ext; eassumption|].
    destruct (decide _) as [_|Hn]; [|contradiction].
    split; [reflexivity|]. split; [reflexivity|]. split; congruence.
  - destruct (Split (Payload.SourceService payload) "/") as [|sNs [|sName [|]]];
      try (left; subst w'; exact Hr0).
    destruct (Split (Payload.TargetService payload) "/") as [|tNs [|tName [|]]];
      try (left; subst w'; exact Hr0).
    destruct (CanPerformAllActions_timed (userInfo p) (sidePermissions sNs) w0)
      as (w1 & E1 & A1 & C1).
    rewrite He0, Hc0, (verdictsFrom_env w w0) in E1 by exact He0.
    rewrite He0, Hc0 in C1.
    destruct (CanPerformAllActions_timed (userInfo p) (sidePermissions tNs) w1)
      as (w2 & E2 & A2 & _).
    assert (He1 : env w1 = env w) by (split_agree; congruence).
    rewrite He1, C1, (verdictsFrom_env w w1) in E2 by exact He1.
    assert (A : env w2 = env w /\ services w2 = services w /\ accesses w2 = accesses w /\
                accessRequests w2 = accessRequests w) by (split_agree; repeat split; congruence).
    fold (checksRun w sNs) in E2.
    assert (AS : sideTaken w (userInfo p) (clock w) sNs
                 = (decidedByFirst
                      (verdictsFrom w (userInfo p) (clock w)
                         (completion (env w) (sidePermissions sNs)))).1) by reflexivity.
    assert (AT : sideTaken w (userInfo p) (clock w + checksRun w sNs) tNs
                 = (decidedByFirst
                      (verdictsFrom w (userInfo p) (clock w + checksRun w sNs)
                         (completion (env w) (sidePermissions tNs)))).1) by reflexivity.
    destruct (decidedByFirst
                (verdictsFrom w (userInfo p) (clock w)
                   (completion (env w) (sidePermissions sNs)))) as [canSource e1].
    destruct (decidedByFirst
                (verdictsFrom w (userInfo p) (clock w + checksRun w sNs)
                   (completion (env w) (sidePermissions tNs)))) as [canTarget e2].
    cbn [fst] in AS, AT.
    rewrite E1 in E. cbv beta iota in E. rewrite E2 in E. cbv beta iota in E.
    clear E1 E2 A1 A2 He0 Hs0 Ha0 Hr0 Hc0 C1 He1. clear w0 w1.
    destruct A as (He & Hs & Ha & Hr).
    destruct canSource, canTarget; cbn [andb] in E; cbv beta iota in E.
    + submit_leaf E. split; [eapply oneRequestAdded_ext; [exact Hr|exact Hadd]|].
      destruct (decide _) as [|_]; [contradiction|]. split; [reflexivity|].
      exists sNs, sName, tNs, tName. split; [reflexivity|]. split; [reflexivity|].
      rewrite AS, AT. split; [reflexivity|]. wcbn. split; congruence.
    + match type of E with
      | context [createPartialAccess ?a ?b ?c ?d ?e ?f ?g ?h ?i ?wL] =>
          pose proof (createPartialAccess_step a b c d e f g h i wL) as [Hog Hstep];
          destruct (createPartialAccess a b c d e f g h i wL) as [[cloneName|err] w3|why w3]
      end; cbv beta iota in E; unfold onlyGrants in Hog; wcbn;
        destruct Hog as (_ & _ & Hog & _).
      * destruct Hstep as (suffix & a & _ & _ & Hclone & Hacc & _).
        submit_leaf E. split; [eapply oneRequestAdded_ext; [|exact Hadd]; congruence|].
        destruct (decide _) as [|_]; [contradiction|]. split; [reflexivity|].
        exists sNs, sName, tNs, tName. split; [reflexivity|]. split; [reflexivity|].
        rewrite AS, AT. split; [reflexivity|]. exists a. split.
        -- eapply oneCloneAdded_ext; [| |exact Hclone]; wcbn; congruence.
        -- eapply oneAccessAdded_ext; [| |exact Hacc]; wcbn; congruence.
      * left. subst w'. rewrite sendError_Some. wcbn. congruence.
      * left. subst w'. wcbn. congruence.
    + match type of E with
      | context [createPartialAccess ?a ?b ?c ?d ?e ?f ?g ?h ?i ?wL] =>
          pose proof (createPartialAccess_step a b c d e f g h i wL) as [Hog Hstep];
          destruct (createPartialAccess a b c d e f g h i wL) as [[cloneName|err] w3|why w3]
      end; cbv beta iota in E; unfold onlyGrants in Hog; wcbn;
        destruct Hog as (_ & _ & Hog & _).
      * destruct Hstep as (suffix & a & _ & _ & Hclone & Hacc & _).
        submit_leaf E. split; [eapply oneRequestAdded_ext; [|exact Hadd]; congruence|].
        destruct (decide _) as [|_]; [contradiction|]. split; [reflexivity|].
        exists sNs, sName, tNs, tName. split; [reflexivity|]. split; [reflexivity|].
        rewrite AS, AT. split; [reflexivity|]. exists a. split.
        -- eapply oneCloneAdded_ext; [| |exact Hclone]; wcbn; congruence.
        -- eapply oneAccessAdded_ext; [| |exact Hacc]; wcbn; congruence.
      * left. subst w'. rewrite sendError_Some. wcbn. congruence.
      * left. subst w'. wcbn. congruence.
    + submit_leaf E. split; [eapply oneRequestAdded_ext; [exact Hr|exact Hadd]|].
      destruct (decide _) as [|_]; [contradiction|]. split; [reflexivity|].
      exists sNs, sName, tNs, tName. split; [reflexivity|]. split; [reflexivity|].
      rewrite AS, AT. split; [reflexivity|]. wcbn. split; congruence.
Qed.

(** Alice holds the rights of [team-a] only: the request is filed as
    [PendingTarget].  And where Alice holds the rights of both sides but
    the reviews in [team-a] are unavailable, the source side is taken
    for unauthorized and the request is filed as [PendingSource]. *)
Lemma submit_status_example :
  (let w := Scenario.cluster Scenario.calm Scenario.aliceInTeamA in
   let w' := final (handleSubmitAccessRequest Scenario.aliceSession
                      (Scenario.request "submitAccessRequest") w) in
   exists r, oneRequestAdded w w' r /\ Status (arSpec r) = "PendingTarget")
  /\ (let w := Scenario.cluster Scenario.reviewsDownInTeamA Scenario.allowAll in
      let w' := final (handleSubmitAccessRequest Scenario.aliceSession
                         (Scenario.request "submitAccessRequest") w) in
      sideAllowed w Scenario.alice "team-a" = true
      /\ sideTaken w Scenario.alice 0 "team-a" = false
      /\ exists r, oneRequestAdded w w' r /\ Status (arSpec r) = "PendingSource").
Proof.
  split.
  - intros w w'.
    destruct (proj1 (submit_status_by_side_results Scenario.aliceSession
                       (Scenario.request "submitAccessRequest") w))
      as [Hsame|(r & Hadd & Hspec)].
    + exfalso.
      apply (f_equal (fun m => m !! ("", "ar-alice-example-com-0b1e4f6a"))) in Hsame.
      vm_compute in Hsame. discriminate Hsame.
    + exists r. split; [exact Hadd|].
      unfold submittedAsDecided in Hspec.
      destruct (decide _) as [Hx|_]; [discriminate Hx|].
      destruct Hspec as (_ & sNs & sName & tNs & tName & HS & HT & Hm).
      vm_compute in HS, HT. injection HS as <- <-. injection HT as <- <-.
      change (sideTaken w (userInfo Scenario.aliceSession) (clock w) "team-a") with true in Hm.
      change (sideTaken w (userInfo Scenario.aliceSession) (clock w + checksRun w "team-a")
                "team-b") with false in Hm.
      apply Hm.
  - intros w w'. split; [reflexivity|]. split; [reflexivity|].
    destruct (proj1 (submit_status_by_side_results Scenario.aliceSession
                       (Scenario.request "submitAccessRequest") w))
      as [Hsame|(r & Hadd & Hspec)].
    + exfalso.
      apply (f_equal (fun m => m !! ("", "ar-alice-example-com-0b1e4f6a"))) in Hsame.
      vm_compute in Hsame. discriminate Hsame.
    + exists r. split; [exact Hadd|].
      unfold submittedAsDecided in Hspec.
      destruct (decide _) as [Hx|_]; [discriminate Hx|].
      destruct Hspec as (_ & sNs & sName & tNs & tName & HS & HT & Hm).
      vm_compute in HS, HT. injection HS as <- <-. injection HT as <- <-.
      change (sideTaken w (userInfo Scenario.aliceSession) (clock w) "team-a") with false in Hm.
      change (sideTaken w (userInfo Scenario.aliceSession) (clock w + checksRun w "team-a")
                "team-b") with true in Hm.
      apply Hm.
Defined.

(** C5, as stated, fails where the evaluation of a review fails: Alice
    holds the rights of both sides, the reviews in [team-a] are
    unavailable, the handler drops the error and takes the source side
    for unauthorized; the target clone and its Access Declaration are
    created and the request is filed as [PendingSource]. *)
Lemma submit_partial_when_review_unavailable :
  let w := Scenario.cluster Scenario.reviewsDownInTeamA Scenario.allowAll in
  let w' := final (handleSubmitAccessRequest Scenario.aliceSession
                     (Scenario.request "submitAccessRequest") w) in
  sideAllowed w Scenario.alice "team-a" = true
  /\ sideAllowed w Scenario.alice "team-b" = true
  /\ (Status ∘ arSpec) <$> accessRequests w' !! ("", "ar-alice-example-com-0b1e4f6a")
     = Some "PendingSource"
  /\ (TargetCloneName ∘ arSpec) <$> accessRequests w' !! ("", "ar-alice-example-com-0b1e4f6a")
     = Some "nc-svc2-30623165"
  /\ Scenario.labelled (T:=Service) (requestIDLabel, Scenario.uuid0) w' =
       [("team-b", "nc-svc2-30623165")]
  /\ Scenario.labelled (T:=Access) (requestIDLabel, Scenario.uuid0) w' =
       [("team-b", "access-nc-svc2-30623165")].
Proof. vm_compute. repeat split. Qed.

(** *** Orphan detection *)

Lemma AddFinalizer_request (request : AccessRequest) f :
  arSpec (AddFinalizer request f) = arSpec request /\
  Name (arMeta (AddFinalizer request f)) = Name (arMeta request) /\
  Namespace (arMeta (AddFinalizer request f)) = Namespace (arMeta request).
Proof. unfold AddFinalizer. destruct (ContainsFinalizer _ _); repeat split. Qed.

Lemma RemoveFinalizer_request (request : AccessRequest) f :
  Name (arMeta (RemoveFinalizer request f)) = Name (arMeta request) /\
  Namespace (arMeta (RemoveFinalizer request f)) = Namespace (arMeta request).
Proof. repeat split. Qed.

(** The orphan check of [reconcileAccessRequest], from the world [w]. *)
Lemma orphan_check_step (request : AccessRequest) w :
  let o :=
    (if negb (isPartial (Status (arSpec request))) then mret None
     else
       let '(cloneName, namespace) := ownedSide (arSpec request) in
       let accessName := "access-" ++ cloneName in
       r ← Api.Get Access ReconcilerClient namespace accessName;
       match r with
       | Err err =>
           if IsNotFound err then
             Logger.Info "Orphaned partial access request found (Access object missing), cleaning up...";;
             e ← Api.Delete AccessRequest ReconcilerClient
                   (Namespace (arMeta request)) (Name (arMeta request));
             match e with
             | Some err =>
                 Logger.Error "Failed to delete orphaned AccessRequest" (Some err);;
                 mret (Some err)
             | None =>
                 Logger.Info "Successfully deleted orphaned AccessRequest.";;
                 mret None
             end
           else
             Logger.Error "Failed to check for orphaned access request" (Some err);;
             mret (Some err)
       | Ok _ => mret None
       end) w in
  exists calls result,
    trace (final o) = (calls ++ trace w)%list /\ returned o = Some result /\
    if isPartial (Status (arSpec request)) then orphanChecked request w calls result
    else calls = [].
Proof.
  destruct (isPartial (Status (arSpec request))); cbn [negb]; cbv iota zeta.
  2: { exists [], None. repeat split. }
  unfold orphanChecked, orphanLookup, orphanRemoval, expectedAccess.
  destruct (ownedSide (arSpec request)) as [cloneName namespace].
  munfold.
  destruct (Get_step (T:=Access) ReconcilerClient namespace ("access-" ++ cloneName) w)
    as (r & w1 & E & Ha & Ht & Hr).
  rewrite E. destruct r as [a|e]; cbv beta iota.
  - exists [(Call ReconcilerClient (OpGet KAccess namespace ("access-" ++ cloneName)), None)], None.
    wcbn. split; [exact Ht|]. split; [reflexivity|].
    exists None. split; [by left|]. split; [congruence|]. split; [reflexivity|].
    intros r' [Hin|[]]. discriminate Hin.
  - destruct Hr as [(ft & ->)|(Hnone & ->)].
    + unfold Logger.Error. munfold. wcbn.
      exists [(Call ReconcilerClient (OpGet KAccess namespace ("access-" ++ cloneName)),
               Some (faultError ft))], (Some (faultError ft)).
      split; [exact Ht|]. split; [reflexivity|].
      exists (Some (faultError ft)). split; [by left|]. cbn. split; [reflexivity|].
      intros r' [Hin|[]]. discriminate Hin.
    + unfold Logger.Info, Logger.Error. munfold. wcbn.
      destruct (Delete_step (T:=AccessRequest) ReconcilerClient (Namespace (arMeta request))
                  (Name (arMeta request))
                  (logged (MkLine LInfo "Orphaned partial access request found (Access object missing), cleaning up..." None) w1))
        as (e & w2 & E2 & Ht2 & _).
      rewrite E2. wcbn.
      exists [(Call ReconcilerClient (OpDelete KAccessRequest (Namespace (arMeta request))
                                        (Name (arMeta request))), e);
              (Call ReconcilerClient (OpGet KAccess namespace ("access-" ++ cloneName)),
               Some (notFound ("access-" ++ cloneName)))], e.
      split; [destruct e; wcbn; rewrite Ht2, Ht; reflexivity|].
      split; [destruct e; reflexivity|].
      exists (Some (notFound ("access-" ++ cloneName))). split; [right; by left|].
      cbn. split; [exact Hnone|]. by left.
Qed.

Lemma orphanChecked_after_update rq request w1 w calls result :
  arSpec rq = arSpec request ->
  Name (arMeta rq) = Name (arMeta request) ->
  Namespace (arMeta rq) = Namespace (arMeta request) ->
  accesses w1 = accesses w ->
  orphanChecked rq w1 calls result ->
  orphanChecked request w (calls ++ [(finalizerUpdate request, None)]) result.
Proof.
  unfold orphanChecked, orphanLookup, orphanRemoval, expectedAccess, finalizerUpdate.
  intros -> -> -> -> (r & Hin & Hr). exists r. split; [apply in_or_app; by left|].
  assert (Hnot : forall r', (forall r'', ~ In (Call ReconcilerClient
                     (OpDelete KAccessRequest (Namespace (arMeta request))
                        (Name (arMeta request))), r'') calls) ->
                   ~ In (Call ReconcilerClient
                     (OpDelete KAccessRequest (Namespace (arMeta request))
                        (Name (arMeta request))), r')
                     (calls ++ [(Call ReconcilerClient
                        (OpUpdate KAccessRequest (Namespace (arMeta request))
                           (Name (arMeta request))), None)])).
  { intros r' Hn [Hc|[Hc|[]]]%in_app_or; [by apply (Hn r')|discriminate Hc]. }
  destruct r as [e|].
  - destruct (IsNotFound e).
    + destruct Hr as [Hx Hd]. split; [exact Hx|]. apply in_or_app. by left.
    + destruct Hr as [Hx Hd]. split; [exact Hx|]. intros r'. by apply Hnot.
  - destruct Hr as (Hx & Hres & Hd). split; [exact Hx|]. split; [exact Hres|].
    intros r'. by apply Hnot.
Qed.

Lemma cleanupPartialAccess_step request w :
  exists e w1 calls, cleanupPartialAccess request w = Ret e w1 /\
    trace w1 = (calls ++ trace w)%list /\
    Forall (fun c => isOrphanCheckCall c.1 = false) calls.
Proof.
  unfold cleanupPartialAccess.
  destruct (isPartial _); cbn [negb]; cbv iota; [|by exists None, w, []].
  unfold Logger.Info, Logger.Warn. munfold.
  destruct (ownedSide _) as [cloneName namespace].
  destruct (_ || _); [by eexists None, _, []|].
  match goal with
  | |- context [Api.Delete Access ?cl ?ns ?n ?w0] =>
      destruct (Delete_step (T:=Access) cl ns n w0) as (e & w1 & -> & Ht & _)
  end.
  destruct e as [err|]; [destruct (negb _)|]; eexists _, _, [_];
    (split; [reflexivity|]); (split; [exact Ht|]); repeat constructor.
Qed.

(** C6 (as amended).  One pass of [reconcileAccessRequest] over a request
    in a partial status that is not being deleted either ends where the
    cleanup finalizer could not be recorded, with that error and before
    any check, or looks up the Access Declaration named after the stored
    clone name: when the lookup answers that it is missing, an explicit
    delete of the Access-Request is issued and its result returned; when
    it is found nothing is deleted; when the lookup fails otherwise the
    failure is returned and nothing is deleted.  For a request in any
    other status, or being deleted, neither the lookup nor the delete is
    issued. *)
Theorem reconcileAccessRequest_orphan_check request w :
  let o := reconcileAccessRequest request w in
  exists calls result,
    trace (final o) = (calls ++ trace w)%list /\ returned o = Some result /\
    if isPartial (Status (arSpec request)) && notBeingDeleted (arMeta request) then
      finalizerRefused request calls result \/ orphanChecked request w calls result
    else Forall (fun c => isOrphanCheckCall c.1 = false) calls.
Proof.
  unfold reconcileAccessRequest.
  destruct (notBeingDeleted (arMeta request)) eqn:ND; rewrite ?andb_true_r, ?andb_false_r.
  - destruct (ContainsFinalizer request accessRequestFinalizerName) eqn:CF; cbn [negb];
      cbv iota.
    + destruct (orphan_check_step request w) as (calls & result & Ht & Hr & Hc).
      exists calls, result. split; [exact Ht|]. split; [exact Hr|].
      destruct (isPartial _); [by right|]. subst calls. constructor.
    + munfold.
      destruct (AddFinalizer_request request accessRequestFinalizerName) as (Hspec & Hn & Hns).
      set (rq := AddFinalizer request accessRequestFinalizerName) in *.
      destruct (Update_step ReconcilerClient rq w) as (e & w1 & E & Ht & Hu). rewrite E.
      cbn [meta AccessRequestObject kindOf] in Ht. rewrite Hn, Hns in Ht.
      destruct e as [err|]; cbv beta iota.
      * exists [(finalizerUpdate request, Some err)], (Some err).
        split; [exact Ht|]. split; [reflexivity|].
        destruct (isPartial _); [left; by exists err|]. repeat constructor.
      * destruct (orphan_check_step rq w1) as (calls & result & Ht1 & Hr & Hc).
        exists (calls ++ [(finalizerUpdate request, None)])%list, result.
        split; [etransitivity; [exact Ht1|]; rewrite Ht, <- List.app_assoc; reflexivity|].
        split; [exact Hr|].
        rewrite Hspec in Hc. clear Ht1 Hr. destruct (isPartial (Status (arSpec request))).
        -- right. apply (orphanChecked_after_update rq request w1 w); try assumption.
           destruct Hu as [(ft & _ & Hx & _)|[(Hx & _)|(old & _ & _ & Ha)]];
             [discriminate Hx|discriminate Hx|]. split_agree. assumption.
        -- subst calls. repeat constructor.
  - destruct (ContainsFinalizer request accessRequestFinalizerName);
      [|exists [], None; repeat split; constructor].
    munfold.
    destruct (cleanupPartialAccess_step request w) as (e & w1 & calls & -> & Ht & Hc).
    destruct e as [err|]; cbv beta iota.
    + exists calls, (Some err). repeat split; assumption.
    + destruct (Update_step ReconcilerClient
                  (RemoveFinalizer request accessRequestFinalizerName) w1)
        as (e & w2 & -> & Ht2 & _).
      exists ((Call ReconcilerClient
                 (OpUpdate KAccessRequest (Namespace (arMeta request)) (Name (arMeta request))),
               e) :: calls), e.
      split; [destruct e; wcbn; rewrite Ht2, Ht; reflexivity|].
      split; [destruct e; reflexivity|]. constructor; [reflexivity|exact Hc].
Qed.


(** C6, as stated, fails where the finalizer cannot be recorded: the
    request is partial, not being deleted and its Access Declaration is
    gone, yet the pass ends on the refused update, without lookup and
    without delete, and the request stays. *)
Lemma orphan_unchecked_when_finalizer_update_refused :
  let w := Scenario.withRequest Scenario.orphan
             (Scenario.cluster Scenario.updatesConflict Scenario.allowAll) in
  let o := reconcileAccessRequest Scenario.orphan w in
  isPartial (Status (arSpec Scenario.orphan)) = true
  /\ notBeingDeleted (arMeta Scenario.orphan) = true
  /\ expectedAccess Scenario.orphan w = None
  /\ map fst (firstn (length (trace (final o)) - length (trace w)) (trace (final o)))
       = [finalizerUpdate Scenario.orphan]
  /\ accessRequests (final o) !! ("", "ar-alice-example-com-0b1e4f6a") = Some Scenario.orphan
  /\ returned o =
       Some (Some (MkError (Injected Conflict)
                     "the object has been modified; please apply your changes to the latest version and try again")).
Proof. vm_compute. repeat split. Qed.

(** *** Finalizer cleanup *)

Lemma onlyServices_refl w : onlyServices w w.
Proof. repeat split. Qed.

Lemma onlyServices_trans w1 w2 w3 :
  onlyServices w1 w2 -> onlyServices w2 w3 -> onlyServices w1 w3.
Proof. unfold onlyServices. intros. open_facts. repeat split; congruence. Qed.



Section FinalizerCleanup.
Context {T : Type} `{Object T} `{!Lawful T}.
Hypothesis store_untouched : forall w w', onlyServices w w' -> store w' = store w.



End FinalizerCleanup.



(** *** The read model *)

Section ReadModelFacts.
Variable parse : string -> option Z.








End ReadModelFacts.

Lemma insertSorted_In x y l : In y (insertSorted x l) -> y = x \/ In y l.
Proof.
  induction l as [|z l IH]; cbn [insertSorted].
  - intros [<-|[]]. by left.
  - destruct (less z x).
    + intros [<-|Hin]; [right; by left|]. destruct (IH Hin); [by left|right; by right].
    + intros [<-|Hin]; [by left|by right].
Qed.




Lemma groupClones_from items : forall (g : gmap string (list Service)) reqID,
  (forall id, g !! id <> Some []) ->
  let g' := foldl (fun clonesByReqID svc =>
                     match Labels (svcMeta svc) !! K8s.requestIDLabel with
                     | Some reqID =>
                         <[reqID := (default [] (clonesByReqID !! reqID) ++ [svc])%list]>
                           clonesByReqID
                     | None => clonesByReqID
                     end) g items in
  default [] (g' !! reqID)
  = (default [] (g !! reqID) ++ List.filter (labelledWith reqID) items)%list
  /\ (forall id, g' !! id <> Some []).
Proof.
  induction items as [|svc items IH]; intros g reqID Hne; cbn [foldl List.filter].
  - rewrite List.app_nil_r. split; [reflexivity|exact Hne].
  - unfold labelledWith at 1.
    destruct (Labels (svcMeta svc) !! requestIDLabel) as [id|] eqn:El.
    + match goal with
      | |- context [foldl _ ?g1 items] => destruct (IH g1 reqID) as (Hd & Hne')
      end.
      { intros id'. destruct (decide (id' = id)) as [->|Hx].
        - rewrite lookup_insert_eq. intros [= H]. by destruct (default [] (g !! id)).
        - rewrite lookup_insert_ne by congruence. apply Hne. }
      split; [|exact Hne']. cbv zeta in Hd. rewrite Hd.
      destruct (decide (id = reqID)) as [->|Hx].
      * rewrite lookup_insert_eq, bool_decide_eq_true_2 by reflexivity.
        change (default [] (Some ?l)) with l. by rewrite <- List.app_assoc.
      * rewrite lookup_insert_ne by congruence.
        rewrite bool_decide_eq_false_2 by congruence. reflexivity.
    + destruct (IH g reqID Hne) as (Hd & Hne'). split; [|exact Hne']. cbv zeta in Hd.
      rewrite Hd. rewrite bool_decide_eq_false_2 by congruence. reflexivity.
Qed.

Lemma insertSorted_perm x l : Permutation (insertSorted x l) (x :: l).
Proof.
  induction l as [|y l IH]; cbn [insertSorted]; [reflexivity|].
  destruct (less y x); [|reflexivity].
  rewrite IH. apply perm_swap.
Qed.






Section ReadModelView.
Variable parse : string -> option Z.



End ReadModelView.



(* ===================================================================== *)
(** ** Beyond the specification: further properties of the code *)
(* ===================================================================== *)

(** *** Port overrides *)

Lemma overridePortsLoop_spec fields : forall acc,
  let counted := List.filter (fun f => negb (String.eqb f "")) (map TrimSpace fields) in
  match overridePortsLoop fields acc with
  | Ok l =>
      exists values, Forall2 (fun f v => Atoi f = Some v) counted values /\
        l = (acc ++ map portOf values)%list
  | Err e =>
      exists good bad rest values,
        counted = (good ++ bad :: rest)%list /\
        Forall2 (fun f v => Atoi f = Some v) good values /\ Atoi bad = None /\
        e = NewError ("'" ++ bad ++ "' is not a valid port number")
  end.
Proof.
  induction fields as [|f fields IH]; intros acc; cbn [overridePortsLoop map List.filter].
  - exists []. split; [constructor|]. by rewrite List.app_nil_r.
  - destruct (String.eqb (TrimSpace f) "") eqn:Eb; cbn [negb]; [apply IH|].
    destruct (Atoi (TrimSpace f)) as [port|] eqn:Ea.
    + specialize (IH (acc ++ [MkPort ("port-" ++ Itoa port) "TCP" (int32 port)])%list).
      cbv zeta in IH.
      destruct (overridePortsLoop fields _) as [l|e].
      * destruct IH as (values & Hv & ->). exists (port :: values).
        split; [by constructor|]. by rewrite <- List.app_assoc.
      * destruct IH as (good & bad & rest & values & -> & Hv & Hbad & ->).
        exists (TrimSpace f :: good), bad, rest, (port :: values).
        split; [reflexivity|]. split; [by constructor|]. split; [exact Hbad|reflexivity].
    + exists [], (TrimSpace f),
        (List.filter (fun f => negb (String.eqb f "")) (map TrimSpace fields)), [].
      split; [reflexivity|]. split; [constructor|].
      split; [exact Ea|reflexivity].
Qed.

(** X1.  [getOverridePorts] keeps the fields between commas that are
    not blank once trimmed, in their order: if every one of them reads
    as a decimal integer the answer is one TCP port per field, named
    [port-<n>] and numbered [int32 n], with no check of the range; else
    the first field that does not is reported and no port is returned.
    The empty string gives no port. *)
Theorem getOverridePorts_fields ports :
  match getOverridePorts ports with
  | Ok l =>
      exists values, Forall2 (fun f v => Atoi f = Some v) (portFields ports) values /\
        l = map portOf values
  | Err e =>
      exists good bad rest values,
        portFields ports = (good ++ bad :: rest)%list /\
        Forall2 (fun f v => Atoi f = Some v) good values /\ Atoi bad = None /\
        e = NewError ("'" ++ bad ++ "' is not a valid port number")
  end.
Proof.
  unfold getOverridePorts, portFields.
  destruct (String.eqb_spec ports "") as [->|Hne]; cbn [negb].
  - exists []. split; [constructor|reflexivity].
  - apply (overridePortsLoop_spec (Split ports ",") []).
Qed.

(** White space beyond ASCII is trimmed as well: a no-break space
    (bytes C2 A0) after the digits, an ideographic space (E3 80 80)
    before them.  Every white space code point is cut at both ends; a
    zero width space (U+200B, bytes E2 80 8B) and a lone byte A0 are no
    white space and stay. *)
Lemma getOverridePorts_unicode_blanks :
  let bytes := fold_right (fun n s => String (ascii_of_nat n) s) "" in
  let nbsp := bytes [194; 160] in
  let wide := bytes [227; 128; 128] in
  let every :=
    bytes [9; 10; 11; 12; 13; 32; 194; 133; 194; 160; 225; 154; 128;
           226; 128; 128; 226; 128; 129; 226; 128; 130; 226; 128; 131; 226; 128; 132;
           226; 128; 133; 226; 128; 134; 226; 128; 135; 226; 128; 136; 226; 128; 137;
           226; 128; 138; 226; 128; 168; 226; 128; 169; 226; 128; 175; 226; 129; 159;
           227; 128; 128] in
  getOverridePorts ("80" ++ nbsp ++ "," ++ wide ++ "443") = Ok [portOf 80%Z; portOf 443%Z]
  /\ TrimSpace (nbsp ++ " 10.0.0.0/8" ++ wide) = "10.0.0.0/8"
  /\ TrimSpace (every ++ "a b" ++ every) = "a b"
  /\ TrimSpace (bytes [226; 128; 139] ++ "x") = bytes [226; 128; 139] ++ "x"
  /\ TrimSpace ("x" ++ bytes [226; 128; 139]) = "x" ++ bytes [226; 128; 139]
  /\ TrimSpace (bytes [160] ++ "80" ++ bytes [194]) = bytes [160] ++ "80" ++ bytes [194].
Proof. vm_compute. repeat split. Qed.

(** *** Names: user names, hashes and suffixes *)

Lemma ReplaceAllByte_map s old new :
  list_ascii_of_string (ReplaceAllByte s old new)
  = map (fun c => if Ascii.eqb c old then new else c) (list_ascii_of_string s).
Proof. induction s as [|c s IH]; cbn; [reflexivity|]. by rewrite IH. Qed.

Lemma dashed_dashed c : dashed (dashed c) = dashed c.
Proof.
  unfold dashed. destruct (Ascii.eqb c "@") eqn:E1; [reflexivity|].
  destruct (Ascii.eqb c ".") eqn:E2; cbn; [reflexivity|]. by rewrite E1, E2.
Qed.

Lemma sanitize_map email :
  list_ascii_of_string (sanitize email) = map dashed (list_ascii_of_string email).
Proof.
  unfold sanitize. rewrite !ReplaceAllByte_map, List.map_map.
  apply List.map_ext. intros c. unfold dashed.
  destruct (Ascii.eqb c "@") eqn:E1; cbn; [reflexivity|reflexivity].
Qed.

(** X2.  [sanitize] works byte by byte: every [@] and every [.]
    becomes [-] and every other byte, capitals and [+] included, stays
    where it is.  So the length is kept, the result holds neither [@]
    nor [.], and sanitizing twice changes nothing more. *)
Theorem sanitize_bytewise email :
  list_ascii_of_string (sanitize email) = map dashed (list_ascii_of_string email)
  /\ String.length (sanitize email) = String.length email
  /\ ~ In "@"%char (list_ascii_of_string (sanitize email))
  /\ ~ In "."%char (list_ascii_of_string (sanitize email))
  /\ sanitize (sanitize email) = sanitize email.
Proof.
  split; [apply sanitize_map|].
  split.
  { rewrite <- (string_of_list_ascii_of_string (sanitize email)) at 1.
    rewrite <- (string_of_list_ascii_of_string email) at 2.
    rewrite sanitize_map.
    generalize (list_ascii_of_string email). intros l.
    induction l as [|c l IH]; cbn; [reflexivity|]. by rewrite IH. }
  split; [|split].
  - rewrite sanitize_map, List.in_map_iff. intros (c & Hc & _). revert Hc. unfold dashed.
    destruct (Ascii.eqb c "@") eqn:E1; cbn; [discriminate|].
    destruct (Ascii.eqb c ".") eqn:E2; [discriminate|].
    intros ->. discriminate.
  - rewrite sanitize_map, List.in_map_iff. intros (c & Hc & _). revert Hc. unfold dashed.
    destruct (Ascii.eqb c "@") eqn:E1; cbn; [discriminate|].
    destruct (Ascii.eqb c ".") eqn:E2; [discriminate|].
    intros ->. discriminate.
  - rewrite <- (string_of_list_ascii_of_string (sanitize (sanitize email))).
    rewrite <- (string_of_list_ascii_of_string (sanitize email)) at 2.
    f_equal. rewrite (sanitize_map (sanitize email)), sanitize_map, List.map_map.
    apply List.map_ext. intros c. apply dashed_dashed.
Qed.

Lemma length_hexEncode s : String.length (hexEncode s) = (2 * String.length s)%nat.
Proof. induction s as [|c s IH]; cbn [hexEncode String.length]; lia. Qed.

Lemma hexDigit_lower n : (n < 16)%N -> isLowerHex (hexDigit n) = true.
Proof.
  intros H.
  assert (Hn : In n (map N.of_nat (seq 0 16))).
  { apply List.in_map_iff. exists (N.to_nat n). split; [lia|]. apply List.in_seq. lia. }
  cbn in Hn. repeat (destruct Hn as [<-|Hn]; [reflexivity|]). destruct Hn.
Qed.

Lemma hexEncode_lower s : Forall (fun c => isLowerHex c = true) (list_ascii_of_string (hexEncode s)).
Proof.
  induction s as [|c s IH]; cbn [hexEncode list_ascii_of_string]; [constructor|].
  assert (Hc : (N_of_ascii c < 256)%N) by apply N_ascii_bounded.
  constructor; [|constructor; [|exact IH]]; apply hexDigit_lower.
  - apply N.Div0.div_lt_upper_bound. exact Hc.
  - apply N.mod_lt. discriminate.
Qed.

Lemma length_bigEndian n z : length (Sha1.bigEndian n z) = n.
Proof.
  revert z. induction n as [|n IH]; intros z; cbn [Sha1.bigEndian]; [reflexivity|].
  rewrite List.length_app, IH. cbn. lia.
Qed.

Lemma length_sum s : length (Sha1.sum s) = 20%nat.
Proof. unfold Sha1.sum. cbv zeta. rewrite !List.length_app, !length_bigEndian. reflexivity. Qed.

Lemma length_string_of_list l : String.length (string_of_list_ascii l) = length l.
Proof. induction l as [|c l IH]; cbn; [reflexivity|]. by rewrite IH. Qed.

Lemma length_substring_0 n s :
  (n <= String.length s)%nat -> String.length (substring 0 n s) = n.
Proof.
  revert s. induction n as [|n IH]; intros s H.
  - destruct s; reflexivity.
  - destruct s as [|c s]; cbn in H; [lia|]. cbn. rewrite IH; [reflexivity|lia].
Qed.

Lemma substring_0_prefix n s :
  exists rest, list_ascii_of_string s
               = (list_ascii_of_string (substring 0 n s) ++ rest)%list.
Proof.
  revert s. induction n as [|n IH]; intros s.
  - exists (list_ascii_of_string s). destruct s; reflexivity.
  - destruct s as [|c s]; [exists []; reflexivity|].
    destruct (IH s) as (rest & E). exists rest. cbn. by rewrite E at 1.
Qed.

Lemma length_append (a b : string) :
  String.length (a ++ b) = (String.length a + String.length b)%nat.
Proof.
  induction a as [|c a IH]; [reflexivity|].
  change (String c a ++ b)%string with (String c (a ++ b)). cbn [String.length]. by rewrite IH.
Qed.

(** X3.  Whatever the service name, [shortHash] is twelve
    lower-case hexadecimal digits, so that the clone names
    [nc-<hash>-<suffix>] built from it are sixteen bytes longer than
    the suffix and never depend on the length of the service name. *)
Theorem shortHash_twelve_hex_digits (name suffix : string) :
  String.length (shortHash name) = 12%nat
  /\ Forall (fun c => isLowerHex c = true) (list_ascii_of_string (shortHash name))
  /\ String.length ("nc-" ++ shortHash name ++ "-" ++ suffix)
     = (16 + String.length suffix)%nat.
Proof.
  assert (H40 : String.length (hexEncode (Sha1.sumString name)) = 40%nat).
  { rewrite length_hexEncode. unfold Sha1.sumString.
    rewrite length_string_of_list, List.length_map, length_sum. reflexivity. }
  assert (H12 : String.length (shortHash name) = 12%nat).
  { unfold shortHash. apply length_substring_0. rewrite H40. lia. }
  split; [exact H12|]. split.
  - unfold shortHash.
    destruct (substring_0_prefix 12 (hexEncode (Sha1.sumString name))) as (rest & E).
    pose proof (hexEncode_lower (Sha1.sumString name)) as Hall.
    rewrite E in Hall. by apply Forall_app in Hall as [Hall _].
  - rewrite !length_append, H12. cbn. lia.
Qed.

Lemma substring_hexEncode n s :
  substring 0 (2 * n) (hexEncode s) = hexEncode (substring 0 n s).
Proof.
  revert s. induction n as [|n IH]; intros s.
  - cbn. destruct s; reflexivity.
  - destruct s as [|c s]; [reflexivity|].
    replace (2 * S n)%nat with (S (S (2 * n))) by lia.
    cbn [hexEncode substring]. by rewrite IH.
Qed.

(** X4.  The suffix of an object name is the hexadecimal form of
    the first four bytes of the identifier and of nothing else: eight
    digits for an identifier of four bytes or more, whatever follows
    them, and a run-time panic, with nothing changed, for a shorter
    one. *)
Theorem randSuffixOf_first_four_bytes (id : string) (w : World) :
  if (4 <=? String.length id)%nat then
    randSuffixOf id w = Ret (hexEncode (substring 0 4 id)) w
    /\ String.length (hexEncode (substring 0 4 id)) = 8%nat
  else randSuffixOf id w = Panic "slice bounds out of range" w.
Proof.
  unfold randSuffixOf, slice_to, len. rewrite length_hexEncode.
  destruct (4 <=? String.length id)%nat eqn:E4.
  - apply Nat.leb_le in E4.
    replace (8 <=? 2 * String.length id)%nat with true
      by (symmetry; apply Nat.leb_le; lia).
    split.
    + change 8%nat with (2 * 4)%nat. by rewrite substring_hexEncode.
    + rewrite length_hexEncode, length_substring_0; [reflexivity|lia].
  - apply Nat.leb_gt in E4.
    replace (8 <=? 2 * String.length id)%nat with false
      by (symmetry; apply Nat.leb_gt; lia).
    reflexivity.
Qed.

(** X5.  A request approved side by side ends with the
    directions of a direct grant: for every direction string the source
    side of [partialDirection] is the source direction of
    [fullDirections] and the target side its target direction; the two
    are opposite for [ingress] and [egress], and any other string, the
    empty one included, counts as [all] on both sides. *)
Theorem partialDirection_agrees_with_fullDirections (direction : string) :
  (partialDirection direction true, partialDirection direction false)
  = fullDirections direction
  /\ (direction = "ingress" \/ direction = "egress"
      \/ fullDirections direction = ("all", "all")).
Proof.
  unfold partialDirection, fullDirections.
  destruct (String.eqb_spec direction "ingress") as [->|Hi]; [split; [reflexivity|by left]|].
  destruct (String.eqb_spec direction "egress") as [->|He];
    [split; [reflexivity|by right; left]|].
  cbn. split; [reflexivity|by right; right].
Qed.

(** *** The reconciler: cleanup of a request's own side *)

Lemma cleanupPartialAccess_calls request w :
  exists result w' calls,
    cleanupPartialAccess request w = Ret result w' /\
    trace w' = (calls ++ trace w)%list /\
    env w' = env w /\
    services w' = services w /\ externalAccesses w' = externalAccesses w /\
    accessRequests w' = accessRequests w /\
    if hasOwnedSide request then
      exists e, calls = [(ownedAccessDelete request, e)] /\ result = cleanupResult e /\
        (e <> None -> accesses w' = accesses w)
    else calls = [] /\ result = None /\ accesses w' = accesses w.
Proof.
  unfold cleanupPartialAccess, hasOwnedSide, ownedAccessDelete.
  destruct (ownedSide (arSpec request)) as [cloneName namespace].
  destruct (isPartial _); cbn [negb andb]; cbv iota;
    [|exists None, w, []; repeat split].
  unfold Logger.Info, Logger.Warn. munfold.
  destruct (_ || _); cbn [negb]; [eexists None, _, []; repeat split|].
  match goal with
  | |- context [Api.Delete Access ?cl ?ns ?n ?w0] =>
      destruct (Delete_step (T:=Access) cl ns n w0) as (e & w1 & -> & Ht & Hd)
  end.
  destruct Hd as [(ft & -> & Ha)|[(-> & Hn & Ha)|(o & -> & Ho & Ha)]]; cbv beta iota.
  - eexists _, _, [_]. split; [reflexivity|]. split; [exact Ht|].
    split_agree. repeat split; try assumption.
    eexists. split; [reflexivity|]. split; [reflexivity|]. intros _. assumption.
  - eexists _, _, [_]. split; [reflexivity|]. split; [exact Ht|].
    split_agree. repeat split; try assumption.
    eexists. split; [reflexivity|]. split; [reflexivity|]. intros _. assumption.
  - eexists _, _, [_]. split; [reflexivity|]. split; [exact Ht|].
    split_agree. repeat split; try assumption.
    eexists. split; [reflexivity|]. split; [reflexivity|]. intros Hne. by destruct Hne.
Qed.

(** X6.  [cleanupPartialAccess] issues at most one call:
    the delete of the Access Declaration [access-<clone name>] of the
    side the request owns, and none for a request that is not partial or
    that lacks the clone name or the namespace.  A declaration that is
    already gone counts as cleaned up; any other failure is returned.
    It never deletes a Service, an ExternalAccess or an Access-Request. *)
Theorem cleanupPartialAccess_only_the_owned_access request w :
  exists result w' calls,
    cleanupPartialAccess request w = Ret result w' /\
    trace w' = (calls ++ trace w)%list /\
    services w' = services w /\ externalAccesses w' = externalAccesses w /\
    accessRequests w' = accessRequests w /\
    if hasOwnedSide request then
      exists e, calls = [(ownedAccessDelete request, e)] /\ result = cleanupResult e /\
        (e = None \/ accesses w' = accesses w)
    else calls = [] /\ result = None /\ accesses w' = accesses w.
Proof.
  destruct (cleanupPartialAccess_calls request w)
    as (result & w' & calls & E & Ht & _ & Hs & Hx & Hr & Hc).
  exists result, w', calls. repeat (split; [assumption|]).
  destruct (hasOwnedSide request); [|exact Hc].
  destruct Hc as (e & Hcalls & Hres & Hacc). exists e. split; [exact Hcalls|].
  split; [exact Hres|]. destruct e as [err|]; [right; by apply Hacc|by left].
Qed.

(** X7.  For an Access-Request that is being deleted,
    [reconcileAccessRequest] does nothing when the request no longer
    carries its finalizer.  When it does, the finalizer is written off
    only after the cleanup of the owned side succeeded: if the delete of
    the owned Access Declaration failed, that delete is the only call,
    its error is returned and the stored request is as before;
    otherwise the last call is the update that records the finalizers
    without this one, and its result is the result of the pass. *)
Theorem reconcileAccessRequest_finalizer_after_cleanup request w :
  notBeingDeleted (arMeta request) = false ->
  exists result w' calls,
    reconcileAccessRequest request w = Ret result w' /\
    trace w' = (calls ++ trace w)%list /\
    services w' = services w /\ externalAccesses w' = externalAccesses w /\
    if ContainsFinalizer request accessRequestFinalizerName then
      (exists e err, calls = [(ownedAccessDelete request, Some e)] /\
         cleanupResult (Some e) = Some err /\ result = Some err /\
         accesses w' = accesses w /\ accessRequests w' = accessRequests w)
      \/ (exists cleanupCalls,
            calls = ((finalizerUpdate request, result) :: cleanupCalls)%list /\
            (cleanupCalls = []
             \/ exists e, cleanupCalls = [(ownedAccessDelete request, e)]
                          /\ cleanupResult e = None) /\
            match result with
            | None =>
                exists old, accessRequests w !! keyOf request = Some old /\
                  accessRequests w'
                  = afterUpdate old (RemoveFinalizer request accessRequestFinalizerName)
                                (accessRequests w)
            | Some _ => accessRequests w' = accessRequests w
            end)
    else calls = [] /\ result = None /\ w' = w.
Proof.
  intros ND. unfold reconcileAccessRequest. rewrite ND.
  destruct (ContainsFinalizer request accessRequestFinalizerName);
    [|exists None, w, []; repeat split].
  munfold.
  destruct (cleanupPartialAccess_calls request w)
    as (r0 & w1 & calls0 & -> & Ht & He & Hs & Hx & Hr & Hc).
  destruct r0 as [err|]; cbv beta iota.
  - unfold Logger.Error. munfold. eexists _, _, calls0.
    split; [reflexivity|]. wcbn. repeat (split; [assumption|]).
    left. destruct (hasOwnedSide request).
    + destruct Hc as (e & -> & Hres & Hacc). destruct e as [e|]; [|discriminate Hres].
      exists e, err. split; [reflexivity|]. split; [by symmetry|]. split; [reflexivity|].
      split; [apply Hacc; discriminate|assumption].
    + destruct Hc as (_ & [=] & _).
  - match goal with
    | |- context [Api.Update ?cl ?o ?w0] =>
        destruct (Update_step (T:=AccessRequest) cl o w0)
          as (e & w2 & -> & Ht2 & Hu)
    end.
    assert (Hstores : services w2 = services w /\ externalAccesses w2 = externalAccesses w
                      /\ accesses w2 = accesses w1).
    { destruct Hu as [(ft & _ & _ & Ha)|[(_ & _ & Ha)|(old & _ & _ & Ha)]];
        split_agree; repeat split; congruence. }
    destruct Hstores as (Hs2 & Hx2 & Ha2).
    assert (Hcleanup : calls0 = []
                       \/ exists e, calls0 = [(ownedAccessDelete request, e)]
                                    /\ cleanupResult e = None).
    { destruct (hasOwnedSide request).
      - destruct Hc as (e0 & -> & Hres & _). right. exists e0. by split.
      - destruct Hc as (-> & _). by left. }
    exists e, w2, ((finalizerUpdate request, e) :: calls0)%list.
    split; [by destruct e|]. split; [rewrite Ht2, Ht; reflexivity|].
    split; [exact Hs2|]. split; [exact Hx2|]. right.
    exists calls0. split; [reflexivity|]. split; [exact Hcleanup|].
    destruct Hu as [(ft & _ & -> & Ha)|[(-> & _ & Ha)|(old & -> & Ho & Ha)]].
    + split_agree. congruence.
    + split_agree. congruence.
    + exists old. split; [rewrite <- Hr; exact Ho|].
      split_agree. rewrite <- Hr. assumption.
Qed.

(** *** The reconciler: finalizers and the cleanup of clones *)

Section FinalizerPasses.
Context {T : Type} `{Object T} `{!Lawful T}.

Lemma ContainsFinalizer_meta (a b : T) f :
  Finalizers (meta a) = Finalizers (meta b) -> ContainsFinalizer a f = ContainsFinalizer b f.
Proof. unfold ContainsFinalizer. by intros ->. Qed.

Lemma AddFinalizer_meta (obj : T) f :
  ContainsFinalizer obj f = false ->
  meta (AddFinalizer obj f) = withFinalizers (Finalizers (meta obj) ++ [f]) (meta obj).
Proof. intros Hc. unfold AddFinalizer. rewrite Hc. apply meta_setMeta. Qed.

(** X8.  A pass of [reconcileAccessFinalizer] over an
    object as stored, not being deleted, that returns [nil] leaves it
    stored with the cleanup finalizer, its other finalizers as before;
    a further pass over what is stored then issues no call and changes
    nothing. *)
Theorem reconcileAccessFinalizer_adds_finalizer_once (obj : T) w w' :
  notBeingDeleted (meta obj) = true ->
  store w !! keyOf obj = Some obj ->
  reconcileAccessFinalizer obj w = Ret None w' ->
  exists stored,
    store w' !! keyOf obj = Some stored /\
    ContainsFinalizer stored accessFinalizerName = true /\
    (forall f, f <> accessFinalizerName ->
               ContainsFinalizer stored f = ContainsFinalizer obj f) /\
    forall w2, reconcileAccessFinalizer stored w2 = Ret None w2.
Proof.
  intros ND Hst. unfold reconcileAccessFinalizer at 1. rewrite ND.
  destruct (ContainsFinalizer obj accessFinalizerName) eqn:CF; cbn [negb]; cbv iota.
  - intros [= <-]. exists obj. split; [exact Hst|]. split; [exact CF|].
    split; [reflexivity|]. intros w2. unfold reconcileAccessFinalizer. by rewrite ND, CF.
  - munfold. unfold Logger.Error, Logger.Info. munfold.
    pose proof (AddFinalizer_meta obj accessFinalizerName CF) as Hm.
    assert (Hk : keyOf (AddFinalizer obj accessFinalizerName) = keyOf obj)
      by (unfold keyOf; rewrite Hm; reflexivity).
    destruct (Update_step ReconcilerClient (AddFinalizer obj accessFinalizerName) w)
      as (e & w1 & -> & _ & Hu).
    destruct Hu as [(ft & _ & -> & _)|[(-> & _ & _)|(old & -> & Ho & Ha)]];
      cbv beta iota; [intros [=]|intros [=]|].
    intros [= <-]. rewrite Hk, Hst in Ho. injection Ho as <-.
    set (stored := updated obj (AddFinalizer obj accessFinalizerName)).
    assert (Hms : Finalizers (meta stored) = (Finalizers (meta obj) ++ [accessFinalizerName])%list
                  /\ DeletionTimestamp (meta stored) = DeletionTimestamp (meta obj)).
    { unfold stored, updated. rewrite meta_setMeta, Hm. split; reflexivity. }
    destruct Hms as (Hf & Hd).
    assert (Hc : ContainsFinalizer stored accessFinalizerName = true).
    { unfold ContainsFinalizer. rewrite Hf, existsb_app. cbn. apply orb_true_r. }
    exists stored. split; [|split; [exact Hc|split]].
    + match goal with
      | |- store ?w3 !! _ = _ =>
          rewrite (store_agree w3 w1) by (repeat split)
      end.
      match type of Ha with
      | agree _ ?w3 =>
          rewrite (store_agree w1 w3)
            by (destruct Ha as (? & ? & ? & ? & ? & ? & ? & _); repeat split; assumption)
      end.
      rewrite store_setStore. unfold afterUpdate.
      unfold notBeingDeleted in ND.
      destruct (DeletionTimestamp (meta obj)); [discriminate ND|].
      rewrite Hk. apply lookup_insert_eq.
    + intros f Hne. unfold ContainsFinalizer. rewrite Hf, existsb_app. cbn.
      destruct (String.eqb_spec f accessFinalizerName) as [->|_]; [by destruct Hne|].
      by rewrite !orb_false_r.
    + intros w2. unfold reconcileAccessFinalizer. unfold notBeingDeleted in *.
      rewrite Hd. destruct (DeletionTimestamp (meta obj)); [discriminate ND|].
      by rewrite Hc.
Qed.

(** X9.  An object that is being deleted, carries the
    cleanup finalizer and has no request-id label loses the finalizer
    without any cleanup: the only call of the pass is the update that
    writes the finalizers back, no Service is listed or deleted, and an
    update answered with not-found counts as success. *)
Theorem reconcileAccessFinalizer_without_request_id (obj : T) w :
  notBeingDeleted (meta obj) = false ->
  ContainsFinalizer obj accessFinalizerName = true ->
  Labels (meta obj) !! K8s.requestIDLabel = None ->
  exists r w',
    reconcileAccessFinalizer obj w = Ret (writeOffResult r) w' /\
    trace w' = (finalizerWrite obj, r) :: trace w /\
    ContainsFinalizer (RemoveFinalizer obj accessFinalizerName) accessFinalizerName = false /\
    (r = None ->
     exists old, store w !! keyOf obj = Some old /\
       store w' = afterUpdate old (RemoveFinalizer obj accessFinalizerName) (store w)).
Proof.
  intros ND CF Hl. unfold reconcileAccessFinalizer. rewrite ND, CF. cbv iota.
  unfold Logger.Info, Logger.Warn, Logger.Error. munfold. rewrite Hl. cbv beta iota.
  assert (Hm : meta (RemoveFinalizer obj accessFinalizerName)
               = withFinalizers
                   (List.filter (fun f => negb (String.eqb f accessFinalizerName))
                                (Finalizers (meta obj))) (meta obj))
    by (unfold RemoveFinalizer; apply meta_setMeta).
  assert (Hk : keyOf (RemoveFinalizer obj accessFinalizerName) = keyOf obj)
    by (unfold keyOf; rewrite Hm; reflexivity).
  match goal with
  | |- context [Api.Update ?cl ?o ?w1] =>
      destruct (Update_step cl o w1) as (e & w2 & -> & Ht & Hu)
  end.
  unfold keyOf in Hk. injection Hk as Hns Hn. rewrite Hn, Hns in Ht.
  exists e.
  assert (Hgone : ContainsFinalizer (RemoveFinalizer obj accessFinalizerName)
                    accessFinalizerName = false).
  { unfold ContainsFinalizer. rewrite Hm. cbn [withFinalizers Finalizers].
    apply not_true_is_false. intros Hex. apply existsb_exists in Hex as (f & Hin & Heq).
    apply filter_In in Hin as (_ & Hne). apply String.eqb_eq in Heq. subst f.
    by rewrite String.eqb_refl in Hne. }
  destruct Hu as [(ft & _ & -> & Ha)|[(-> & Hnone & Ha)|(old & -> & Ho & Ha)]]; cbn.
  - eexists. split; [reflexivity|]. split; [exact Ht|]. split; [exact Hgone|]. intros [=].
  - eexists. split; [reflexivity|]. split; [exact Ht|]. split; [exact Hgone|]. intros [=].
  - eexists. split; [reflexivity|]. split; [exact Ht|]. split; [exact Hgone|]. intros _.
    exists old. unfold keyOf in *. rewrite Hn, Hns in Ho.
    split.
    + etransitivity; [|exact Ho]. f_equal. symmetry. apply store_agree. repeat split.
    + etransitivity; [apply (store_agree _ w2); repeat split|].
      match type of Ha with
      | agree _ ?w3 =>
          etransitivity;
            [apply (store_agree w2 w3); destruct Ha as (? & ? & ? & ? & ? & ? & ? & _);
             repeat split; assumption|]
      end.
      rewrite store_setStore. f_equal. apply store_agree. repeat split.
Qed.

End FinalizerPasses.

(** *** The reconciler: the clones of a request, without failures *)

Lemma Delete_service_served cl ns n w :
  faults (env w) (clock w) (Call cl (OpDelete KService ns n)) = None ->
  exists e w1, Api.Delete Service cl ns n w = Ret e w1 /\ onlyServices w w1 /\
    services w1 = deleted (Z.of_nat (clock w)) (ns, n) (services w).
Proof.
  intros Hf. unfold Api.Delete, performE, perform. munfold.
  cbn [kindOf ServiceObject]. rewrite Hf. unfold deleted.
  change (@store Service ServiceObject w) with (services w).
  destruct (services w !! (ns, n)) as [o|]; eexists _, _; (split; [reflexivity|]);
    split; repeat split.
Qed.

Lemma deleteEach_served l : forall w,
  serviceDeletesServed w ->
  (forall s, In s l -> forall o, services w !! keyOf s = Some o -> Finalizers (svcMeta o) = []) ->
  exists w1, deleteEach l w = Ret tt w1 /\ onlyServices w w1 /\
    services w1 = foldl (fun m s => delete (keyOf s) m) (services w) l.
Proof.
  induction l as [|service l IH]; intros w Hserved Hfin.
  - exists w. split; [reflexivity|]. split; [apply onlyServices_refl|reflexivity].
  - cbn [deleteEach foldl]. unfold Logger.Info, Logger.Error. munfold.
    match goal with
    | |- context [Api.Delete Service ?cl ?ns ?n ?w0] =>
        destruct (Delete_service_served cl ns n w0) as (e & w1 & -> & Hw1 & Hs);
          [apply Hserved|]
    end.
    wcbn.
    assert (Hs' : services w1 = delete (keyOf service) (services w)).
    { rewrite Hs. unfold deleted, keyOf. cbn [meta ServiceObject].
      destruct (services w !! (Namespace (svcMeta service), Name (svcMeta service)))
        as [o|] eqn:Eo.
      - unfold afterDelete. cbn [meta ServiceObject].
        rewrite (Hfin service (or_introl eq_refl) o Eo). reflexivity.
      - symmetry. by apply delete_id. }
    assert (Hw : onlyServices w w1) by (unfold onlyServices in *; wcbn; exact Hw1).
    set (w2 := match e with
               | Some err =>
                   if negb (IsNotFound err)
                   then logged (MkLine LError "failed to delete service clone" (Some err)) w1
                   else w1
               | None => w1
               end).
    assert (Hw2 : onlyServices w1 w2 /\ services w2 = services w1).
    { subst w2. destruct e as [err|]; [destruct (negb (IsNotFound err))|]; repeat split. }
    destruct Hw2 as (Hw2 & Hs2).
    destruct (IH w2) as (w3 & E3 & Hw3 & Hs3).
    { intros t ns n. destruct Hw2 as (-> & _). destruct Hw as (-> & _). apply Hserved. }
    { intros s Hin o Ho. rewrite Hs2, Hs' in Ho. apply lookup_delete_Some in Ho as [_ Ho].
      eapply Hfin; [right; exact Hin|exact Ho]. }
    exists w3. split.
    + subst w2. destruct e as [err|]; [destruct (negb (IsNotFound err))|]; exact E3.
    + split; [eauto using onlyServices_trans|]. by rewrite Hs3, Hs2, Hs'.
Qed.

Lemma foldl_delete_lookup (l : list Service) : forall (m : gmap (string * string) Service) k,
  foldl (fun m s => delete (keyOf s) m) m l !! k
  = if bool_decide (k ∈ map keyOf l) then None else m !! k.
Proof.
  induction l as [|s l IH]; intros m k; cbn [foldl map].
  - rewrite bool_decide_eq_false_2; [reflexivity|]. intros Hin. by apply elem_of_nil in Hin.
  - rewrite IH. destruct (decide (k = keyOf s)) as [->|Hne].
    + rewrite (bool_decide_eq_true_2 (keyOf s ∈ keyOf s :: map keyOf l))
        by apply list_elem_of_here.
      destruct (bool_decide _); [reflexivity|apply lookup_delete_eq].
    + rewrite lookup_delete_ne by congruence.
      rewrite (bool_decide_ext (k ∈ keyOf s :: map keyOf l) (k ∈ map keyOf l));
        [reflexivity|]. rewrite elem_of_cons.
      split; [intros [->|Hin]; [by destruct Hne|exact Hin]|by right].
Qed.

(** X10.  Where every Service is stored under its own
    name, the clones of a request have no finalizers of their own, and
    neither the listing nor the reconciler's deletes of Services are
    failed, [deleteClonedServices] returns [nil] and removes exactly the
    Services labelled with the request id: none of them is left and
    every other Service is as before. *)
Theorem deleteClonedServices_removes_exactly_the_clones reqID w :
  wellKeyed w -> clonesUnprotected reqID w -> serviceDeletesServed w ->
  faults (env w) (clock w) (cloneListing reqID) = None ->
  exists w', deleteClonedServices reqID w = Ret None w' /\
    onlyServices w w' /\ services w' = withoutClones reqID (services w).
Proof.
  intros Hkeys Hfin Hserved Hlist. unfold deleteClonedServices. munfold.
  destruct (List_step (T:=Service) ReconcilerClient (Some (requestIDLabel, reqID)) w)
    as (r & w1 & -> & Ha & _ & Hr).
  cbn [kindOf ServiceObject] in Hr. unfold cloneListing in Hlist.
  destruct r as [l|e]; [|destruct Hr as (ft & Hft & _); congruence].
  destruct Hr as [-> _]. cbv beta iota.
  assert (Hw1 : onlyServices w w1) by (unfold onlyServices; split_agree; repeat split; congruence).
  assert (Hs1 : services w1 = services w) by (by destruct Ha as (_ & -> & _)).
  assert (Hlisted : forall s, In s (listed (Some (requestIDLabel, reqID)) w) <->
            exists k, services w !! k = Some s
                      /\ Labels (svcMeta s) !! requestIDLabel = Some reqID).
  { intros s. unfold listed. rewrite filter_In, <- list_elem_of_In, list_elem_of_fmap.
    cbn [matches meta ServiceObject store]. rewrite bool_decide_eq_true. split.
    - intros ((kv & -> & Hkv) & Hl). destruct kv as [k s]. exists k.
      split; [by apply elem_of_map_to_list in Hkv|exact Hl].
    - intros (k & Hk & Hl). split; [|exact Hl]. exists (k, s).
      split; [reflexivity|by apply elem_of_map_to_list]. }
  destruct (deleteEach_served (listed (Some (requestIDLabel, reqID)) w) w1)
    as (w2 & -> & Hw2 & Hs2).
  { intros t ns n. destruct Ha as (-> & _). apply Hserved. }
  { intros s Hin o Ho. apply Hlisted in Hin as (k & Hk & Hl).
    rewrite Hs1 in Ho. pose proof (Hkeys k s Hk) as Hks. rewrite Hks in Ho.
    assert (o = s) as -> by congruence. eapply Hfin; eassumption. }
  exists w2. split; [reflexivity|]. split; [eauto using onlyServices_trans|].
  rewrite Hs2, Hs1. apply map_eq. intros k. rewrite foldl_delete_lookup.
  unfold withoutClones. destruct (services w !! k) as [s|] eqn:Ek.
  - destruct (decide (Labels (svcMeta s) !! requestIDLabel = Some reqID)) as [Hl|Hl].
    + rewrite bool_decide_eq_true_2.
      * symmetry. apply map_lookup_filter_None. right. intros s' Hs'. cbn.
        assert (s' = s) as -> by congruence. by intros Hne.
      * rewrite <- (Hkeys k s Ek). apply list_elem_of_fmap. exists s.
        split; [reflexivity|]. apply list_elem_of_In, Hlisted. eauto.
    + rewrite bool_decide_eq_false_2.
      * symmetry. apply map_lookup_filter_Some. split; [exact Ek|exact Hl].
      * intros Hin. apply list_elem_of_fmap in Hin as (s' & Hk' & Hin).
        apply list_elem_of_In, Hlisted in Hin as (k' & Hk2 & Hl').
        rewrite (Hkeys k' s' Hk2) in Hk'. subst k'. congruence.
  - destruct (bool_decide _); symmetry; apply map_lookup_filter_None; by left.
Qed.

(** X11.  A reconcile request for a name under which there
    is neither an Access-Request (looked up by the name alone, the kind
    being cluster-scoped) nor, in the namespace of the request, an Access
    Declaration or an ExternalAccess, the three lookups being served,
    ends with [nil] after exactly these three lookups, in this order,
    and changes nothing. *)
Theorem Reconcile_unknown_name namespace name w :
  accessRequests w !! ("", name) = None ->
  accesses w !! (namespace, name) = None ->
  externalAccesses w !! (namespace, name) = None ->
  (forall t, faults (env w) t (Call ReconcilerClient (OpGet KAccessRequest "" name)) = None) ->
  (forall t k, faults (env w) t (Call ReconcilerClient (OpGet k namespace name)) = None) ->
  exists w', Reconcile namespace name w = Ret None w' /\ agree w' w /\
    trace w' =
      (Call ReconcilerClient (OpGet KExternalAccess namespace name), Some (notFound name))
      :: (Call ReconcilerClient (OpGet KAccess namespace name), Some (notFound name))
      :: (Call ReconcilerClient (OpGet KAccessRequest "" name), Some (notFound name))
      :: trace w.
Proof.
  intros Hr Ha Hx Hf0 Hf. unfold Reconcile, Api.Get, perform. munfold.
  cbn [kindOf AccessRequestObject AccessObject ExternalAccessObject store].
  rewrite Hf0, Hr. wcbn. rewrite Hf, Ha. wcbn. rewrite Hf, Hx. wcbn.
  eexists. split; [reflexivity|]. split; [|reflexivity]. repeat split.
Qed.

(** The namespace of the reconcile request plays no part in finding an
    Access-Request: one stored under [name] is handed to
    [reconcileAccessRequest] whatever the namespace. *)
Lemma Reconcile_request_by_name_alone namespace name request w :
  accessRequests w !! ("", name) = Some request ->
  (forall t, faults (env w) t (Call ReconcilerClient (OpGet KAccessRequest "" name)) = None) ->
  Reconcile namespace name w = Reconcile "" name w
  /\ exists w1, agree w1 w
       /\ trace w1 = (Call ReconcilerClient (OpGet KAccessRequest "" name), None) :: trace w
       /\ Reconcile namespace name w = reconcileAccessRequest request w1.
Proof.
  intros Hr Hf. unfold Reconcile, Api.Get, perform. munfold.
  cbn [kindOf AccessRequestObject store].
  rewrite Hf, Hr. wcbn. split; [reflexivity|].
  eexists. split; [|split; [|reflexivity]]; [repeat split|reflexivity].
Qed.

(** *** The facade: cloning a Service *)


(** *** The permission gate of a direct grant *)

Lemma decidedByFirst_cases vs :
  (Forall (eq Allowed) vs /\ decidedByFirst vs = (true, None))
  \/ (~ Forall (eq Allowed) vs /\ exists e, decidedByFirst vs = (false, e)).
Proof.
  induction vs as [|v vs IH]; [left; split; [constructor|reflexivity]|].
  destruct v as [| |e]; cbn [decidedByFirst].
  - destruct IH as [[Hall E]|[Hnot E]].
    + left. split; [by constructor|exact E].
    + right. split; [|exact E]. intros Hall. apply Hnot. by inversion Hall.
  - right. split; [|by eexists]. intros Hall. inversion Hall; discriminate.
  - right. split; [|by eexists]. intros Hall. inversion Hall; discriminate.
Qed.

Lemma sendError_refused msg err logType w0 w :
  agreeButLog w0 w ->
  exists w', sendError msg err logType w0 = Ret tt w' /\ refused logType w w'.
Proof.
  intros Ha. unfold sendError, Logger.Error, Logger.Warn, logAndBroadcast. munfold.
  destruct err as [e|]; (eexists; split; [reflexivity|]); unfold refused; split_agree;
    repeat split; try assumption; eexists; f_equal; f_equal; assumption.
Qed.

Lemma gate_closed u perms w0 w :
  agreeButLog w0 w -> clock w0 = clock w -> ~ allAllowed w u perms ->
  exists e w1, CanPerformAllActions u perms w0 = Ret (false, e) w1 /\ agreeButLog w1 w.
Proof.
  intros Ha Hc Hnot.
  destruct (CanPerformAllActions_step u perms w0) as (w1 & E & Ha1).
  assert (He : env w0 = env w) by apply Ha.
  rewrite Hc, He, (verdictsFrom_env w w0) in E by exact He.
  destruct (decidedByFirst_cases
              (verdictsFrom w u (clock w) (completion (env w) perms)))
    as [[Hall _]|[_ (e & Hd)]]; [by destruct Hnot|].
  rewrite Hd in E. exists e, w1. split; [exact E|]. agree_tac.
Qed.

(** X13.  [handleRequestClusterAccess] creates nothing unless both
    service references have the form namespace/name and every one of
    the four permission checks, create on Services and on Access
    Declarations in the source and in the target namespace, is answered
    with a yes: otherwise, whether a check was denied or could not be
    evaluated, the stores are as before, no identifier is drawn and a
    failure is reported to the caller. *)
Theorem handleRequestClusterAccess_refused_without_permissions p payload w :
  directGrantPasses p payload w = false ->
  exists w', handleRequestClusterAccess p payload w = Ret tt w' /\ refused "Service" w w'.
Proof.
  intros Hnot. unfold directGrantPasses in Hnot.
  unfold handleRequestClusterAccess, Logger.Info. munfold.
  set (w0 := logged _ w).
  assert (Ha0 : agreeButLog w0 w) by repeat split.
  destruct (Split (Payload.SourceService payload) "/") as [|sNs [|sName [|]]] eqn:Es;
    try (by apply sendError_refused).
  destruct (Split (Payload.TargetService payload) "/") as [|tNs [|tName [|]]] eqn:Et;
    try (by apply sendError_refused).
  destruct (gate_closed (userInfo p) (directGrantPermissions sNs tNs) w0 w Ha0 eq_refl)
    as (e & w1 & -> & Ha1).
  { intros Hall. apply not_true_iff_false in Hnot. apply Hnot.
    apply forallb_forall. intros v Hv. unfold allAllowed in Hall.
    rewrite List.Forall_forall in Hall. by rewrite <- (Hall v Hv). }
  cbv beta iota. destruct e as [err|]; by apply sendError_refused.
Qed.

(** *** Direct creation of an external grant *)

Lemma sendError_step msg err logType w0 :
  exists w', sendError msg err logType w0 = Ret tt w' /\
    env w' = env w0 /\ services w' = services w0 /\ accesses w' = accesses w0 /\
    externalAccesses w' = externalAccesses w0 /\ accessRequests w' = accessRequests w0 /\
    uuidCount w' = uuidCount w0 /\ trace w' = trace w0 /\ clock w' = clock w0 /\
    failureReported logType w0 w' /\
    slog w' = MkLine (match err with Some _ => LError | None => LWarn end) msg err :: slog w0.
Proof.
  unfold sendError, Logger.Error, Logger.Warn, logAndBroadcast, failureReported. munfold.
  destruct err as [e|]; (eexists; split; [reflexivity|]); repeat split; eexists; reflexivity.
Qed.

Lemma CanPerformAllActions_quiet u perms w :
  exists w1, CanPerformAllActions u perms w =
             Ret (decidedByFirst (verdictsFrom w u (clock w) (completion (env w) perms))) w1
             /\ agreeButLog w1 w /\ cleanupFailures w1 = cleanupFailures w.
Proof.
  unfold CanPerformAllActions. munfold.
  destruct (forEach_checkOne u (completion (env w) perms) w) as (rs & w1 & -> & Ha & Hrs).
  rewrite <- Hrs. unfold verdictOfWait, Logger.Info. munfold.
  assert (Hl : slog w1 = slog w) by apply Ha.
  destruct (firstError rs) as [err|]; [destruct (HasPrefix _ _)|];
    eexists; (split; [reflexivity|]); (split; [agree_tac|]);
    unfold cleanupFailures; wcbn; cbn [List.filter isCleanupFailure level]; by rewrite Hl.
Qed.

Section ExternalGrantFacts.
Variables parseCIDR parseIP : string -> bool.

(** X14.  A run of [handleRequestExternalAccess] over a cluster
    whose Services are stored under their own names ends in one of three
    ways.  It succeeds: the command passed the gate, the trimmed source
    address parses as a CIDR block or as an address, and exactly one
    clone and one ExternalAccess were added, the ExternalAccess
    selecting the clone by the identifier drawn and holding the address
    as it was sent, untrimmed.  Or it reports a failure: no
    ExternalAccess was added, and unless a compensation failure was
    logged the Services are as before.  Or the identifier drawn is
    shorter than four bytes and the run panics with the stores
    untouched.  Access Declarations and Access-Requests never change. *)
Theorem handleRequestExternalAccess_outcome p payload w :
  wellKeyed w ->
  let o := handleRequestExternalAccess parseCIDR parseIP p payload w in
  accesses (final o) = accesses w /\ accessRequests (final o) = accessRequests w /\
  match o with
  | Ret _ w' =>
      (externalGrantAdded p payload w w' /\
       parseCIDR (TrimSpace (Payload.Cidr payload))
         || parseIP (TrimSpace (Payload.Cidr payload)) = true /\
       broadcast w' =
         (successReport "External" "SUCCESS: ExternalAccess policy request sent."
            ++ broadcast w)%list)
      \/ (externalAccesses w' = externalAccesses w /\
          (cleanupFailures w' = cleanupFailures w -> services w' = services w) /\
          failureReported "External" w w')
  | Panic _ w' =>
      services w' = services w /\ externalAccesses w' = externalAccesses w /\
      (String.length (uuids (env w) (uuidCount w)) < 4)%nat
  end.
Proof.
  intros Hkeys. unfold handleRequestExternalAccess, Logger.Info. munfold.
  set (w0 := logged _ w).
  assert (Ha0 : agreeButLog w0 w) by repeat split.
  assert (Hearly : forall msg err w1, agreeButLog w1 w ->
            let o := sendError msg err "External" w1 in
            accesses (final o) = accesses w /\ accessRequests (final o) = accessRequests w /\
            match o with
            | Ret _ w' =>
                (externalGrantAdded p payload w w' /\
                 parseCIDR (TrimSpace (Payload.Cidr payload))
                   || parseIP (TrimSpace (Payload.Cidr payload)) = true /\
                 broadcast w' =
                   (successReport "External" "SUCCESS: ExternalAccess policy request sent."
                      ++ broadcast w)%list)
                \/ (externalAccesses w' = externalAccesses w /\
                    (cleanupFailures w' = cleanupFailures w -> services w' = services w) /\
                    failureReported "External" w w')
            | Panic _ w' =>
                services w' = services w /\ externalAccesses w' = externalAccesses w /\
                (String.length (uuids (env w) (uuidCount w)) < 4)%nat
            end).
  { intros msg err w1 Ha1 o. subst o.
    destruct (sendError_step msg err "External" w1)
      as (w' & -> & _ & Hs & Hac & Hx & Hr & _ & _ & _ & (report & Hb) & _).
    cbn [final]. split_agree.
    split; [congruence|]. split; [congruence|]. right.
    split; [congruence|]. split; [intros _; congruence|].
    exists report. congruence. }
  destruct (Split (Payload.Service payload) "/") as [|serviceNs [|serviceName [|]]] eqn:Es;
    try (by apply Hearly).
  destruct (CanPerformAllActions_quiet (userInfo p) (externalGrantPermissions serviceNs) w0)
    as (w1 & -> & Ha1 & Hq1).
  change (cleanupFailures w0) with (cleanupFailures w) in Hq1.
  change (clock w0) with (clock w). change (env w0) with (env w).
  rewrite (verdictsFrom_env w w0) by reflexivity.
  assert (Ha1' : agreeButLog w1 w) by agree_tac.
  destruct (decidedByFirst_cases
              (verdictsFrom w (userInfo p) (clock w)
                 (completion (env w) (externalGrantPermissions serviceNs))))
    as [[Hall ->]|[_ (e & ->)]]; cbv beta iota;
    [|destruct e; by apply Hearly].
  cbn [negb]. cbv iota.
  unfold GetImpersonatingKubeClient. munfold.
  destruct (verifyToken (env w1) (idToken p)) as [user|e]; cbv beta iota;
    [|by apply Hearly].
  destruct (getOverridePorts (Payload.Ports payload)) as [ports|e]; [|by apply Hearly].
  destruct (parseCIDR (TrimSpace (Payload.Cidr payload))
            || parseIP (TrimSpace (Payload.Cidr payload))) eqn:Hparse.
  2: { apply orb_false_elim in Hparse as [-> ->]. cbn [negb andb]. cbv iota.
       by apply Hearly. }
  replace (negb (parseCIDR (TrimSpace (Payload.Cidr payload)))
           && negb (parseIP (TrimSpace (Payload.Cidr payload)))) with false
    by (symmetry; rewrite <- negb_orb, Hparse; reflexivity).
  cbv iota. unfold uuidNew, randSuffixOf, orPanic. munfold. cbv beta iota.
  assert (Hid : uuids (env w1) (uuidCount w1) = uuids (env w) (uuidCount w))
    by (split_agree; congruence).
  rewrite Hid. clear Hid.
  destruct (slice_to 8 (hexEncode (uuids (env w) (uuidCount w)))) as [suffix|] eqn:Hsuffix;
    cbv beta iota.
  2: { cbn [final]. split_agree. repeat split; try assumption.
       unfold slice_to, len in Hsuffix. rewrite length_hexEncode in Hsuffix.
       destruct (8 <=? _)%nat eqn:E8; [discriminate|]. apply Nat.leb_gt in E8. lia. }
  set (id := uuids (env w) (uuidCount w)) in *.
  set (cloneName := "nc-" ++ shortHash serviceName ++ "-" ++ suffix).
  step_clone.
  2: { destruct Hr as (Ha2 & _).
       match goal with
       | |- context [sendError ?msg ?e ?lt ?w3] =>
           destruct (sendError_step msg e lt w3)
             as (w' & -> & _ & Hs & Hac & Hx & Hrq & _ & _ & _ & (report & Hb) & _)
       end.
       cbn [final]. split_agree. wcbn.
       split; [congruence|]. split; [congruence|]. right.
       split; [congruence|]. split; [intros _; congruence|]. exists report. congruence. }
  destruct Hr as ((orig & Horig & Hc) & Hfin & Hnone & (t & Ha2) & _).
  destruct (clonedServiceOf_meta orig serviceNs serviceName cloneName (requestLabel id) ports)
    as (Hn & Hns & Hl & _).
  rewrite <- Hc in Hn, Hns, Hl. unfold keyOf in Hnone, Ha2. cbn [meta ServiceObject] in Hnone, Ha2.
  assert (Horig' : services w !! (serviceNs, serviceName) = Some orig)
    by (split_agree; wcbn; congruence).
  assert (Hns' : Namespace (svcMeta orig) = serviceNs)
    by (pose proof (Hkeys _ _ Horig') as Hk; unfold keyOf in Hk;
        cbn [meta ServiceObject] in Hk; congruence).
  rewrite Hn, Hns, Hns' in Hnone, Ha2. clear Hc.
  step_create.
  - destruct Hc as (Ha3 & _).
    match goal with
    | |- context [sendError ?msg ?e ?lt ?w3] =>
        destruct (sendError_step msg e lt w3)
          as (w4 & -> & He4 & Hs4 & Hac4 & Hx4 & Hrq4 & _ & _ & _ & (report & Hb4) & Hl4)
    end.
    cbv beta iota. step_cleanup.
    cbn [final]. split_agree. wcbn.
    split; [congruence|]. split; [congruence|]. right.
    split; [congruence|]. split; [|exists report; congruence].
    intros Hcf.
    assert (Hm' : m = deleted (Z.of_nat (clock w4)) (serviceNs, cloneName) (services w4)).
    { apply Hm. rewrite Hcf, <- Hq1. unfold cleanupFailures. rewrite Hl4.
      cbn [List.filter isCleanupFailure level message].
      change (HasPrefix "Could not create ExternalAccess policy" "Failed to cleanup")
        with false. cbv iota. congruence. }
    match goal with H : services _ = m |- _ => rewrite H end.
    rewrite Hm', Hs4.
    match goal with H : services ?w5 = services w2 |- _ => rewrite H end.
    match goal with H : services w2 = <[_ := _]> _ |- _ => rewrite H end.
    unfold deleted. rewrite lookup_insert_eq. unfold afterDelete.
    rewrite stamp_finalizers_service, Hfin.
    rewrite delete_insert_eq, delete_id by exact Hnone. congruence.
  - destruct Hc as (Hxnone & Ha3). unfold logAndBroadcast. munfold. cbn [final].
    subst cloneName id.
    unfold keyOf in Hxnone, Ha3. wcbn. split_agree. wcbn.
    split; [congruence|]. split; [congruence|]. left.
    split; [|split; [reflexivity|unfold successReport; cbn [app]; congruence]].
    match goal with
    | H : externalAccesses _ = <[_ := ?ea]> _ |- _ => exists serviceNs, serviceName, suffix, ea
    end.
    cbv zeta. wcbn.
    split; [exact Es|]. split; [exact Hall|]. split; [exact Hsuffix|].
    split.
    { match goal with
      | H : services _ = <[_ := ?stored]> _ |- _ => exists orig, stored
      end.
      rewrite Hns'. wcbn.
      split; [exact Horig'|]. split; [congruence|]. split; [exact Hn|].
      split; [etransitivity; [exact Hns|exact Hns']|]. split; [exact Hl|]. congruence. }
    split; [congruence|]. split; [congruence|]. repeat split.
Qed.

End ExternalGrantFacts.

(** *** Denying or aborting a request: who may *)

Ltac authz_calls w :=
  unfold sendError, Logger.Error, Logger.Warn, logAndBroadcast; munfold; wcbn; chase;
  match goal with
  | |- exists calls, ?t = _ /\ _ => let L := prefix_of t (trace w) in exists L
  end;
  split; [reflexivity|].

Ltac authz_in Hin :=
  cbn [In] in Hin;
  repeat match type of Hin with _ \/ _ => destruct Hin as [Hin|Hin] end;
  try contradiction; try (injection Hin as <- <-).

(** A leaf reached without any delete and, when [noReview] holds, without
    a review. *)
Ltac authz_leaf w final_ :=
  authz_calls w;
  split; [intros ? ? Hin Hdel; authz_in Hin; first [discriminate Hdel|final_]
         |intros ? ? Hin Hrev; authz_in Hin; first [discriminate Hrev|final_]].

Ltac authz_request_delete w final_ :=
  match goal with
  | |- context [Api.Delete AccessRequest ?cl ?ns ?n ?w0] =>
      let e := fresh "e" in let w1 := fresh "w" in let Ht := fresh "Ht" in
      destruct (Delete_step (T:=AccessRequest) cl ns n w0) as (e & w1 & -> & Ht & _);
      destruct e; cbv beta iota; authz_leaf w final_
  end.

Ltac authz_tail w final_ :=
  unfold GetImpersonatingKubeClient; munfold;
  destruct (verifyToken _ _); cbv beta iota; [|authz_leaf w final_];
  destruct (_ || _); cbv beta iota;
  [ destruct (if String.eqb _ _ then _ else _) as [? ?]; cbv beta iota;
    match goal with
    | |- context [Api.Delete Access ?cl ?ns ?n ?w0] =>
        let e := fresh "e" in let w1 := fresh "w" in let Ht := fresh "Ht" in
        destruct (Delete_step (T:=Access) cl ns n w0) as (e & w1 & -> & Ht & _);
        destruct e as [?err|]; [destruct (negb (IsNotFound _))|]; cbv beta iota;
        rewrite ?sendError_Some; authz_request_delete w final_
    end
  | authz_request_delete w final_ ].

(** X15.  [handleDenyAccessRequest] issues a delete, of an Access
    Declaration or of the request itself, only when the request exists
    and the caller either is its owner (the e-mail address equals the
    requestor's) or is allowed to delete Access-Requests by the
    authorization subsystem; and it consults the authorization
    subsystem only for a caller who is not the owner. *)
Theorem handleDenyAccessRequest_deletes_only_when_authorized p payload w :
  let w' := final (handleDenyAccessRequest p payload w) in
  exists calls, trace w' = (calls ++ trace w)%list /\
    (forall call r, In (call, r) calls -> isDelete call = true ->
       exists request,
         accessRequests w !! ("", Payload.RequestID payload) = Some request /\
         (Email (userInfo p) = Requestor (arSpec request)
          \/ allowed (env w) (denyReview p request) = true)) /\
    (forall call r, In (call, r) calls -> isReview call = true ->
       exists request,
         accessRequests w !! ("", Payload.RequestID payload) = Some request /\
         Email (userInfo p) <> Requestor (arSpec request) /\
         call = Call AppClient (OpReview (denyReview p request))).
Proof.
  unfold handleDenyAccessRequest, GetAccessRequestAsApp, DeleteAccessRequestAsApp, DeleteAccess,
    Logger.Info.
  munfold.
  match goal with
  | |- context [Api.Get AccessRequest ?cl ?ns ?n ?w0] =>
      destruct (Get_step (T:=AccessRequest) cl ns n w0) as (r & w1 & -> & Ha1 & Ht1 & Hr)
  end.
  destruct r as [request|e]; cbv beta iota; [|authz_leaf w idtac].
  cbn [store AccessRequestObject accessRequests logged] in Hr.
  assert (He1 : env w1 = env w) by apply Ha1.
  destruct (String.eqb_spec (Email (userInfo p)) (Requestor (arSpec request))) as [Hown|Hown];
    cbv beta iota.
  - cbn [negb]. cbv iota.
    authz_tail w ltac:(exists request; split; [exact Hr|by left]).
  - unfold CanPerformAction, perform. munfold.
    destruct (faults _ _ _) as [ft|]; cbv beta iota.
    { authz_leaf w ltac:(exists request; split; [exact Hr|split; [exact Hown|reflexivity]]). }
    cbn [fst snd]. destruct (allowed _ _) eqn:Hal; cbn [negb]; cbv beta iota.
    2: { authz_leaf w ltac:(exists request; split; [exact Hr|split; [exact Hown|reflexivity]]). }
    rewrite He1 in Hal.
    authz_tail w ltac:(first [ exists request; split; [exact Hr|by right]
                             | exists request; split; [exact Hr|split; [exact Hown|reflexivity]] ]).
Qed.

(** *** Approval of a partial request, and the reconciler after it *)

Lemma approvalReported_not_failure msg err logType w0 w :
  broadcast w0 = broadcast w ->
  ~ approvalReported w (final (sendError msg err logType w0)).
Proof.
  intros Hb (m & lt & H).
  destruct (sendError_step msg err logType w0)
    as (w' & E & _ & _ & _ & _ & _ & _ & _ & _ & (report & Hr) & _).
  rewrite E in H. cbn [final] in H. rewrite Hr, Hb in H. discriminate H.
Qed.

Lemma hasOwnedSide_partial request :
  hasOwnedSide request = true -> isPartial (Status (arSpec request)) = true.
Proof.
  unfold hasOwnedSide. destruct (ownedSide _). intros H. by apply andb_true_iff in H as [H _].
Qed.

(** X16.  When the approval of a request in a partial
    status is reported as a success, the record carries the reconciler's
    finalizer and its delete is served, the record stays stored, marked
    for deletion and still in its partial status; the reconciler's pass
    over it then issues the delete of the Access Declaration of the side
    the request owns, the one created when the request was submitted. *)
Theorem approved_partial_request_has_its_own_side_deleted p payload w request w' :
  accessRequests w !! ("", Payload.RequestID payload) = Some request ->
  ContainsFinalizer request accessRequestFinalizerName = true ->
  hasOwnedSide request = true ->
  requestDeleteServed (Payload.RequestID payload) w ->
  handleApproveAccessRequest p payload w = Ret tt w' ->
  approvalReported w w' ->
  exists marked,
    accessRequests w' !! ("", Payload.RequestID payload) = Some marked /\
    arSpec marked = arSpec request /\
    notBeingDeleted (arMeta marked) = false /\
    exists result w'' e after,
      reconcileAccessRequest marked w' = Ret result w'' /\
      trace w'' = (after ++ (ownedAccessDelete request, e) :: trace w')%list.
Proof.
  intros Hreq Hfin Hown Hserved.
  pose proof (hasOwnedSide_partial request Hown) as Hpart.
  unfold handleApproveAccessRequest, GetAccessRequestAsApp, DeleteAccessRequestAsApp,
    Logger.Info. munfold.
  match goal with
  | |- context [Api.Get AccessRequest ?cl ?ns ?n ?w0] =>
      destruct (Get_step (T:=AccessRequest) cl ns n w0) as (r & w1 & -> & Ha1 & _ & Hr)
  end.
  assert (Hfail : forall msg err logType w0,
            broadcast w0 = broadcast w ->
            sendError msg err logType w0 = Ret tt w' -> approvalReported w w' -> False).
  { intros msg err lt w0 Hb E Hrep.
    apply (approvalReported_not_failure msg err lt w0 w Hb). by rewrite E. }
  destruct r as [request'|e]; cbv beta iota.
  2: { intros E Hrep. exfalso. eapply Hfail; [|exact E|exact Hrep]. by destruct Ha1 as (_&_&_&_&_&_&->&_). }
  cbn [store AccessRequestObject accessRequests logged] in Hr.
  assert (request' = request) as -> by congruence.
  unfold GetImpersonatingKubeClient. munfold.
  destruct (verifyToken (env w1) (idToken p)) as [user|e]; cbv beta iota.
  2: { intros E Hrep. exfalso. eapply Hfail; [|exact E|exact Hrep]. by destruct Ha1 as (_&_&_&_&_&_&->&_). }
  unfold isPartial in Hpart.
  assert (Hnf : String.eqb (Status (arSpec request)) "PendingFull" = false).
  { destruct (String.eqb_spec (Status (arSpec request)) "PendingFull") as [E|]; [|reflexivity].
    rewrite E in Hpart. discriminate Hpart. }
  rewrite Hnf.
  assert (Hfinish : forall w2,
            onlyGrants w w2 ->
            (e ← Api.Delete AccessRequest AppClient "" (Payload.RequestID payload);
             match e with
             | Some err => Logger.Error "Failed to delete approved AccessRequest CR" (Some err)
             | None => mret tt
             end;;
             logAndBroadcast
               (MkEntry ("SUCCESS: Request from " ++ Requestor (arSpec request) ++ " approved by "
                           ++ Email (userInfo p) ++ ".")
                        "log-success" (RequestType (arSpec request)) "applyResult");;
             logAndBroadcast
               (MkEntry "--- Request complete ---" "log-success" (RequestType (arSpec request))
                        "applyComplete")) w2 = Ret tt w' ->
            exists marked,
              accessRequests w' !! ("", Payload.RequestID payload) = Some marked /\
              arSpec marked = arSpec request /\
              notBeingDeleted (arMeta marked) = false /\
              exists result w'' e after,
                reconcileAccessRequest marked w' = Ret result w'' /\
                trace w'' = (after ++ (ownedAccessDelete request, e) :: trace w')%list).
  { intros w2 (He2 & _ & Hr2 & _ & _) E. revert E.
    unfold Api.Delete, performE, perform, Logger.Error, logAndBroadcast. munfold.
    cbn [kindOf AccessRequestObject store]. rewrite He2, Hserved, Hr2, Hreq.
    cbv beta iota. cbn [errorOf]. cbv beta iota. intros [= <-].
    unfold afterDelete. cbn [meta AccessRequestObject].
    destruct (Finalizers (arMeta request)) as [|f fs] eqn:Ef;
      [unfold ContainsFinalizer in Hfin; cbn [meta AccessRequestObject] in Hfin;
       rewrite Ef in Hfin; discriminate Hfin|].
    set (marked := setMeta (markDeleted (Z.of_nat (clock w2)) (arMeta request)) request).
    exists marked. wcbn. split; [apply lookup_insert_eq|]. split; [reflexivity|].
    assert (Hnd : notBeingDeleted (arMeta marked) = false).
    { unfold notBeingDeleted, marked. cbn. by destruct (DeletionTimestamp (arMeta request)). }
    split; [exact Hnd|].
    assert (Hcf : ContainsFinalizer marked accessRequestFinalizerName = true).
    { unfold ContainsFinalizer in *. cbn [meta AccessRequestObject] in *.
      unfold marked. cbn. rewrite Ef. rewrite Ef in Hfin. exact Hfin. }
    unfold reconcileAccessRequest. rewrite Hnd, Hcf. munfold.
    match goal with
    | |- context [cleanupPartialAccess marked ?w3] =>
        destruct (cleanupPartialAccess_calls marked w3)
          as (r0 & w4 & calls0 & -> & Ht4 & _ & _ & _ & _ & Hc)
    end.
    change (hasOwnedSide marked) with (hasOwnedSide request) in Hc. rewrite Hown in Hc.
    destruct Hc as (e & -> & _ & _).
    change (ownedAccessDelete marked) with (ownedAccessDelete request) in Ht4.
    destruct r0 as [err|]; cbv beta iota.
    - unfold Logger.Error. munfold. eexists _, _, e, []. split; [reflexivity|]. exact Ht4.
    - match goal with
      | |- context [Api.Update ?cl ?o ?w0] =>
          destruct (Update_step (T:=AccessRequest) cl o w0) as (e2 & w5 & -> & Ht5 & _)
      end.
      exists e2, w5, e, [(finalizerUpdate request, e2)].
      split; [by destruct e2|]. rewrite Ht5, Ht4. reflexivity. }
  assert (Hb1 : broadcast w1 = broadcast w) by (by destruct Ha1 as (_&_&_&_&_&_&->&_)).
  assert (Hg1 : onlyGrants w w1)
    by (unfold onlyGrants; destruct Ha1 as (-> & _ & _ & -> & -> & -> & -> & _); repeat split).
  destruct (String.eqb (Status (arSpec request)) "PendingTarget").
  - match goal with
    | |- context [approvePartialRequest ?p ?cl ?rq ?side ?w0] =>
        pose proof (approvePartialRequest_step p cl rq side w0) as Hstep; cbv zeta in Hstep;
        destruct (approvePartialRequest p cl rq side w0) as [[err|] w2|why w2];
        cbn [final] in Hstep; destruct Hstep as (Hg2 & _)
    end; cbv beta iota.
    + intros E Hrep. exfalso. eapply Hfail; [|exact E|exact Hrep].
      destruct Hg2 as (_ & _ & _ & _ & ->). exact Hb1.
    + intros E _. apply (Hfinish w2); [|exact E].
      unfold onlyGrants in *. wcbn. destruct Hg1 as (? & ? & ? & ? & ?).
      destruct Hg2 as (? & ? & ? & ? & ?). repeat split; congruence.
    + intros [=].
  - destruct (String.eqb (Status (arSpec request)) "PendingSource").
    + match goal with
      | |- context [approvePartialRequest ?p ?cl ?rq ?side ?w0] =>
          pose proof (approvePartialRequest_step p cl rq side w0) as Hstep; cbv zeta in Hstep;
          destruct (approvePartialRequest p cl rq side w0) as [[err|] w2|why w2];
          cbn [final] in Hstep; destruct Hstep as (Hg2 & _)
      end; cbv beta iota.
      * intros E Hrep. exfalso. eapply Hfail; [|exact E|exact Hrep].
        destruct Hg2 as (_ & _ & _ & _ & ->). exact Hb1.
      * intros E _. apply (Hfinish w2); [|exact E].
        unfold onlyGrants in *. wcbn. destruct Hg1 as (? & ? & ? & ? & ?).
        destruct Hg2 as (? & ? & ? & ? & ?). repeat split; congruence.
      * intros [=].
    + intros E Hrep. exfalso. eapply Hfail; [|exact E|exact Hrep]. exact Hb1.
Qed.

(** *** Revocation *)

Lemma afterDelete_goneOrMarked now k (o : Access) m k' :
  (k' = k \/ goneOrMarked m k') -> goneOrMarked (afterDelete now k o m) k'.
Proof.
  unfold goneOrMarked, afterDelete. cbn [meta AccessObject].
  destruct (decide (k' = k)) as [->|Hne]; intros Hk.
  - destruct (Finalizers (accMeta o)); [by rewrite lookup_delete_eq|].
    rewrite lookup_insert_eq. cbn. unfold notBeingDeleted. cbn.
    by destruct (DeletionTimestamp (accMeta o)).
  - destruct Hk as [Hk|Hk]; [by destruct Hne|].
    destruct (Finalizers (accMeta o));
      [by rewrite lookup_delete_ne by congruence|by rewrite lookup_insert_ne by congruence].
Qed.

Lemma deleteListed_step cl items : forall errs w,
  exists more w' calls,
    deleteListed cl items errs w = Ret (errs ++ more)%list w' /\
    trace w' = (calls ++ trace w)%list /\
    onlyAccesses w w' /\ broadcast w' = broadcast w /\
    (forall a, In a items -> exists e, In (accessDelete cl a, e) calls) /\
    (forall k, goneOrMarked (accesses w) k -> goneOrMarked (accesses w') k) /\
    (more = [] -> forall a, In a items -> goneOrMarked (accesses w') (keyOf a)) /\
    (more <> [] ->
     exists a e, In a items /\ In (accessDelete cl a, Some e) calls /\ IsNotFound e = false).
Proof.
  induction items as [|a items IH]; intros errs w.
  - exists [], w, []. rewrite List.app_nil_r. repeat split; try done.
  - cbn [deleteListed]. unfold DeleteAccess. munfold.
    destruct (Delete_step (T:=Access) cl (Namespace (accMeta a)) (Name (accMeta a)) w)
      as (e & w1 & -> & Ht & Hd).
    cbn [kindOf AccessObject] in Ht.
    assert (Hw1 : onlyAccesses w w1 /\ broadcast w1 = broadcast w /\
                  (forall k, (k = keyOf a /\ (e = None \/ e = Some (notFound (Name (accMeta a)))))
                             \/ goneOrMarked (accesses w) k ->
                             goneOrMarked (accesses w1) k)).
    { destruct Hd as [(ft & -> & Ha)|[(-> & Hn & Ha)|(o & -> & Ho & Ha)]].
      - split; [unfold onlyAccesses; split_agree; repeat split; assumption|].
        split; [by destruct Ha as (_&_&_&_&_&_&->&_)|].
        intros k [[_ [|]]|Hk]; try discriminate.
        by destruct Ha as (_ & _ & -> & _).
      - split; [unfold onlyAccesses; split_agree; repeat split; assumption|].
        split; [by destruct Ha as (_&_&_&_&_&_&->&_)|].
        destruct Ha as (_ & _ & -> & _). intros k [[-> _]|Hk]; [|exact Hk].
        unfold goneOrMarked, keyOf. cbn [meta AccessObject store] in *. by rewrite Hn.
      - split; [unfold onlyAccesses; split_agree; repeat split; assumption|].
        split; [by destruct Ha as (_&_&_&_&_&_&->&_)|].
        destruct Ha as (_ & _ & -> & _). cbn [accesses setStore AccessObject setAccesses].
        intros k Hk. apply afterDelete_goneOrMarked.
        destruct Hk as [[-> _]|Hk]; [by left|by right]. }
    destruct Hw1 as (Hf1 & Hb1 & Hg1).
    match goal with
    | |- context [deleteListed cl items ?errs1 w1] =>
        destruct (IH errs1 w1) as (more & w2 & calls & E2 & Ht2 & Hf2 & Hb2 & Hall & Hg2 & Hok & Hbad)
    end.
    assert (Hf : onlyAccesses w w2).
    { unfold onlyAccesses in *. destruct Hf1 as (? & ? & ? & ? & ?).
      destruct Hf2 as (? & ? & ? & ? & ?). repeat split; congruence. }
    assert (Hcalls : trace w2 = ((calls ++ [(accessDelete cl a, e)]) ++ trace w)%list)
      by (rewrite Ht2, Ht, <- List.app_assoc; reflexivity).
    assert (Hattempt : forall a', In a' (a :: items) ->
              exists e', In (accessDelete cl a', e') (calls ++ [(accessDelete cl a, e)])%list).
    { intros a' [<-|Hin]; [exists e; apply List.in_app_iff; right; by left|].
      destruct (Hall a' Hin) as (e' & He'). exists e'. apply List.in_app_iff. by left. }
    destruct e as [err|]; [destruct (IsNotFound err) eqn:Enf|]; cbn [negb] in E2.
    + exists more, w2, (calls ++ [(accessDelete cl a, Some err)])%list.
      split; [exact E2|]. split; [exact Hcalls|]. split; [exact Hf|].
      split; [congruence|]. split; [exact Hattempt|].
      split; [intros k Hk; apply Hg2, Hg1; by right|].
      split.
      * intros Hm a' [<-|Hin]; [|by apply Hok].
        apply Hg2, Hg1. left. split; [reflexivity|]. right.
        destruct Hd as [(ft & [= ->] & _)|[([= ->] & _)|(o & [=] & _)]];
          [discriminate Enf|reflexivity].
      * intros Hm. destruct (Hbad Hm) as (a' & e' & Hin & Hc & Hnf).
        exists a', e'. split; [by right|]. split; [apply List.in_app_iff; by left|exact Hnf].
    + rewrite <- List.app_assoc in E2.
      eexists _, w2, (calls ++ [(accessDelete cl a, Some err)])%list.
      split; [exact E2|]. split; [exact Hcalls|]. split; [exact Hf|].
      split; [congruence|]. split; [exact Hattempt|].
      split; [intros k Hk; apply Hg2, Hg1; by right|].
      split; [intros [=]|].
      intros _. exists a, err. split; [by left|].
      split; [apply List.in_app_iff; right; by left|exact Enf].
    + exists more, w2, (calls ++ [(accessDelete cl a, None)])%list.
      split; [exact E2|]. split; [exact Hcalls|]. split; [exact Hf|].
      split; [congruence|]. split; [exact Hattempt|].
      split; [intros k Hk; apply Hg2, Hg1; by right|].
      split.
      * intros Hm a' [<-|Hin]; [|by apply Hok].
        apply Hg2, Hg1. left. split; [reflexivity|by left].
      * intros Hm. destruct (Hbad Hm) as (a' & e' & Hin & Hc & Hnf).
        exists a', e'. split; [by right|]. split; [apply List.in_app_iff; by left|exact Hnf].
Qed.

Lemma listed_accesses label w w' :
  accesses w' = accesses w -> @listed Access _ label w' = @listed Access _ label w.
Proof. unfold listed. cbn [store AccessObject]. by intros ->. Qed.

(** X17.  [handleRevokeClusterAccess] changes nothing but Access
    Declarations.  Either it stops before any delete, with a failure
    reported and the stores as before; or the named declaration exists
    and carries a request id, and then a delete is issued for every
    declaration listed under that id, also after one of them failed.
    In that case it reports a failure only when some delete failed
    other than with not-found; when it reports success every
    declaration of the grant is gone or marked for deletion. *)
Theorem handleRevokeClusterAccess_deletes_the_whole_grant p payload w :
  exists w' calls,
    handleRevokeClusterAccess p payload w = Ret tt w' /\
    trace w' = (calls ++ trace w)%list /\
    onlyAccesses w w' /\
    ((failureReported "Service" w w' /\ accesses w' = accesses w /\
      Forall (fun c => isDelete c.1 = false) calls)
     \/ exists user access reqID,
          verifyToken (env w) (idToken p) = Ok user /\
          accesses w !! (Payload.Namespace payload, Payload.Name payload) = Some access /\
          Labels (accMeta access) !! K8s.requestIDLabel = Some reqID /\
          (forall a, In a (pairOf reqID w) ->
                     exists e, In (accessDelete (Impersonating user) a, e) calls) /\
          ((broadcast w' =
              MkEntry ("SUCCESS: Revocation initiated for access policies with request-id '"
                         ++ reqID ++ "'.") "log-success" "Service" "applyResult"
              :: broadcast w /\
            forall a, In a (pairOf reqID w) -> goneOrMarked (accesses w') (keyOf a))
           \/ (failureReported "Service" w w' /\
               exists a e, In a (pairOf reqID w) /\
                 In (accessDelete (Impersonating user) a, Some e) calls /\
                 IsNotFound e = false))).
Proof.
  unfold handleRevokeClusterAccess, GetImpersonatingKubeClient, GetAccessAsUser,
    ListAllAccessesWithLabelAsApp, Logger.Info, Logger.Warn. munfold.
  set (w0 := logged _ w).
  assert (Hstop : forall msg err w1 calls,
            trace w1 = (calls ++ trace w)%list -> agreeButLog w1 w ->
            Forall (fun c => isDelete c.1 = false) calls ->
            exists w' calls,
              sendError msg err "Service" w1 = Ret tt w' /\
              trace w' = (calls ++ trace w)%list /\ onlyAccesses w w' /\
              failureReported "Service" w w' /\ accesses w' = accesses w /\
              Forall (fun c => isDelete c.1 = false) calls).
  { intros msg err w1 calls Ht Ha Hnd.
    destruct (sendError_step msg err "Service" w1)
      as (w' & -> & He & Hs & Hac & Hx & Hr & Hu & Ht' & _ & (report & Hb) & _).
    exists w', calls. split; [reflexivity|]. split; [congruence|].
    split_agree. unfold onlyAccesses.
    split; [repeat split; congruence|]. split; [exists report; congruence|].
    split; [congruence|exact Hnd]. }
  cbv beta iota. change (env w0) with (env w).
  destruct (verifyToken (env w) (idToken p)) as [user|e] eqn:Etok; cbv beta iota.
  2: { destruct (Hstop "Could not create user-impersonating client for revocation" (Some e)
                   w0 [] eq_refl ltac:(repeat split) ltac:(constructor))
         as (w' & calls & E & Ht & Hf & Hrest).
       exists w', calls. split; [exact E|]. split; [exact Ht|]. split; [exact Hf|]. by left. }
  destruct (Get_step (T:=Access) (Impersonating user) (Payload.Namespace payload)
              (Payload.Name payload) w0) as (r & w1 & -> & Ha1 & Ht1 & Hr).
  cbn [kindOf AccessObject store accesses logged] in Ht1, Hr.
  assert (Ha1' : agreeButLog w1 w) by (subst w0; agree_tac).
  destruct r as [access|e]; cbv beta iota.
  2: { match goal with
       | |- context [sendError ?msg ?err _ w1] =>
           destruct (Hstop msg err w1 [_] Ht1 Ha1' ltac:(repeat constructor))
             as (w' & calls & E & Ht & Hf & Hrest)
       end.
       exists w', calls. split; [exact E|]. split; [exact Ht|]. split; [exact Hf|]. by left. }
  destruct (Labels (accMeta access) !! requestIDLabel) as [reqID|] eqn:El.
  2: { match goal with
       | |- context [sendError ?msg ?err _ w1] =>
           destruct (Hstop msg err w1 [_] Ht1 Ha1' ltac:(repeat constructor))
             as (w' & calls & E & Ht & Hf & Hrest)
       end.
       exists w', calls. split; [exact E|]. split; [exact Ht|]. split; [exact Hf|]. by left. }
  destruct (List_step (T:=Access) AppClient (Some (requestIDLabel, reqID)) w1)
    as (r & w2 & -> & Ha2 & Ht2 & Hr2).
  cbn [kindOf AccessObject] in Ht2.
  assert (Ha2' : agreeButLog w2 w) by agree_tac.
  destruct r as [l|e]; cbv beta iota.
  2: { match goal with
       | |- context [sendError ?msg ?err _ w2] =>
           destruct (Hstop msg err w2 [_; _]
                       ltac:(rewrite Ht2, Ht1; reflexivity) Ha2' ltac:(repeat constructor))
             as (w' & calls & E & Ht & Hf & Hrest)
       end.
       exists w', calls. split; [exact E|]. split; [exact Ht|]. split; [exact Hf|]. by left. }
  destruct Hr2 as [-> _].
  assert (Hpair : listed (Some (requestIDLabel, reqID)) w1 = pairOf reqID w).
  { unfold pairOf. apply listed_accesses. by destruct Ha1' as (_ & _ & -> & _). }
  rewrite Hpair.
  assert (Htail : forall w3, agreeButLog w3 w -> trace w3 = trace w2 ->
            exists w' calls,
              match deleteListed (Impersonating user) (pairOf reqID w) [] w3 with
              | Ret a0 w4 =>
                  (if (0 <? length a0)%nat
                   then sendError "Encountered errors while deleting the access pair"
                          (Some (NewError (Join a0 "; "))) "Service"
                   else logAndBroadcast
                          (MkEntry
                             ("SUCCESS: Revocation initiated for access policies with request-id '"
                                ++ reqID ++ "'.")
                             "log-success" "Service" "applyResult")) w4
              | Panic why w4 => Panic why w4
              end = Ret tt w' /\
              trace w' = (calls ++ trace w)%list /\ onlyAccesses w w' /\
              ((failureReported "Service" w w' /\ accesses w' = accesses w /\
                Forall (fun c => isDelete c.1 = false) calls)
               \/ exists user0 access0 reqID0,
                    Ok user = Ok user0 /\
                    accesses w !! (Payload.Namespace payload, Payload.Name payload)
                    = Some access0 /\
                    Labels (accMeta access0) !! K8s.requestIDLabel = Some reqID0 /\
                    (forall a, In a (pairOf reqID0 w) ->
                               exists e, In (accessDelete (Impersonating user0) a, e) calls) /\
                    ((broadcast w' =
                        MkEntry
                          ("SUCCESS: Revocation initiated for access policies with request-id '"
                             ++ reqID0 ++ "'.") "log-success" "Service" "applyResult"
                        :: broadcast w /\
                      forall a, In a (pairOf reqID0 w) -> goneOrMarked (accesses w') (keyOf a))
                     \/ (failureReported "Service" w w' /\
                         exists a e, In a (pairOf reqID0 w) /\
                           In (accessDelete (Impersonating user0) a, Some e) calls /\
                           IsNotFound e = false)))).
  { intros w3 Ha3 Ht3.
    destruct (deleteListed_step (Impersonating user) (pairOf reqID w) [] w3)
      as (more & w4 & calls & -> & Ht4 & Hf4 & Hb4 & Hall & _ & Hok & Hbad).
    cbn [app].
    assert (Hcalls : trace w4 = ((calls ++ [ (Call AppClient (OpList KAccess (Some (requestIDLabel, reqID))), None);
                                             (Call (Impersonating user)
                                                (OpGet KAccess (Payload.Namespace payload)
                                                   (Payload.Name payload)), None) ])
                                 ++ trace w)%list).
    { rewrite Ht4, Ht3, Ht2, Ht1, <- List.app_assoc. reflexivity. }
    assert (Hf : onlyAccesses w w4).
    { unfold onlyAccesses in *. destruct Hf4 as (? & ? & ? & ? & ?). split_agree.
      repeat split; congruence. }
    assert (Hattempt : forall a, In a (pairOf reqID w) ->
              exists e, In (accessDelete (Impersonating user) a, e)
                           (calls ++ [ (Call AppClient (OpList KAccess (Some (requestIDLabel, reqID))), None);
                                       (Call (Impersonating user)
                                          (OpGet KAccess (Payload.Namespace payload)
                                             (Payload.Name payload)), None) ])%list).
    { intros a Hin. destruct (Hall a Hin) as (e & He). exists e. apply List.in_app_iff. by left. }
    destruct more as [|m more]; cbn [length Nat.ltb Nat.leb].
    - unfold logAndBroadcast. munfold. eexists _, _. split; [reflexivity|]. wcbn.
      split; [exact Hcalls|]. split; [exact Hf|]. right.
      exists user, access, reqID. split; [reflexivity|]. split; [exact Hr|]. split; [exact El|].
      split; [exact Hattempt|]. left. split.
      + f_equal. rewrite Hb4. by destruct Ha3 as (_&_&_&_&_&_&->).
      + by apply Hok.
    - destruct (sendError_step "Encountered errors while deleting the access pair"
                  (Some (NewError (Join (m :: more) "; "))) "Service" w4)
        as (w5 & E5 & He5 & Hs5 & Hac5 & Hx5 & Hr5 & Hu5 & Ht5 & _ & (report & Hb5) & _).
      change (0 <? S (length more))%nat with true. cbv iota. rewrite E5.
      exists w5, (calls ++ [ (Call AppClient (OpList KAccess (Some (requestIDLabel, reqID))), None);
                             (Call (Impersonating user)
                                (OpGet KAccess (Payload.Namespace payload)
                                   (Payload.Name payload)), None) ])%list.
      split; [reflexivity|]. split; [congruence|].
      split; [unfold onlyAccesses in *; destruct Hf as (? & ? & ? & ? & ?); repeat split; congruence|].
      right. exists user, access, reqID. split; [reflexivity|]. split; [exact Hr|].
      split; [exact El|]. split; [exact Hattempt|]. right. split.
      + exists report. rewrite Hb5, Hb4. by destruct Ha3 as (_&_&_&_&_&_&->).
      + destruct (Hbad ltac:(discriminate)) as (a & e & Hin & Hc & Hnf).
        exists a, e. split; [exact Hin|]. split; [apply List.in_app_iff; by left|exact Hnf]. }
  destruct (length (pairOf reqID w) =? 0)%nat; cbv beta iota;
    (apply Htail; [agree_tac|reflexivity]).
Qed.

(** X18.  [handleRevokeExternalAccess] issues one call at
    most, the delete of the named ExternalAccess through the user's own
    client, and touches no Service: the clone is left to the
    reconciler.  It reports success exactly when that delete is served,
    the object then being gone or marked for deletion; any error of the
    delete, not-found included, is reported as a failure and leaves the
    stores as they were. *)
Theorem handleRevokeExternalAccess_one_delete p payload w :
  exists w' calls,
    handleRevokeExternalAccess p payload w = Ret tt w' /\
    trace w' = (calls ++ trace w)%list /\
    env w' = env w /\ services w' = services w /\ accesses w' = accesses w /\
    accessRequests w' = accessRequests w /\
    ((calls = [] /\ failureReported "External" w w' /\
      externalAccesses w' = externalAccesses w)
     \/ exists user e,
          verifyToken (env w) (idToken p) = Ok user /\
          calls = [(Call (Impersonating user)
                      (OpDelete KExternalAccess (Payload.Namespace payload)
                         (Payload.Name payload)), e)] /\
          match e with
          | None =>
              broadcast w' =
                MkEntry ("SUCCESS: ExternalAccess policy '" ++ Payload.Name payload
                           ++ "' has been marked for deletion. The controller will clean up its resources.")
                        "log-success" "External" "applyResult" :: broadcast w /\
              is_Some (externalAccesses w !! (Payload.Namespace payload, Payload.Name payload)) /\
              externalGoneOrMarked (externalAccesses w')
                (Payload.Namespace payload, Payload.Name payload)
          | Some err =>
              failureReported "External" w w' /\ externalAccesses w' = externalAccesses w
          end).
Proof.
  unfold handleRevokeExternalAccess, GetImpersonatingKubeClient, DeleteExternalAccess,
    Logger.Info. munfold. cbv beta iota.
  set (w0 := logged _ w). change (env w0) with (env w).
  destruct (verifyToken (env w) (idToken p)) as [user|e0] eqn:Etok; cbv beta iota.
  2: { destruct (sendError_step "Could not create user-impersonating client for revocation"
                   (Some e0) "External" w0)
         as (w' & -> & He & Hs & Hac & Hx & Hr & _ & Ht & _ & Hb & _).
       exists w', []. repeat (split; [assumption || reflexivity|]). left.
       split; [reflexivity|]. split; [exact Hb|exact Hx]. }
  destruct (Delete_step (T:=ExternalAccess) (Impersonating user) (Payload.Namespace payload)
              (Payload.Name payload) w0) as (e & w1 & -> & Ht1 & Hd).
  cbn [kindOf ExternalAccessObject] in Ht1.
  destruct Hd as [(ft & -> & Ha)|[(-> & Hn & Ha)|(o & -> & Ho & Ha)]]; cbv beta iota.
  - match goal with
    | |- context [sendError ?msg ?err ?lt w1] =>
        destruct (sendError_step msg err lt w1)
          as (w' & -> & He & Hs & Hac & Hx & Hr & _ & Ht & _ & (report & Hb) & _)
    end.
    exists w', [(Call (Impersonating user)
                   (OpDelete KExternalAccess (Payload.Namespace payload)
                      (Payload.Name payload)), Some (faultError ft))].
    subst w0. split_agree.
    split; [reflexivity|]. split; [congruence|]. split; [congruence|]. split; [congruence|].
    split; [congruence|]. split; [congruence|]. right. exists user, (Some (faultError ft)).
    split; [reflexivity|]. split; [reflexivity|].
    split; [exists report; congruence|congruence].
  - match goal with
    | |- context [sendError ?msg ?err ?lt w1] =>
        destruct (sendError_step msg err lt w1)
          as (w' & -> & He & Hs & Hac & Hx & Hr & _ & Ht & _ & (report & Hb) & _)
    end.
    exists w', [(Call (Impersonating user)
                   (OpDelete KExternalAccess (Payload.Namespace payload)
                      (Payload.Name payload)), Some (notFound (Payload.Name payload)))].
    subst w0. split_agree.
    split; [reflexivity|]. split; [congruence|]. split; [congruence|]. split; [congruence|].
    split; [congruence|]. split; [congruence|]. right.
    exists user, (Some (notFound (Payload.Name payload))).
    split; [reflexivity|]. split; [reflexivity|].
    split; [exists report; congruence|congruence].
  - unfold logAndBroadcast. munfold.
    eexists _, [(Call (Impersonating user)
                   (OpDelete KExternalAccess (Payload.Namespace payload)
                      (Payload.Name payload)), None)].
    subst w0. split_agree.
    split; [reflexivity|]. wcbn. split; [congruence|]. split; [congruence|].
    split; [congruence|]. split; [congruence|]. split; [congruence|]. right.
    exists user, None. split; [reflexivity|]. split; [reflexivity|].
    split; [congruence|]. cbn [store ExternalAccessObject externalAccesses logged] in Ho.
    split; [by eexists|].
    match goal with H : externalAccesses w1 = _ |- _ => rewrite H end.
    unfold externalGoneOrMarked, afterDelete. cbn [meta ExternalAccessObject].
    destruct (Finalizers (eaMeta o)); [by rewrite lookup_delete_eq|].
    rewrite lookup_insert_eq. unfold notBeingDeleted. cbn.
    by destruct (DeletionTimestamp (eaMeta o)).
Qed.

(** *** The read model: grouping, ordering and listing *)

(** X19.  [groupClones] puts under each request id exactly
    the listed Services that carry it in their request-id label, in the
    order of the listing; Services without the label are in no group,
    and an id that no Service carries has no group at all. *)
Theorem groupClones_by_request_id items reqID :
  default [] (groupClones items !! reqID) = List.filter (labelledWith reqID) items
  /\ (groupClones items !! reqID = None <-> List.filter (labelledWith reqID) items = []).
Proof.
  destruct (groupClones_from items ∅ reqID) as (Hd & Hne).
  { intros id. by rewrite lookup_empty. }
  cbv zeta in Hd. fold (groupClones items) in Hd, Hne.
  rewrite lookup_empty in Hd. cbn [default app] in Hd.
  split; [exact Hd|]. rewrite <- Hd. split.
  - by intros ->.
  - destruct (groupClones items !! reqID) as [l|] eqn:E; [|reflexivity].
    change (default [] (Some l)) with l. intros ->. by destruct (Hne reqID).
Qed.

Lemma less_cases a b :
  less a b = true <->
  (Info.ExpiresAt a <> -1 /\ (Info.ExpiresAt b = -1 \/ Info.ExpiresAt a < Info.ExpiresAt b))%Z.
Proof.
  unfold less.
  destruct (Z.eqb_spec (Info.ExpiresAt a) (-1)%Z) as [Ea|Ea]; [split; [discriminate|tauto]|].
  destruct (Z.eqb_spec (Info.ExpiresAt b) (-1)%Z) as [Eb|Eb]; [split; [tauto|reflexivity]|].
  rewrite Z.ltb_lt. tauto.
Qed.

Lemma less_false a b :
  less a b = false <->
  (Info.ExpiresAt a = -1 \/ (Info.ExpiresAt b <> -1 /\ Info.ExpiresAt b <= Info.ExpiresAt a))%Z.
Proof.
  rewrite <- not_true_iff_false, less_cases.
  destruct (Z.eq_dec (Info.ExpiresAt a) (-1)%Z), (Z.eq_dec (Info.ExpiresAt b) (-1)%Z); lia.
Qed.

Lemma insertSorted_sorted x l :
  StronglySorted (fun a b => less b a = false) l ->
  StronglySorted (fun a b => less b a = false) (insertSorted x l).
Proof.
  induction l as [|y l IH]; intros Hs; cbn [insertSorted].
  - repeat constructor.
  - apply StronglySorted_inv in Hs as [Hs Hy].
    destruct (less y x) eqn:Eyx.
    + constructor; [by apply IH|].
      apply List.Forall_forall. intros z Hz. apply insertSorted_In in Hz as [->|Hz].
      * apply less_false. apply less_cases in Eyx. lia.
      * rewrite List.Forall_forall in Hy. by apply Hy.
    + constructor; [by constructor|].
      constructor; [exact Eyx|].
      apply List.Forall_forall. intros z Hz. rewrite List.Forall_forall in Hy.
      specialize (Hy z Hz). apply less_false. apply less_false in Hy, Eyx. lia.
Qed.

(** X20.  The comparison given to the sort is a strict weak order
    that puts the rows without expiry ([-1]) after all others and
    orders the others by expiry; the sorted rows are the collected
    rows, none lost and none added, and no row is placed before a row
    that compares less than it. *)
Theorem less_puts_rows_without_expiry_last a b c l :
  less a a = false
  /\ implb (less a b && less b c) (less a c) = true
  /\ implb (less a c) (less a b || less b c) = true
  /\ less a b = (negb (Info.ExpiresAt a =? -1)
                 && ((Info.ExpiresAt b =? -1) || (Info.ExpiresAt a <? Info.ExpiresAt b)))%Z
  /\ Permutation (sortInfos l) l
  /\ StronglySorted (fun x y => less y x = false) (sortInfos l).
Proof.
  split; [apply less_false; destruct (Z.eq_dec (Info.ExpiresAt a) (-1)%Z); lia|].
  split.
  { destruct (less a b) eqn:Eab; [|reflexivity]. destruct (less b c) eqn:Ebc; [|reflexivity].
    cbn. apply less_cases. apply less_cases in Eab, Ebc. lia. }
  split.
  { destruct (less a c) eqn:Eac; [|reflexivity]. cbn.
    destruct (less a b) eqn:Eab; [reflexivity|]. cbn.
    apply less_cases. apply less_cases in Eac. apply less_false in Eab. lia. }
  split.
  { unfold less. destruct (Info.ExpiresAt a =? -1)%Z; [reflexivity|].
    destruct (Info.ExpiresAt b =? -1)%Z; reflexivity. }
  split.
  - induction l as [|x l IH]; [reflexivity|]. cbn [sortInfos foldr].
    fold (sortInfos l). rewrite insertSorted_perm. by constructor.
  - induction l as [|x l IH]; [constructor|]. cbn [sortInfos foldr].
    fold (sortInfos l). by apply insertSorted_sorted.
Qed.

(** *** The read model: what it reads and what it answers *)

Section ReadOnly.
Variable parse : string -> option Z.

Lemma processAccess_frame g processed access w :
  let o := processAccess parse g processed access w in
  agreeButLog (final o) w /\ trace (final o) = trace w /\ clock (final o) = clock w.
Proof.
  unfold processAccess, firstTarget, randSuffixOf, orPanic, Logger.Warn. munfold.
  destruct (Labels (accMeta access) !! requestIDLabel) as [reqID|]; [|repeat split].
  destruct (default [] (g !! reqID)) as [|clone1 [|clone2 [|clone3 rest]]];
    cbn [length Nat.eqb]; cbv iota; try solve [repeat split].
  - destruct (accTargets access) as [|t ts]; cbn [nth_error]; [repeat split|].
    destruct (slice_to 8 (hexEncode reqID)); repeat split.
  - destruct (accTargets access) as [|t ts]; cbn [nth_error]; repeat split.
Qed.

Lemma processAccesses_frame g items : forall processed w,
  let o := processAccesses parse g processed items w in
  agreeButLog (final o) w /\ trace (final o) = trace w /\ clock (final o) = clock w.
Proof.
  induction items as [|access items IH]; intros processed w; [repeat split|].
  cbn [processAccesses]. munfold.
  pose proof (processAccess_frame g processed access w) as H1. cbv zeta in H1.
  destruct (processAccess parse g processed access w) as [p1 w1|why w1]; cbn [final] in H1.
  - specialize (IH p1 w1). cbv zeta in IH.
    destruct IH as (Ha & Ht & Hc). destruct H1 as (Ha1 & Ht1 & Hc1).
    split; [agree_tac|]. split; congruence.
  - exact H1.
Qed.

(** X21.  [GetActiveAccesses] only reads, whether it answers or
    panics: the stores, the UUID counter and the activity log are as
    before.  When the Services
    cannot be listed the answer is empty and nothing else is listed.
    When the Access Declarations cannot be listed the answer is made of
    the rows of the ExternalAccesses alone, and it is empty if those
    cannot be listed either. *)
Theorem GetActiveAccesses_only_reads w :
  let o := GetActiveAccesses parse w in
  agreeButLog (final o) w /\
  match faults (env w) (clock w) listServices with
  | Some ft =>
      returned o = Some [] /\
      trace (final o) = (listServices, Some (faultError ft)) :: trace w
  | None =>
      match faults (env w) (S (clock w)) listAccesses,
            faults (env w) (S (S (clock w))) listExternalAccesses with
      | Some _, None =>
          returned o =
            Some (sortInfos
                    (map (externalRow parse (groupClones (@listed Service _ None w)))
                         (@listed ExternalAccess _ (Some (K8s.managedByLabel, "netwatch")) w)))
      | Some _, Some _ => returned o = Some []
      | None, _ =>
          returned o = None \/ length (trace (final o)) = (3 + length (trace w))%nat
      end
  end.
Proof.
  unfold GetActiveAccesses, ListAllServices, ListNetwatchAccesses, ListNetwatchExternalAccesses,
    listServices, listAccesses, listExternalAccesses, Api.List_, perform, Logger.Error.
  munfold. cbn [kindOf ServiceObject AccessObject ExternalAccessObject].
  destruct (faults (env w) (clock w) (Call AppClient (OpList KService None))) as [ft|];
    cbv beta iota; [repeat split|].
  cbn [env clock issued errorOf].
  destruct (faults (env w) (S (clock w)) _) as [ft|]; cbv beta iota.
  - cbn [env clock issued logged errorOf].
    destruct (faults (env w) (S (S (clock w))) _) as [ft2|]; cbv beta iota; repeat split.
  - match goal with
    | |- context [processAccesses parse ?g ?m ?l ?w0] =>
        pose proof (processAccesses_frame g l m w0) as Hf; cbv zeta in Hf;
        destruct (processAccesses parse g m l w0) as [rows w1|why w1]; cbn [final] in Hf;
        destruct Hf as (Ha & Ht & Hc)
    end; cbv beta iota.
    + assert (He : env w1 = env w) by (destruct Ha as (-> & _); reflexivity).
      rewrite He, Hc. cbn [clock issued].
      destruct (faults (env w) (S (S (clock w))) _) as [ft2|]; cbv beta iota;
        cbn [final trace issued logged length]; (split; [agree_tac|]);
        right; rewrite Ht; reflexivity.
    + cbn [final]. split; [agree_tac|].
      by left.
Qed.

End ReadOnly.

(** *** The services offered for selection *)

Lemma usableServices_filter items :
  usableServices items = map infoOf (List.filter offered items).
Proof.
  unfold usableServices.
  assert (H : forall acc,
            foldl (fun serviceInfos svc =>
                     if String.eqb (Namespace (svcMeta svc)) "kube-system"
                        || HasPrefix (Name (svcMeta svc)) "netwatch-clone-"
                     then serviceInfos
                     else (serviceInfos ++ [infoOf svc])%list) acc items
            = (acc ++ map infoOf (List.filter offered items))%list).
  { induction items as [|svc items IH]; intros acc; cbn [foldl List.filter map].
    - by rewrite List.app_nil_r.
    - unfold offered at 1.
      destruct (String.eqb (Namespace (svcMeta svc)) "kube-system"
                || HasPrefix (Name (svcMeta svc)) "netwatch-clone-"); cbn [negb].
      + apply IH.
      + rewrite IH, <- List.app_assoc. reflexivity. }
  apply (H []).
Qed.

Lemma insertByCompound_In x y l : In y (insertByCompound x l) <-> y = x \/ In y l.
Proof.
  induction l as [|z l IH]; cbn [insertByCompound In]; [intuition congruence|].
  destruct (String.ltb _ _); cbn [In]; [intuition congruence|].
  rewrite IH. intuition congruence.
Qed.

Lemma sortByCompound_In y l : In y (sortByCompound l) <-> In y l.
Proof.
  induction l as [|x l IH]; [reflexivity|]. cbn [sortByCompound foldr].
  fold (sortByCompound l). rewrite insertByCompound_In, IH. cbn [In]. intuition congruence.
Qed.

Lemma nc_is_not_netwatch_clone name :
  HasPrefix name "nc-" = true -> HasPrefix name "netwatch-clone-" = false.
Proof.
  unfold HasPrefix. destruct name as [|a [|b rest]]; cbn [String.prefix]; try discriminate.
  - destruct (Ascii.ascii_dec "n" a); discriminate.
  - destruct (Ascii.ascii_dec "n" a) as [<-|]; [|discriminate].
    destruct (Ascii.ascii_dec "c" b) as [<-|]; [|discriminate].
    intros _. reflexivity.
Qed.

Lemma string_lt_trans a : forall b c,
  String.compare a b = Lt -> String.compare b c = Lt -> String.compare a c = Lt.
Proof.
  induction a as [|x a IH]; intros [|y b] [|z c]; cbn [String.compare]; try discriminate;
    try reflexivity.
  unfold Ascii.compare.
  destruct (N.compare_spec (N_of_ascii x) (N_of_ascii y)) as [Exy|Exy|Exy]; try discriminate;
    destruct (N.compare_spec (N_of_ascii y) (N_of_ascii z)) as [Eyz|Eyz|Eyz]; try discriminate;
    intros Hab Hbc.
  - rewrite Exy, Eyz, N.compare_refl. eauto.
  - rewrite Exy. by apply N.compare_lt_iff in Eyz as ->.
  - rewrite <- Eyz. by apply N.compare_lt_iff in Exy as ->.
  - assert (Hxz : (N_of_ascii x < N_of_ascii z)%N) by lia.
    by apply N.compare_lt_iff in Hxz as ->.
Qed.

Lemma string_lt_irrefl a : String.compare a a <> Lt.
Proof.
  induction a as [|x a IH]; cbn [String.compare]; [discriminate|].
  unfold Ascii.compare. by rewrite N.compare_refl.
Qed.

Lemma insertByCompound_sorted x l :
  StronglySorted (fun a b => String.ltb (ServiceInfo.Compound b) (ServiceInfo.Compound a) = false) l ->
  StronglySorted (fun a b => String.ltb (ServiceInfo.Compound b) (ServiceInfo.Compound a) = false)
                 (insertByCompound x l).
Proof.
  assert (Hasym : forall a b, String.ltb a b = true -> String.ltb b a = false).
  { unfold String.ltb. intros a b Hab.
    destruct (String.compare a b) eqn:Eab; try discriminate.
    destruct (String.compare b a) eqn:Eba; try reflexivity.
    destruct (string_lt_irrefl a). eapply string_lt_trans; eassumption. }
  induction l as [|y l IH]; intros Hs; cbn [insertByCompound].
  - repeat constructor.
  - apply StronglySorted_inv in Hs as [Hs Hy].
    destruct (String.ltb (ServiceInfo.Compound x) (ServiceInfo.Compound y)) eqn:Exy.
    + constructor; [by constructor|]. constructor; [by apply Hasym|].
      apply List.Forall_forall. intros z Hz. rewrite List.Forall_forall in Hy.
      specialize (Hy z Hz). apply not_true_is_false. intros Hzx. apply not_true_iff_false in Hy.
      apply Hy. unfold String.ltb in *.
      destruct (String.compare (ServiceInfo.Compound z) (ServiceInfo.Compound x)) eqn:Ezx;
        try discriminate.
      destruct (String.compare (ServiceInfo.Compound x) (ServiceInfo.Compound y)) eqn:Exy';
        try discriminate.
      by rewrite (string_lt_trans _ _ _ Ezx Exy').
    + constructor; [by apply IH|].
      apply List.Forall_forall. intros z Hz. apply insertByCompound_In in Hz as [->|Hz];
        [exact Exy|]. rewrite List.Forall_forall in Hy. by apply Hy.
Qed.

Lemma sortByCompound_sorted l :
  StronglySorted (fun a b => String.ltb (ServiceInfo.Compound b) (ServiceInfo.Compound a) = false)
                 (sortByCompound l).
Proof.
  induction l as [|x l IH]; [constructor|]. cbn [sortByCompound foldr].
  fold (sortByCompound l). by apply insertByCompound_sorted.
Qed.

(** X22.  [GetServices] answers 500 exactly when the Services
    cannot be listed, and otherwise 200 with one entry for every Service
    that is outside [kube-system] and whose name does not start with
    [netwatch-clone-], and no other entry, the entries being in the
    order of their namespace/name.  The clones this program creates
    under [nc-] names are therefore offered like any other Service.  It
    changes nothing. *)
Theorem GetServices_offers_all_but_system_and_prefixed w :
  exists r w',
    GetServices w = Ret r w' /\ agreeButLog w' w /\
    match r with
    | StatusOK body =>
        faults (env w) (clock w) (Call AppClient (OpList KService None)) = None /\
        (forall info, In info body <->
           exists k svc, services w !! k = Some svc /\ offered svc = true /\ info = infoOf svc) /\
        StronglySorted
          (fun a b => String.ltb (ServiceInfo.Compound b) (ServiceInfo.Compound a) = false)
          body /\
        (forall k svc, services w !! k = Some svc ->
           HasPrefix (Name (svcMeta svc)) "nc-" = true ->
           Namespace (svcMeta svc) <> "kube-system" -> In (infoOf svc) body)
    | StatusInternalServerError msg =>
        faults (env w) (clock w) (Call AppClient (OpList KService None)) <> None /\
        msg = "Failed to retrieve services from cluster"
    end.
Proof.
  unfold GetServices, ListAllServices, Logger.Error. munfold.
  destruct (List_step (T:=Service) AppClient None w) as (r & w1 & -> & Ha & _ & Hr).
  cbn [kindOf ServiceObject] in Hr.
  destruct r as [l|e]; cbv beta iota.
  - destruct Hr as [-> Hf]. eexists _, _. split; [reflexivity|]. split; [agree_tac|].
    split; [exact Hf|].
    assert (Hmem : forall info,
              In info (sortByCompound (usableServices (listed None w))) <->
              exists k svc, services w !! k = Some svc /\ offered svc = true /\ info = infoOf svc).
    { intros info. rewrite sortByCompound_In, usableServices_filter, List.in_map_iff.
      unfold listed. cbn [matches store ServiceObject]. split.
      - intros (svc & <- & Hin). apply filter_In in Hin as (Hin & Hoff).
        apply filter_In in Hin as (Hin & _). apply List.in_map_iff in Hin as ((k & s) & <- & Hkv).
        apply list_elem_of_In, elem_of_map_to_list in Hkv. by exists k, s.
      - intros (k & svc & Hk & Hoff & ->). exists svc. split; [reflexivity|].
        apply filter_In. split; [|exact Hoff]. apply filter_In. split; [|reflexivity].
        apply List.in_map_iff. exists (k, svc). split; [reflexivity|].
        by apply list_elem_of_In, elem_of_map_to_list. }
    split; [exact Hmem|]. split; [apply sortByCompound_sorted|].
    intros k svc Hk Hnc Hns. apply Hmem. exists k, svc. split; [exact Hk|].
    split; [|reflexivity]. unfold offered.
    rewrite (nc_is_not_netwatch_clone _ Hnc), orb_false_r.
    apply negb_true_iff. by apply String.eqb_neq.
  - destruct Hr as (ft & Hf & ->). eexists _, _. split; [reflexivity|]. split; [agree_tac|].
    split; [congruence|reflexivity].
Qed.

(** *** Submission: the side created before the record is filed *)

Ltac leak_submit E :=
  match type of E with
  | _ = final (match CreateAccessRequestAsApp ?cr ?w0 with _ => _ end) =>
      let Hs := fresh "Hs" in
      pose proof (submit_step cr w0 eq_refl) as Hs; cbv zeta in Hs; munfold;
      rewrite <- E in Hs; destruct Hs as (Hsv & Hac & Hreq)
  end.

(** X23.  A submission for review never undoes the side it
    created: whenever the run changed the Access Declarations, exactly
    one clone and one Access Declaration were added under the
    identifier drawn, and they are there at the end whether the request
    record was then filed, naming the clone, or could not be filed. *)
Theorem submission_keeps_the_side_it_created p payload w :
  let w' := final (handleSubmitAccessRequest p payload w) in
  accesses w' <> accesses w ->
  exists localNs localName cloneName a,
    oneCloneAdded w w' localNs localName cloneName (uuids (env w) (uuidCount w)) /\
    oneAccessAdded w w' localNs ("access-" ++ cloneName) a /\
    (accessRequests w' = accessRequests w
     \/ exists r, oneRequestAdded w w' r /\
          (SourceCloneName (arSpec r) = cloneName \/ TargetCloneName (arSpec r) = cloneName)).
Proof.
  intros w'.
  assert (E : w' = final (handleSubmitAccessRequest p payload w)) by reflexivity.
  clearbody w'.
  unfold handleSubmitAccessRequest, Logger.Info, GetImpersonatingKubeClient in E.
  munfold. wcbn.
  destruct (verifyToken (env w) (idToken p)) as [u|e]; [|subst w'; by intros []].
  unfold uuidNew, orPanic in E. munfold. wcbn.
  destruct (slice_to 8 _) as [prefix|]; [|subst w'; by intros []].
  cbv beta iota in E.
  set (id := uuids (env w) (uuidCount w)) in *.
  set (w0 := drewUUID _) in E.
  assert (A0 : env w0 = env w /\ services w0 = services w /\ accesses w0 = accesses w /\
               accessRequests w0 = accessRequests w) by (repeat split).
  clearbody w0. destruct A0 as (He0 & Hs0 & Ha0 & Hr0).
  destruct (String.eqb_spec (Payload.TargetService payload) "") as [Ht|Ht]; cbn [negb] in E;
    cbv iota in E.
  { leak_submit E. intros Hne. destruct Hne. congruence. }
  destruct (Split (Payload.SourceService payload) "/") as [|sNs [|sName [|]]];
    try (subst w'; intros Hne; destruct Hne; exact Ha0).
  destruct (Split (Payload.TargetService payload) "/") as [|tNs [|tName [|]]];
    try (subst w'; intros Hne; destruct Hne; exact Ha0).
  destruct (CanPerformAllActions_step (userInfo p) (sidePermissions sNs) w0) as (w1 & E1 & A1).
  rewrite E1 in E. destruct (decidedByFirst _) as [canSource e1] in E. cbv beta iota in E.
  destruct (CanPerformAllActions_step (userInfo p) (sidePermissions tNs) w1) as (w2 & E2 & A2).
  rewrite E2 in E. destruct (decidedByFirst _) as [canTarget e2] in E. cbv beta iota in E.
  assert (A : env w2 = env w /\ services w2 = services w /\ accesses w2 = accesses w /\
              accessRequests w2 = accessRequests w) by (split_agree; repeat split; congruence).
  clear E1 E2 A1 A2 He0 Hs0 Ha0 Hr0. clear w0 w1. destruct A as (He & Hs & Ha & Hr).
  destruct canSource, canTarget; cbn [andb] in E; cbv beta iota in E.
  - leak_submit E. intros Hne. destruct Hne. wcbn. congruence.
  - match type of E with
    | context [createPartialAccess ?a ?b ?c ?d ?e ?f ?g ?h ?i ?wL] =>
        pose proof (createPartialAccess_step a b c d e f g h i wL) as [Hog Hstep];
        destruct (createPartialAccess a b c d e f g h i wL) as [[cloneName|err] w3|why w3]
    end; cbv beta iota in E; unfold onlyGrants in Hog; wcbn;
      destruct Hog as (_ & _ & Hog & _).
    + destruct Hstep as (suffix & a & _ & _ & Hclone & Hacc & _).
      leak_submit E. intros _. exists sNs, sName, cloneName, a.
      split; [eapply oneCloneAdded_ext; [| |exact Hclone]; wcbn; congruence|].
      split; [eapply oneAccessAdded_ext; [| |exact Hacc]; wcbn; congruence|].
      destruct Hreq as [Hreq|(t & Hadd)]; [left; congruence|right].
      eexists. split; [eapply oneRequestAdded_ext; [|exact Hadd]; congruence|]. by left.
    + subst w'. rewrite sendError_Some. wcbn. intros Hne. destruct Hne. congruence.
    + subst w'. wcbn. intros Hne. destruct Hne. destruct Hstep as (_ & _ & -> & _). exact Ha.
  - match type of E with
    | context [createPartialAccess ?a ?b ?c ?d ?e ?f ?g ?h ?i ?wL] =>
        pose proof (createPartialAccess_step a b c d e f g h i wL) as [Hog Hstep];
        destruct (createPartialAccess a b c d e f g h i wL) as [[cloneName|err] w3|why w3]
    end; cbv beta iota in E; unfold onlyGrants in Hog; wcbn;
      destruct Hog as (_ & _ & Hog & _).
    + destruct Hstep as (suffix & a & _ & _ & Hclone & Hacc & _).
      leak_submit E. intros _. exists tNs, tName, cloneName, a.
      split; [eapply oneCloneAdded_ext; [| |exact Hclone]; wcbn; congruence|].
      split; [eapply oneAccessAdded_ext; [| |exact Hacc]; wcbn; congruence|].
      destruct Hreq as [Hreq|(t & Hadd)]; [left; congruence|right].
      eexists. split; [eapply oneRequestAdded_ext; [|exact Hadd]; congruence|]. by right.
    + subst w'. rewrite sendError_Some. wcbn. intros Hne. destruct Hne. congruence.
    + subst w'. wcbn. intros Hne. destruct Hne. destruct Hstep as (_ & _ & -> & _). exact Ha.
  - leak_submit E. intros Hne. destruct Hne. wcbn. congruence.
Qed.

(** *** The duration stored by the review flow *)

Lemma append_s_not_empty s : s ++ "s" <> "".
Proof. destruct s; discriminate. Qed.

Lemma durationString_agrees (d : Z) :
  Itoa d ++ "s" = durationString d <-> (0 < d)%Z.
Proof.
  unfold durationString. destruct (Z.ltb_spec 0 d) as [H|H].
  - split; [intros _; exact H|reflexivity].
  - split; [intros E; by destruct (append_s_not_empty (Itoa d))|lia].
Qed.

(** X24.  Both halves of a grant made through the review flow
    store their duration as [<n>s] for every [n]: a request without a
    time limit ([0], or a negative number) gets an Access Declaration
    with the duration [0s] (or [-<n>s]), never the empty duration that a
    direct grant stores in that case; the two flows agree exactly for
    positive durations. *)
Theorem review_flow_always_stores_a_duration :
  (forall p cl localNs localName remoteNs remoteName reqID payload isSource w cloneName w',
     createPartialAccess p cl localNs localName remoteNs remoteName reqID payload isSource w
       = Ret (Ok cloneName) w' ->
     exists a,
       accesses w' !! (localNs, "access-" ++ cloneName) = Some a /\
       accDuration a = Itoa (Payload.Duration payload) ++ "s" /\
       accDuration a <> "" /\
       (accDuration a = durationString (Payload.Duration payload)
        <-> (0 < Payload.Duration payload)%Z))
  /\ (forall p cl request side w w',
        approvePartialRequest p cl request side w = Ret None w' ->
        exists k a,
          accesses w !! k = None /\ accesses w' !! k = Some a /\
          accDuration a = Itoa (Duration (arSpec request)) ++ "s" /\
          accDuration a <> "" /\
          (accDuration a = durationString (Duration (arSpec request))
           <-> (0 < Duration (arSpec request))%Z)).
Proof.
  split.
  - intros p cl localNs localName remoteNs remoteName reqID payload isSource w cloneName w'.
    unfold createPartialAccess.
    destruct (getOverridePorts _) as [ports|e]; [|discriminate].
    unfold randSuffixOf, orPanic. munfold.
    destruct (slice_to _ _) as [suffix|]; [|discriminate].
    cbv beta iota. step_clone; [|discriminate].
    step_create; [step_cleanup; discriminate|].
    intros [= <- <-]. destruct Hc as [_ Ha]. unfold keyOf in Ha. wcbn.
    destruct Ha as (_ & _ & Hacc & _). wcbn.
    eexists. split; [rewrite Hacc; apply lookup_insert_eq|].
    cbn [stamp setMeta AccessObject accDuration].
    split; [reflexivity|]. split; [apply append_s_not_empty|apply durationString_agrees].
  - intros p cl request side w w'.
    unfold approvePartialRequest, index, orPanic. munfold.
    destruct side.
    all: match goal with
         | |- context [nth_error (Split ?l "/") 0] =>
             destruct (nth_error (Split l "/") 0) as [localNs|]; [|discriminate];
             destruct (nth_error (Split l "/") 1) as [localName|]; [|discriminate]
         end; cbv beta iota.
    all: match goal with
         | |- context [nth_error (Split ?l "/") 0] =>
             destruct (nth_error (Split l "/") 0) as [remoteNs|]; [|discriminate]
         end; cbv beta iota.
    all: destruct (getOverridePorts _) as [ports|e]; [|discriminate].
    all: unfold randSuffixOf, orPanic; munfold.
    all: destruct (slice_to _ _) as [suffix|]; [|discriminate]; cbv beta iota.
    all: step_clone; [|discriminate].
    all: destruct Hr as (_ & _ & _ & (t & Ha0) & _).
    all: step_create; [step_cleanup; discriminate|].
    all: intros [= <-]; destruct Hc as [Hnone Ha]; unfold keyOf in Ha, Hnone; wcbn.
    all: destruct Ha as (_ & _ & Hacc & _); destruct Ha0 as (_ & _ & Hacc0 & _); wcbn.
    all: eexists _, _; split; [rewrite <- Hacc0; exact Hnone|].
    all: split; [rewrite Hacc; apply lookup_insert_eq|].
    all: cbn [stamp setMeta AccessObject accDuration].
    all: split; [reflexivity|]; split; [apply append_s_not_empty|apply durationString_agrees].
Qed.

(** *** Approval: the record is touched only after the grant was made *)

Ltac kept_leaf := open_facts; split_agree; unfold recordsKept; wcbn; repeat split; congruence.

Lemma approveFullRequest_kept p cl request w :
  recordsKept w (final (approveFullRequest p cl request w)).
Proof.
  unfold approveFullRequest.
  destruct (String.eqb (RequestType (arSpec request)) "Service").
  - unfold index, randSuffixOf, orPanic. munfold.
    destruct (nth_error (Split (SourceService (arSpec request)) "/") 0) as [sNs|];
      [|repeat split].
    destruct (nth_error (Split (SourceService (arSpec request)) "/") 1) as [sName|];
      [|repeat split].
    destruct (nth_error (Split (TargetService (arSpec request)) "/") 0) as [tNs|];
      [|repeat split].
    destruct (nth_error (Split (TargetService (arSpec request)) "/") 1) as [tName|];
      [|repeat split].
    cbv beta iota.
    destruct (slice_to _ _) as [suffix|]; [|repeat split].
    cbv beta iota.
    destruct (getOverridePorts _) as [ports|e]; [|repeat split].
    step_clone; [|kept_leaf].
    step_clone; [|step_cleanup; kept_leaf].
    destruct (fullDirections _) as [sourceDirection targetDirection].
    step_create; [do 2 step_cleanup; kept_leaf|].
    step_create; [do 3 step_cleanup; kept_leaf|].
    kept_leaf.
  - destruct (String.eqb (RequestType (arSpec request)) "External"); [|repeat split].
    unfold index, randSuffixOf, orPanic. munfold.
    destruct (nth_error (Split (Service_ (arSpec request)) "/") 0) as [sNs|]; [|repeat split].
    destruct (nth_error (Split (Service_ (arSpec request)) "/") 1) as [sName|]; [|repeat split].
    cbv beta iota.
    destruct (slice_to _ _) as [suffix|]; [|repeat split].
    cbv beta iota.
    destruct (getOverridePorts _) as [ports|e]; [|repeat split].
    step_clone; [|kept_leaf].
    step_create; [step_cleanup; kept_leaf|].
    kept_leaf.
Qed.

(** X25.  [handleApproveAccessRequest] touches the request
    record only after the approval went through: a run either reports
    the approval as a success, the record being in one of the three
    pending statuses and its delete being the last call issued,
    whatever that delete returns, or leaves the Access-Requests exactly
    as they were, so that a failed approval can be repeated.  A record
    in any other status is never approved. *)
Theorem handleApproveAccessRequest_keeps_the_record_on_failure p payload w :
  let w' := final (handleApproveAccessRequest p payload w) in
  (approvalReported w w' /\
   exists request e rest,
     accessRequests w !! ("", Payload.RequestID payload) = Some request /\
     (Status (arSpec request) = "PendingFull" \/ isPartial (Status (arSpec request)) = true) /\
     trace w' = (Call AppClient (OpDelete KAccessRequest "" (Payload.RequestID payload)), e)
                :: rest)
  \/ (accessRequests w' = accessRequests w /\ broadcast w' <> broadcast w
      /\ ~ approvalReported w w')
  \/ (accessRequests w' = accessRequests w /\ broadcast w' = broadcast w).
Proof.
  unfold handleApproveAccessRequest, GetAccessRequestAsApp, DeleteAccessRequestAsApp,
    Logger.Info. munfold.
  match goal with
  | |- context [Api.Get AccessRequest ?cl ?ns ?n ?w0] =>
      destruct (Get_step (T:=AccessRequest) cl ns n w0) as (r & w1 & -> & Ha1 & _ & Hr)
  end.
  assert (Hk1 : recordsKept w w1)
    by (unfold recordsKept; destruct Ha1 as (-> & _ & _ & _ & -> & -> & -> & _); repeat split).
  assert (Hfail : forall msg err logType w0,
            recordsKept w w0 ->
            let w' := final (sendError msg err logType w0) in
            accessRequests w' = accessRequests w /\ broadcast w' <> broadcast w
            /\ ~ approvalReported w w').
  { intros msg err lt w0 (_ & Hr0 & _ & Hb0) w'. subst w'.
    split; [|split; [|by apply approvalReported_not_failure]];
      destruct (sendError_step msg err lt w0)
        as (w' & -> & _ & _ & _ & _ & Hr' & _ & _ & _ & (report & Hb') & _); cbn [final].
    - congruence.
    - rewrite Hb', Hb0. intros Heq. apply (f_equal (@length LogEntry)) in Heq.
      cbn [length] in Heq. lia. }
  destruct r as [request|e]; cbv beta iota; [|right; left; by apply Hfail].
  cbn [store AccessRequestObject accessRequests logged] in Hr.
  unfold GetImpersonatingKubeClient. munfold.
  destruct (verifyToken (env w1) (idToken p)) as [user|e]; cbv beta iota;
    [|right; left; by apply Hfail].
  assert (Hfinish : forall w2,
            recordsKept w w2 ->
            (Status (arSpec request) = "PendingFull"
             \/ isPartial (Status (arSpec request)) = true) ->
            let w' := final
              ((e ← Api.Delete AccessRequest AppClient "" (Payload.RequestID payload);
                match e with
                | Some err => Logger.Error "Failed to delete approved AccessRequest CR" (Some err)
                | None => mret tt
                end;;
                logAndBroadcast
                  (MkEntry ("SUCCESS: Request from " ++ Requestor (arSpec request)
                              ++ " approved by " ++ Email (userInfo p) ++ ".")
                           "log-success" (RequestType (arSpec request)) "applyResult");;
                logAndBroadcast
                  (MkEntry "--- Request complete ---" "log-success"
                           (RequestType (arSpec request)) "applyComplete")) w2) in
            approvalReported w w' /\
            exists request0 e rest,
              accessRequests w !! ("", Payload.RequestID payload) = Some request0 /\
              (Status (arSpec request0) = "PendingFull"
               \/ isPartial (Status (arSpec request0)) = true) /\
              trace w' = (Call AppClient (OpDelete KAccessRequest "" (Payload.RequestID payload)), e)
                         :: rest).
  { intros w2 (_ & _ & _ & Hb2) Hst. munfold. unfold Logger.Error, logAndBroadcast. munfold.
    destruct (Delete_step (T:=AccessRequest) AppClient "" (Payload.RequestID payload) w2)
      as (e & w3 & -> & Ht3 & Hd).
    assert (Hb3 : broadcast w3 = broadcast w).
    { destruct Hd as [(ft & _ & Ha)|[(_ & _ & Ha)|(o & _ & _ & Ha)]];
        destruct Ha as (_ & _ & _ & _ & _ & _ & -> & _); wcbn;
          rewrite ?setStore_trace; exact Hb2. }
    destruct e as [err|]; cbv beta iota; cbn [final]; wcbn.
    - split; [unfold approvalReported; wcbn; rewrite Hb3; eexists _, _; reflexivity|].
      exists request, (Some err), (trace w2). split; [exact Hr|]. split; [exact Hst|exact Ht3].
    - split; [unfold approvalReported; wcbn; rewrite Hb3; eexists _, _; reflexivity|].
      exists request, None, (trace w2). split; [exact Hr|]. split; [exact Hst|exact Ht3]. }
  assert (Hkeep : forall w2 w3, recordsKept w w2 -> recordsKept w2 w3 -> recordsKept w w3).
  { unfold recordsKept. intros w2 w3 (? & ? & ? & ?) (? & ? & ? & ?). repeat split; congruence. }
  assert (Hpartial : forall side : bool,
            isPartial (Status (arSpec request)) = true ->
            forall msg,
            let w' := final
              (match approvePartialRequest p (Impersonating user) request side
                       (logged (MkLine LInfo msg None) w1) with
               | Ret a w'0 =>
                   match a with
                   | Some err =>
                       sendError (if side then "Failed to approve source-side of the request"
                                  else "Failed to approve target-side of the request")
                                 (Some err) "Request"
                   | None =>
                       (e ← Api.Delete AccessRequest AppClient "" (Payload.RequestID payload);
                        match e with
                        | Some err =>
                            Logger.Error "Failed to delete approved AccessRequest CR" (Some err)
                        | None => mret tt
                        end;;
                        logAndBroadcast
                          (MkEntry ("SUCCESS: Request from " ++ Requestor (arSpec request)
                                      ++ " approved by " ++ Email (userInfo p) ++ ".")
                                   "log-success" (RequestType (arSpec request)) "applyResult");;
                        logAndBroadcast
                          (MkEntry "--- Request complete ---" "log-success"
                                   (RequestType (arSpec request)) "applyComplete"))
                   end w'0
               | Panic why w'0 => Panic why w'0
               end) in
            (approvalReported w w' /\
             exists request0 e rest,
               accessRequests w !! ("", Payload.RequestID payload) = Some request0 /\
               (Status (arSpec request0) = "PendingFull"
                \/ isPartial (Status (arSpec request0)) = true) /\
               trace w' = (Call AppClient (OpDelete KAccessRequest "" (Payload.RequestID payload)), e)
                          :: rest)
            \/ (accessRequests w' = accessRequests w /\ broadcast w' <> broadcast w
                /\ ~ approvalReported w w')
            \/ (accessRequests w' = accessRequests w /\ broadcast w' = broadcast w)).
  { intros side Hp msg.
    match goal with
    | |- context [approvePartialRequest ?p ?cl ?rq ?sd ?w0] =>
        pose proof (approvePartialRequest_step p cl rq sd w0) as Hstep; cbv zeta in Hstep;
        destruct (approvePartialRequest p cl rq sd w0) as [[err|] w2|why w2];
        cbn [final] in Hstep; destruct Hstep as ((He2 & _ & Hr2 & Hu2 & Hb2) & _)
    end; cbv beta iota zeta.
    - right. left. apply Hfail. eapply Hkeep; [exact Hk1|]. repeat split; assumption.
    - left. apply Hfinish; [|by right]. eapply Hkeep; [exact Hk1|]. repeat split; assumption.
    - right. right. cbn [final]. destruct Hk1 as (_ & Hr1 & _ & Hb1). wcbn.
      split; congruence. }
  destruct (String.eqb_spec (Status (arSpec request)) "PendingFull") as [Efull|_].
  - pose proof (approveFullRequest_kept p (Impersonating user) request
                  (logged (MkLine LInfo "Approving a full request" None) w1)) as Hk2.
    destruct (approveFullRequest p (Impersonating user) request _) as [[err|] w2|why w2];
      cbn [final] in Hk2; cbv beta iota.
    + right. left. apply Hfail. eapply Hkeep; [exact Hk1|exact Hk2].
    + left. apply Hfinish; [|by left]. eapply Hkeep; [exact Hk1|exact Hk2].
    + right. right. cbn [final]. destruct Hk1 as (_ & Hr1 & _ & Hb1).
      destruct Hk2 as (_ & Hr2 & _ & Hb2). wcbn. split; congruence.
  - destruct (String.eqb (Status (arSpec request)) "PendingTarget") eqn:Et.
    + apply (Hpartial false). unfold isPartial. by rewrite Et.
    + destruct (String.eqb (Status (arSpec request)) "PendingSource") eqn:Es.
      * apply (Hpartial true). unfold isPartial. by rewrite Es, orb_true_r.
      * right. left. by apply Hfail.
Qed.

(** *** The properties above, on concrete clusters *)

(** Alice's withdrawn request: the reconciler deletes the Access
    Declaration, which is not there, and writes the finalizer off. *)
Lemma withdrawn_request_example :
  let w := Scenario.withRequest Scenario.withdrawn
             (Scenario.cluster Scenario.calm Scenario.allowAll) in
  notBeingDeleted (arMeta Scenario.withdrawn) = false
  /\ exists result w' calls,
       reconcileAccessRequest Scenario.withdrawn w = Ret result w'
       /\ trace w' = (calls ++ trace w)%list.
Proof.
  split; [reflexivity|].
  destruct (reconcileAccessRequest_finalizer_after_cleanup Scenario.withdrawn
              (Scenario.withRequest Scenario.withdrawn
                 (Scenario.cluster Scenario.calm Scenario.allowAll)))
    as (result & w' & calls & E & Ht & _); [reflexivity|].
  exists result, w', calls. split; [exact E|exact Ht].
Defined.

(** A declaration seen for the first time gets the finalizer; the next
    pass over what is stored does nothing. *)
Lemma finalizer_added_example :
  let w := Scenario.withAccess Scenario.young
             (Scenario.cluster Scenario.calm Scenario.allowAll) in
  let w' := final (reconcileAccessFinalizer Scenario.young w) in
  exists stored,
    accesses w' !! ("team-a", "access-nc-svc1-30623165") = Some stored
    /\ Finalizers (accMeta stored) = [accessFinalizerName]
    /\ forall w2, reconcileAccessFinalizer stored w2 = Ret None w2.
Proof.
  intros w w'.
  destruct (reconcileAccessFinalizer_adds_finalizer_once Scenario.young w w')
    as (stored & Hs & _ & _ & Hidle); [reflexivity|reflexivity|reflexivity|].
  exists stored. split; [exact Hs|]. split; [|exact Hidle].
  assert (E : Some stored = accesses w' !! ("team-a", "access-nc-svc1-30623165"))
    by (symmetry; exact Hs).
  vm_compute in E. injection E as ->. reflexivity.
Defined.

(** A declaration without request id: the finalizer goes, no Service
    is listed. *)
Lemma no_request_id_example :
  let w := Scenario.withAccess Scenario.unlabelled Scenario.deleting in
  exists r w',
    reconcileAccessFinalizer Scenario.unlabelled w = Ret (writeOffResult r) w'
    /\ trace w' = [(finalizerWrite Scenario.unlabelled, r)].
Proof.
  intros w.
  destruct (reconcileAccessFinalizer_without_request_id Scenario.unlabelled w)
    as (r & w' & E & Ht & _); [reflexivity|reflexivity|reflexivity|].
  exists r, w'. split; [exact E|exact Ht].
Defined.

(** With the deletes of Services served, the clone of the doomed
    declaration is removed and the two originals stay. *)
Lemma clones_removed_example :
  let w := Scenario.withFaults Scenario.calm Scenario.deleting in
  exists w',
    deleteClonedServices Scenario.uuid0 w = Ret None w'
    /\ services w' = withoutClones Scenario.uuid0 (services w)
    /\ services w' !! ("team-a", "nc-svc1-30623165") = None
    /\ services w' !! ("team-a", "svc1") = Some (Scenario.svc "team-a" "svc1").
Proof.
  intros w.
  destruct (deleteClonedServices_removes_exactly_the_clones Scenario.uuid0 w)
    as (w' & E & _ & Hs).
  - unfold wellKeyed. refine (bool_decide_unpack _ _). vm_compute. exact I.
  - unfold clonesUnprotected. refine (bool_decide_unpack _ _). vm_compute. exact I.
  - intros t ns n. reflexivity.
  - reflexivity.
  - exists w'. split; [exact E|]. split; [exact Hs|]. rewrite Hs. split; reflexivity.
Defined.

(** A reconcile request for a name nobody has. *)
Lemma unknown_name_example :
  let w := Scenario.cluster Scenario.calm Scenario.allowAll in
  exists w', Reconcile "team-a" "nothing" w = Ret None w' /\ agree w' w
             /\ length (trace w') = 3%nat.
Proof.
  intros w.
  destruct (Reconcile_unknown_name "team-a" "nothing" w) as (w' & E & Ha & Ht);
    [reflexivity|reflexivity|reflexivity|intros t; reflexivity|intros t k; reflexivity|].
  exists w'. split; [exact E|]. split; [exact Ha|]. rewrite Ht. reflexivity.
Defined.

(** Alice holds no rights in [team-b]: the direct grant is refused. *)
Lemma gate_example :
  let w := Scenario.cluster Scenario.calm Scenario.aliceInTeamA in
  exists w',
    handleRequestClusterAccess Scenario.aliceSession
      (Scenario.request "requestClusterAccess") w = Ret tt w'
    /\ refused "Service" w w'.
Proof.
  intros w.
  apply (handleRequestClusterAccess_refused_without_permissions Scenario.aliceSession
           (Scenario.request "requestClusterAccess") w).
  reflexivity.
Defined.

(** An external grant for an address sent with blanks around it: the
    address is stored as sent. *)
Lemma external_grant_example :
  let w := Scenario.cluster Scenario.calm Scenario.allowAll in
  let o := handleRequestExternalAccess Scenario.anyAddress Scenario.anyAddress
             Scenario.aliceSession Scenario.externalRequest w in
  accesses (final o) = accesses w
  /\ (eaTargetCIDRs <$> externalAccesses (final o) !! ("team-a", "ea-nc-650e999d890d-30623165"))
     = Some [" 10.0.0.0/8 "].
Proof.
  intros w o.
  destruct (handleRequestExternalAccess_outcome Scenario.anyAddress Scenario.anyAddress
              Scenario.aliceSession Scenario.externalRequest w) as (Ha & _).
  - unfold wellKeyed. refine (bool_decide_unpack _ _). vm_compute. exact I.
  - split; [exact Ha|]. vm_compute. reflexivity.
Defined.

(** Bob approves Alice's request after the reconciler has put its
    finalizer on the record: the record stays, marked for deletion and
    still [PendingTarget], and the reconciler's pass over it deletes
    Alice's own Access Declaration. *)
Lemma approved_partial_request_example :
  let payload := Scenario.byRequestName "approveAccessRequest" "ar-alice-example-com-0b1e4f6a" in
  let w := Scenario.reconciled in
  let w' := final (handleApproveAccessRequest Scenario.bobSession payload w) in
  exists marked,
    accessRequests w' !! ("", "ar-alice-example-com-0b1e4f6a") = Some marked
    /\ Status (arSpec marked) = "PendingTarget"
    /\ notBeingDeleted (arMeta marked) = false
    /\ exists result w'' e after,
         reconcileAccessRequest marked w' = Ret result w''
         /\ trace w'' =
              (after ++ (Call ReconcilerClient
                           (OpDelete KAccess "team-a" "access-nc-svc1-30623165"), e)
                     :: trace w')%list.
Proof.
  intros payload w w'.
  destruct (approved_partial_request_has_its_own_side_deleted Scenario.bobSession payload w
              Scenario.filed w')
    as (marked & Hm & Hspec & Hnd & Hrec).
  - vm_compute. reflexivity.
  - vm_compute. reflexivity.
  - vm_compute. reflexivity.
  - intros t. reflexivity.
  - vm_compute. reflexivity.
  - eexists _, _. vm_compute. reflexivity.
  - exists marked. split; [exact Hm|]. split; [rewrite Hspec; reflexivity|].
    split; [exact Hnd|exact Hrec].
Defined.

(** The record cannot be filed: Alice's clone and Access Declaration
    are there all the same, and no record is. *)
Lemma submission_leak_example :
  let w := Scenario.cluster Scenario.noFiling Scenario.aliceInTeamA in
  let w' := final (handleSubmitAccessRequest Scenario.aliceSession
                     (Scenario.request "submitAccessRequest") w) in
  accessRequests w' = accessRequests w
  /\ exists localNs localName cloneName a,
       oneCloneAdded w w' localNs localName cloneName Scenario.uuid0
       /\ oneAccessAdded w w' localNs ("access-" ++ cloneName) a.
Proof.
  intros w w'. split; [vm_compute; reflexivity|].
  destruct (submission_keeps_the_side_it_created Scenario.aliceSession
              (Scenario.request "submitAccessRequest") w)
    as (localNs & localName & cloneName & a & Hc & Ha & _).
  - intros Heq.
    apply (f_equal (fun m => bool_decide (m !! ("team-a", "access-nc-svc1-30623165") = None)))
      in Heq.
    vm_compute in Heq. discriminate Heq.
  - exists localNs, localName, cloneName, a. split; [exact Hc|exact Ha].
Defined.
